(** * thermo.gpumd: Green-Kubo modal conductivity and NEMD group assignment

    A shallow embedding of [thermo/gpumd/calc.py] and
    [thermo/gpumd/preproc.py].

    - Python exceptions are values of [pyexn]; a computation that may raise
      returns [exc A].
    - A [dict] that the code extends in place is a [gmap string ndarray]
      threaded through the state-and-exception monad [M]: when a call
      raises, the entries written before the [raise] stay in the caller's
      dictionary, as they do in Python.
    - Floating-point numbers are kept behind the interface [PyFloat], and
      the program text is written once against that interface.  The
      arithmetic of the program is the instance [float]: IEEE-754 binary64,
      the numbers CPython and numpy compute with.  What the program does is
      stated for every instance, or for [float].  The instance [exact]
      (rational arithmetic, with one absorbing element for the result of a
      division by zero) is the same text read over the rational numbers: it
      has no rounding, no overflow and no underflow, and every Python int
      converts.  It is used for facts that rest on comparisons alone, and
      for statements that say of themselves that they are about exact
      arithmetic.
    - [corr] and [__get_direction] are imported by calc.py from modules that
      are not part of the sources at hand; the functions that call them take
      them as parameters. *)

From Stdlib Require Import QArith Qround ZArith Floats SpecFloat Lia Lqa.
From stdpp Require Import gmap strings list pretty.

Set Warnings "-inexact-float".

(** ** Exceptions *)

Inductive pyexn : Type :=
  | ValueError (msg : string)
  | ZeroDivisionError
  | OverflowError
  | IndexError
  | KeyError (key : string)
  | AxisError.

Inductive exc (A : Type) : Type :=
  | Ok (a : A)
  | Raise (e : pyexn).
Arguments Ok {A} a.
Arguments Raise {A} e.

#[global] Instance exc_ret : MRet exc := fun A a => Ok a.
#[global] Instance exc_bind : MBind exc :=
  fun A B f m => match m with Ok a => f a | Raise e => Raise e end.

Definition completes {A} (r : exc A) : Prop :=
  match r with Ok _ => True | Raise _ => False end.

(** ** The arithmetic interface *)

Class PyFloat (F : Type) : Type := {
  (** a literal written in decimal in the program text *)
  lit : Q -> F;
  (** [int_fits z] holds when the Python int [z] converts to a float
      (otherwise the conversion raises OverflowError) *)
  int_fits : Z -> bool;
  of_Z : Z -> F;
  fadd : F -> F -> F;
  fsub : F -> F -> F;
  fmul : F -> F -> F;
  (** numpy / IEEE division: total, a zero divisor gives a non-finite value *)
  fdiv : F -> F -> F;
  feqb : F -> F -> bool;
  fltb : F -> F -> bool;
  fleb : F -> F -> bool;
  (** [int(np.floor(x))] *)
  ffloor : F -> exc Z
}.

Declare Scope py_scope.
Delimit Scope py_scope with py.
Infix "+!" := fadd (at level 50, left associativity) : py_scope.
Infix "-!" := fsub (at level 50, left associativity) : py_scope.
Infix "*!" := fmul (at level 40, left associativity) : py_scope.
Infix "/!" := fdiv (at level 40, left associativity) : py_scope.
Infix "==!" := feqb (at level 70, no associativity) : py_scope.
Infix "<!" := fltb (at level 70, no associativity) : py_scope.
Notation "x >=! y" := (fleb y x) (at level 70, no associativity) : py_scope.
Open Scope py_scope.

Section Scalars.
Context {F : Type} `{PyFloat F}.

Definition zero : F := lit 0.

(** Conversion of a Python int that meets a float in an arithmetic
    operation. *)
Definition of_int (z : Z) : exc F :=
  if int_fits z then Ok (of_Z z) else Raise OverflowError.

(** [a / b] on Python floats. *)
Definition py_div (a b : F) : exc F :=
  if b ==! zero then Raise ZeroDivisionError else Ok (a /! b).

End Scalars.

(** ** numpy arrays of dimension 0, 1 and 2 *)

Inductive ndarray (F : Type) : Type :=
  | A0 (x : F)
  | A1 (v : list F)
  | A2 (ncols : nat) (rows : list (list F)).
Arguments A0 {F} x.
Arguments A1 {F} v.
Arguments A2 {F} ncols rows.

Section Numpy.
Context {F : Type} `{PyFloat F}.

(** number of elements, [a.size] *)
Definition nd_size (a : ndarray F) : nat :=
  match a with
  | A0 _ => 1
  | A1 v => length v
  | A2 nc rows => length rows * nc
  end.

(** the elements in row-major order, [a.ravel()] *)
Definition nd_flat (a : ndarray F) : list F :=
  match a with
  | A0 x => [x]
  | A1 v => v
  | A2 _ rows => concat rows
  end.

(** a unary ufunc, or a binary one with a scalar operand *)
Definition nd_map (f : F -> F) (a : ndarray F) : ndarray F :=
  match a with
  | A0 x => A0 (f x)
  | A1 v => A1 (map f v)
  | A2 nc rows => A2 nc (map (map f) rows)
  end.

(** [np.zeros((r, c))] *)
Definition np_zeros (r c : Z) : exc (ndarray F) :=
  if ((r <? 0) || (c <? 0))%Z
  then Raise (ValueError "negative dimensions are not allowed")
  else Ok (A2 (Z.to_nat c) (replicate (Z.to_nat r) (replicate (Z.to_nat c) zero))).

(** [np.linspace(start, stop, num)] with the default [endpoint=True] *)
Definition np_linspace (start stop : F) (num : Z) : exc (list F) :=
  if (num <? 0)%Z
  then Raise (ValueError ("Number of samples, " +:+ pretty num +:+ ", must be non-negative."))
  else
    let n := Z.to_nat num in
    let div := of_Z (num - 1) in
    let y := map (fun k => of_Z (Z.of_nat k)) (seq 0 n) in
    let delta := stop -! start in
    let y :=
      if (1 <? num)%Z then
        let step := delta /! div in
        if step ==! zero
        then map (fun v => (v /! div) *! delta) y
        else map (fun v => v *! step) y
      else map (fun v => v *! delta) y in
    let y := map (fun v => v +! start) y in
    Ok (if (1 <? num)%Z then <[pred n := stop]> y else y).

(** [np.squeeze] of a one-dimensional array: a single element becomes a
    zero-dimensional array *)
Definition np_squeeze (v : list F) : ndarray F :=
  match v with
  | [x] => A0 x
  | _ => A1 v
  end.

(** Broadcasting of one axis: a length equal to the target is kept, a
    length of 1 is stretched. *)
Definition stretch {A} (n : nat) (l : list A) : option (list A) :=
  if decide (length l = n) then Some l
  else match l with
       | [x] => Some (replicate n x)
       | _ => None
       end.

Definition bdim (n1 n2 : nat) : option nat :=
  if decide (n1 = n2) then Some n1
  else if decide (n1 = 1) then Some n2
  else if decide (n2 = 1) then Some n1
  else None.

Definition shape_error {A} : exc A :=
  Raise (ValueError "operands could not be broadcast together").

Definition as_2d (a : ndarray F) : nat * list (list F) :=
  match a with
  | A0 x => (1, [[x]])
  | A1 v => (length v, [v])
  | A2 nc rows => (nc, rows)
  end.

Definition nd_dim (a : ndarray F) : nat :=
  match a with A0 _ => 0 | A1 _ => 1 | A2 _ _ => 2 end.

(** [a + b] on arrays, with numpy's broadcasting *)
Definition nd_add (a b : ndarray F) : exc (ndarray F) :=
  let '(ca, ra) := as_2d a in
  let '(cb, rb) := as_2d b in
  match bdim (length ra) (length rb), bdim ca cb with
  | Some r, Some c =>
      match stretch r ra, stretch r rb with
      | Some ra', Some rb' =>
          let add_rows (p : list F * list F) : list F :=
            match stretch c p.1, stretch c p.2 with
            | Some u, Some w => zip_with fadd u w
            | _, _ => []
            end in
          let rows := map add_rows (zip ra' rb') in
          Ok (match Nat.max (nd_dim a) (nd_dim b) with
              | 0 => A0 (default zero (head (concat rows)))
              | 1 => A1 (concat rows)
              | _ => A2 c rows
              end)
      | _, _ => shape_error
      end
  | _, _ => shape_error
  end.

(** [np.sum(a, axis=0)] *)
Definition np_sum_axis0 (a : ndarray F) : exc (ndarray F) :=
  match a with
  | A0 _ => Raise AxisError
  | A1 v => Ok (A0 (foldl fadd zero v))
  | A2 nc rows => Ok (A1 (foldl (zip_with fadd) (replicate nc zero) rows))
  end.

(** [a[m, :]] *)
Definition nd_row (a : ndarray F) (m : nat) : exc (list F) :=
  match a with
  | A2 _ rows => match rows !! m with Some r => Ok r | None => Raise IndexError end
  | _ => Raise IndexError
  end.

(** the value of an assignment [a[m, :] = v] brought to the row's shape *)
Definition to_row (n : nat) (v : ndarray F) : exc (list F) :=
  match v with
  | A0 x => Ok (replicate n x)
  | A1 l => match stretch n l with Some l' => Ok l' | None => shape_error end
  | A2 _ [l] => match stretch n l with Some l' => Ok l' | None => shape_error end
  | A2 _ _ => shape_error
  end.

(** [a[m, :] = v] *)
Definition nd_set_row (a : ndarray F) (m : nat) (v : ndarray F) : exc (ndarray F) :=
  match a with
  | A2 nc rows =>
      if decide (m < length rows)
      then r ← to_row nc v; Ok (A2 nc (<[m := r]> rows))
      else Raise IndexError
  | _ => Raise IndexError
  end.

(** [np.diff] of a one-dimensional array *)
Fixpoint np_diff (x : list F) : list F :=
  match x with
  | a :: (b :: _) as t => (b -! a) :: np_diff t
  | _ => []
  end.

(** [np.cumsum] of a one-dimensional array *)
Fixpoint cumsum_from (acc : F) (l : list F) : list F :=
  match l with
  | [] => []
  | a :: t => (acc +! a) :: cumsum_from (acc +! a) t
  end.

Definition np_cumsum (l : list F) : list F :=
  match l with
  | [] => []
  | a :: t => a :: cumsum_from a t
  end.

(** [scipy.integrate.cumtrapz(y, x, initial=initial)] for a
    one-dimensional [y]: [cumsum(d * (y[1:] + y[:-1]) / 2.0)] with
    [d = diff(x)], and [initial] put in front.  [y[1:]] is [drop 1 y] and
    [y[:-1]] is [take (pred (length y)) y]. *)
Definition cumtrapz (y : list F) (x : ndarray F) (initial : F) : exc (list F) :=
  match x with
  | A1 xs =>
      let d := np_diff xs in
      if decide (Z.of_nat (length d) = Z.of_nat (length y) - 1)%Z then
        let res :=
          np_cumsum
            (map (fun t => t /! lit 2)
                 (zip_with fmul d (zip_with fadd (drop 1 y) (take (pred (length y)) y)))) in
        Ok (initial :: res)
      else Raise (ValueError "If given, length of x along axis must be the same as y.")
  | _ => Raise (ValueError "If given, shape of x must be 1-d or the same as y.")
  end.

End Numpy.

(** ** Computations on a dictionary that is extended in place *)

Definition M (F : Type) (A : Type) : Type :=
  gmap string (ndarray F) -> exc A * gmap string (ndarray F).

#[global] Instance M_ret {F} : MRet (M F) := fun A a d => (Ok a, d).
#[global] Instance M_bind {F} : MBind (M F) :=
  fun A B f m d =>
    match m d with
    | (Ok a, d') => f a d'
    | (Raise e, d') => (Raise e, d')
    end.

Section Dict.
Context {F : Type}.

Definition lift {A} (r : exc A) : M F A := fun d => (r, d).
Definition raise {A} (e : pyexn) : M F A := fun d => (Raise e, d).

(** [k in data.keys()] *)
Definition contains (k : string) : M F bool :=
  fun d => (Ok (bool_decide (is_Some (d !! k))), d).

(** [data[k]] *)
Definition getitem (k : string) : M F (ndarray F) :=
  fun d => match d !! k with
           | Some v => (Ok v, d)
           | None => (Raise (KeyError k), d)
           end.

(** [data[k] = v] *)
Definition setitem (k : string) (v : ndarray F) : M F unit :=
  fun d => (Ok tt, <[k := v]> d).

(** the dictionary object itself *)
Definition this_dict : M F (gmap string (ndarray F)) := fun d => (Ok d, d).

(** [for m in <items>: body(m)] *)
Fixpoint for_each {A} (items : list A) (body : A -> M F unit) : M F unit :=
  match items with
  | [] => mret tt
  | m :: rest => body m;; for_each rest body
  end.

(** [range(n)] *)
Definition range (n : Z) : list nat := seq 0 (Z.to_nat n).

End Dict.

(** ** thermo/gpumd/calc.py *)

Section Calc.
Context {F : Type} `{PyFloat F}.

(** [thermo.math.correlate.corr(f, g, max_lag)]: outside the sources at
    hand, so any function from its three arguments to an array or an
    exception is allowed. *)
Variable corr : ndarray F -> ndarray F -> Z -> exc (ndarray F).

(** [thermo.gpumd.data.__get_direction(directions)]: outside the sources
    at hand as well.  Its result is only used in the tests
    ['x' in directions], ['y' in directions], ['z' in directions]. *)
Variable __get_direction : string -> exc (list string).

(** [1. / 1.e15] and [1.e30 / 8.617333262145e-5] divide by a non-zero
    literal and cannot raise; the last division is by the arguments and
    raises ZeroDivisionError when [T * T * vol] is zero. *)
Definition __scale_gpumd_tc (vol T : F) : exc F :=
  let one := lit 1.602176634e-19 *! lit 9.651599e7 in
  let two := lit 1 /! lit 1e15 in
  let three := lit 1e30 /! lit 8.617333262145e-5 in
  py_div (one *! two *! three) (T *! T *! vol).

(** One pass of the loop over the mode bins for one heat-current channel:
<<
    data[ckey][m, :] = corr(data[jkey][m, :].astype(cplx), j.astype(cplx), max_lag)
    data[kkey][m, :] = integrate.cumtrapz(data[ckey][m, :], data['tau'], initial=0) * scale
>>
*)
Definition correlate_and_integrate (jkey ckey kkey : string)
    (j : ndarray F) (max_lag : Z) (scale : F) (m : nat) : M F unit :=
  a ← getitem jkey;
  r ← lift (nd_row a m);
  c ← lift (corr (A1 r) j max_lag);
  t ← getitem ckey;
  t' ← lift (nd_set_row t m c);
  setitem ckey t';;
  y ← getitem ckey;
  yr ← lift (nd_row y m);
  tau ← getitem "tau";
  k ← lift (cumtrapz yr tau zero);
  km ← getitem kkey;
  km' ← lift (nd_set_row km m (A1 (map (fun v => v *! scale) k)));
  setitem kkey km'.

(** The shape that the blocks for x and y share (lines 116-131 and
    133-148), with the names of the keys and the error message left open.
    [gkma_x] and [gkma_y] below spell the two blocks out; they are this
    definition at their keys. *)
Definition gkma_in_out (ji jo ci co ki ko msg : string)
    (nbins size max_lag : Z) (scale : F) : M F unit :=
  hi ← contains ji;
  ho ← contains jo;
  if negb hi || negb ho
  then raise (ValueError msg)
  else
    a ← getitem ji;
    b ← getitem jo;
    s ← lift (nd_add a b);
    j ← lift (np_sum_axis0 s);
    z ← lift (np_zeros nbins size); setitem ci z;;
    z ← lift (np_zeros nbins size); setitem co z;;
    z ← lift (np_zeros nbins size); setitem ki z;;
    z ← lift (np_zeros nbins size); setitem ko z;;
    for_each (range nbins) (fun m =>
      correlate_and_integrate ji ci ki j max_lag scale m;;
      correlate_and_integrate jo co ko j max_lag scale m).

(** The block of [get_gkma_kappa] for the x direction. *)
Definition gkma_x (nbins size max_lag : Z) (scale : F) : M F unit :=
  hi ← contains "jmxi";
  ho ← contains "jmxo";
  if negb hi || negb ho
  then raise (ValueError "x direction data is missing")
  else
    ji ← getitem "jmxi";
    jo ← getitem "jmxo";
    s ← lift (nd_add ji jo);
    jx ← lift (np_sum_axis0 s);
    z ← lift (np_zeros nbins size); setitem "corr_xmi_x" z;;
    z ← lift (np_zeros nbins size); setitem "corr_xmo_x" z;;
    z ← lift (np_zeros nbins size); setitem "kmxi" z;;
    z ← lift (np_zeros nbins size); setitem "kmxo" z;;
    for_each (range nbins) (fun m =>
      correlate_and_integrate "jmxi" "corr_xmi_x" "kmxi" jx max_lag scale m;;
      correlate_and_integrate "jmxo" "corr_xmo_x" "kmxo" jx max_lag scale m).

(** The block for the y direction. *)
Definition gkma_y (nbins size max_lag : Z) (scale : F) : M F unit :=
  hi ← contains "jmyi";
  ho ← contains "jmyo";
  if negb hi || negb ho
  then raise (ValueError "y direction data is missing")
  else
    ji ← getitem "jmyi";
    jo ← getitem "jmyo";
    s ← lift (nd_add ji jo);
    jy ← lift (np_sum_axis0 s);
    z ← lift (np_zeros nbins size); setitem "corr_ymi_y" z;;
    z ← lift (np_zeros nbins size); setitem "corr_ymo_y" z;;
    z ← lift (np_zeros nbins size); setitem "kmyi" z;;
    z ← lift (np_zeros nbins size); setitem "kmyo" z;;
    for_each (range nbins) (fun m =>
      correlate_and_integrate "jmyi" "corr_ymi_y" "kmyi" jy max_lag scale m;;
      correlate_and_integrate "jmyo" "corr_ymo_y" "kmyo" jy max_lag scale m).

(** The block for the z direction. *)
Definition gkma_z (nbins size max_lag : Z) (scale : F) : M F unit :=
  h ← contains "jmz";
  if negb h
  then raise (ValueError "z direction data is missing")
  else
    j ← getitem "jmz";
    jz ← lift (np_sum_axis0 j);
    z ← lift (np_zeros nbins size); setitem "corr_zm_z" z;;
    z ← lift (np_zeros nbins size); setitem "kmz" z;;
    for_each (range nbins) (fun m =>
      correlate_and_integrate "jmz" "corr_zm_z" "kmz" jz max_lag scale m).

(** Lines 94-109: the scale factor, the maximum lag and the lag-time
    axis in femtoseconds. *)
Definition gkma_lags (nsamples : Z) (dt : F) (sample_interval : Z)
    (T vol : F) (max_tau : option F) : exc (F * F * Z * ndarray F) :=
  scale ← __scale_gpumd_tc vol T;
  si ← of_int sample_interval;
  let srate := si *! dt in
  ns ← of_int (nsamples - 1);
  let tot_time := srate *! ns in
  let max_tau :=
    match max_tau with
    | None => tot_time
    | Some t => t *! lit 1e6
    end in
  q ← py_div max_tau srate;
  max_lag ← ffloor q;
  ml ← of_int max_lag;
  tau ← np_linspace zero (ml *! srate) (max_lag + 1);
  Ok (scale, srate, max_lag, np_squeeze tau).

(** The dictionary [data] is the state; the result is what the call
    returns: the dictionary itself, or [None].  Writing the file
    ([save=True]) is left out. *)
Definition get_gkma_kappa (nbins nsamples : Z) (dt : F) (sample_interval : Z)
    (T vol : F) (max_tau : option F) (directions : string)
    (return_data : bool) : M F (option (gmap string (ndarray F))) :=
  '(scale, srate, max_lag, tau) ← lift (gkma_lags nsamples dt sample_interval T vol max_tau);
  let size := (max_lag + 1)%Z in
  setitem "tau" tau;;
  directions ← lift (__get_direction directions);
  (if bool_decide ("x" ∈ directions) then gkma_x nbins size max_lag scale else mret tt);;
  (if bool_decide ("y" ∈ directions) then gkma_y nbins size max_lag scale else mret tt);;
  (if bool_decide ("z" ∈ directions) then gkma_z nbins size max_lag scale else mret tt);;
  tau ← getitem "tau";
  setitem "tau" (nd_map (fun v => v /! lit 1e6) tau);;
  data ← this_dict;
  mret (if return_data then Some data else None).

(** [cumtrapz(kappa, time, initial=0) / time] on one-dimensional arrays.
    When [cumtrapz] accepts its arguments the two operands of the
    division have the same length, or [time] is empty and so is the
    quotient. *)
Definition running_ave (kappa time : list F) : exc (list F) :=
  c ← cumtrapz kappa (A1 time) zero;
  Ok (zip_with fdiv c time).

(** The dictionary [shc] is the state.  The function has no [return]
    statement, so the value of a call that completes is [None]. *)
Definition hnemd_spectral_kappa (Fe T V : F) : M F (option (gmap string (ndarray F))) :=
  hi ← contains "J_in";
  ho ← contains "J_out";
  if negb hi || negb ho
  then raise (ValueError "shc argument must be from load_shc and contain in/out heat currents.")
  else
    let convert := lit 1602.17662 in
    jin ← getitem "J_in";
    setitem "k_in" (nd_map (fun v => v /! (Fe *! T *! V)) (nd_map (fun v => v *! convert) jin));;
    jout ← getitem "J_out";
    setitem "k_out" (nd_map (fun v => v /! (Fe *! T *! V)) (nd_map (fun v => v *! convert) jout));;
    mret None.

End Calc.

(** ** thermo/gpumd/preproc.py *)

Section Preproc.
Context {F : Type} `{PyFloat F}.

(** An [ase.Atom], reduced to the two attributes the code touches. *)
Record atom : Type := Atom { position : F * F * F; tag : Z }.

(** [l[i]] for a Python list of length [n]: a negative index counts from
    the end. *)
Definition py_index (n : nat) (i : Z) : exc nat :=
  if ((0 <=? i) && (i <? Z.of_nat n))%Z then Ok (Z.to_nat i)
  else if ((- Z.of_nat n <=? i) && (i <? 0))%Z then Ok (Z.to_nat (Z.of_nat n + i))
  else Raise IndexError.

(** The first lines of [__get_group]: [d = pos[0]] for direction 'x',
    [pos[1]] for 'y', [pos[2]] otherwise. *)
Definition coordinate (pos : F * F * F) (direction : string) : F :=
  if String.eqb direction "x" then pos.1.1
  else if String.eqb direction "y" then pos.1.2
  else pos.2.

(** The loop [for i, val in enumerate(split[:-1])] of [__get_group].
    [None] stands for a loop that ran to its end; [Some (p, g)] for a
    [return g] inside it, with [p] telling whether the message was
    printed first. *)
Fixpoint group_scan (split : list F) (d : F) (items : list (nat * F))
    : exc (option (bool * Z)) :=
  match items with
  | [] => Ok None
  | (i, val) :: rest =>
      if (i =? 0)%nat && (d <! val) then Ok (Some (true, (-1)%Z))
      else if d >=! val then
        match split !! S i with
        | None => Raise IndexError
        | Some nxt =>
            if d <! nxt then Ok (Some (false, Z.of_nat i))
            else group_scan split d rest
        end
      else group_scan split d rest
  end.

(** The result is the returned group together with the values [d] whose
    message ['Out of bounds error: {}'.format(d)] was printed. *)
Definition __get_group (split : list F) (pos : F * F * F) (direction : string)
    : exc (Z * list F) :=
  let d := coordinate pos direction in
  r ← group_scan split d (imap (fun i val => (i, val)) (take (pred (length split)) split));
  match r with
  | Some (true, g) => Ok (g, [d])
  | Some (false, g) => Ok (g, [])
  | None => Ok ((-1)%Z, [d])
  end.

(** The state of [assign_groups] while it runs: the atoms (whose tags are
    updated in place), the list [counts] and what has been printed. *)
Record groups_state : Type := GroupsState {
  gs_atoms : list atom;
  gs_counts : list Z;
  gs_stdout : list F
}.

(** The body of [for atom in atoms], for the atom at index [k]. *)
Definition assign_one (split : list F) (direction : string)
    (st : groups_state) (k : nat) : exc unit * groups_state :=
  match gs_atoms st !! k with
  | None => (Raise IndexError, st)
  | Some a =>
      match __get_group split (position a) direction with
      | Raise e => (Raise e, st)
      | Ok (i, out) =>
          let st1 := GroupsState (<[k := Atom (position a) i]> (gs_atoms st))
                                 (gs_counts st) (gs_stdout st ++ out) in
          match py_index (length (gs_counts st)) i with
          | Raise e => (Raise e, st1)
          | Ok j =>
              (Ok tt, GroupsState (gs_atoms st1)
                                  (alter (fun c => (c + 1)%Z) j (gs_counts st))
                                  (gs_stdout st1))
          end
      end
  end.

Fixpoint assign_loop (split : list F) (direction : string)
    (st : groups_state) (ks : list nat) : exc unit * groups_state :=
  match ks with
  | [] => (Ok tt, st)
  | k :: rest =>
      match assign_one split direction st k with
      | (Ok _, st') => assign_loop split direction st' rest
      | (Raise e, st') => (Raise e, st')
      end
  end.

(** Returns [counts], or the exception raised, together with the atoms
    and the printed output as the call left them. *)
Definition assign_groups (split : list F) (atoms : list atom) (direction : string)
    : exc (list Z) * groups_state :=
  let counts := replicate (Z.to_nat (Z.of_nat (length split) - 1)) 0%Z in
  match assign_loop split direction (GroupsState atoms counts [])
                    (seq 0 (length atoms)) with
  | (Ok _, st) => (Ok (gs_counts st), st)
  | (Raise e, st) => (Raise e, st)
  end.

(** The group [__get_group] returns for an atom. *)
Definition group_of (split : list F) (direction : string) (a : atom) : Z :=
  match __get_group split (position a) direction with
  | Ok (g, _) => g
  | Raise _ => (-1)%Z
  end.

(** The slot of [counts] that [counts[g] += 1] touches when [counts] has
    [n] entries. *)
Definition slot (n : nat) (g : Z) : nat :=
  match py_index n g with
  | Ok j => j
  | Raise _ => n
  end.

(** A coordinate outside the box: below the first boundary, or not below
    the last one. *)
Definition out_of_bounds (split : list F) (d : F) : bool :=
  match split !! 0%nat with Some s0 => d <! s0 | None => false end
  || match last split with Some sl => negb (d <! sl) | None => false end.

(** Boundaries in non-decreasing order. *)
Definition nondecreasing (split : list F) : bool :=
  forallb (fun p => p.2 >=! p.1) (zip split (drop 1 split)).

(** The atoms with the tags [assign_groups] gives them. *)
Definition tagged (split : list F) (direction : string) (l : list atom) : list atom :=
  map (fun a => Atom (position a) (group_of split direction a)) l.

(** The number of atoms of [l] counted in slot [j]. *)
Definition landed (split : list F) (direction : string) (j : nat) (l : list atom) : Z :=
  Z.of_nat (length (filter
    (fun a => slot (pred (length split)) (group_of split direction a) = j) l)).

End Preproc.
Arguments atom F : clear implicits.
Arguments groups_state F : clear implicits.

(** ** Exact arithmetic *)

(** A rational number, or the undefined result of a division by zero.
    [Undef] is absorbing and compares false with everything, as NaN does.
    Results are kept in lowest terms, so that equal numbers are equal
    terms.  This is not the arithmetic the program runs on: nothing is
    rounded, nothing overflows to an infinity or underflows to zero, and
    [int_fits] never refuses an integer, so that the OverflowError of a
    conversion cannot occur here. *)
Inductive exact : Type :=
  | Fin (q : Q)
  | Undef.

Definition exact_op (f : Q -> Q -> Q) (a b : exact) : exact :=
  match a, b with
  | Fin x, Fin y => Fin (Qred (f x y))
  | _, _ => Undef
  end.

Definition exact_div (a b : exact) : exact :=
  match a, b with
  | Fin x, Fin y => if Qeq_bool y 0 then Undef else Fin (Qred (x / y))
  | _, _ => Undef
  end.

Definition exact_cmp (f : Q -> Q -> bool) (a b : exact) : bool :=
  match a, b with
  | Fin x, Fin y => f x y
  | _, _ => false
  end.

Definition exact_floor (a : exact) : exc Z :=
  match a with
  | Fin x => Ok (Qfloor x)
  | Undef => Raise (ValueError "cannot convert float NaN to integer")
  end.

#[global] Instance exact_float : PyFloat exact := {|
  lit q := Fin (Qred q);
  int_fits _ := true;
  of_Z z := Fin (inject_Z z);
  fadd := exact_op Qplus;
  fsub := exact_op Qminus;
  fmul := exact_op Qmult;
  fdiv := exact_div;
  feqb := exact_cmp Qeq_bool;
  fltb := exact_cmp (fun x y => negb (Qle_bool y x));
  fleb := exact_cmp Qle_bool;
  ffloor := exact_floor
|}.

(** A rational number as a value of [exact]. *)
Abbreviation ex := (@lit exact exact_float).

(** ** IEEE-754 binary64 *)

Definition Z2SF (z : Z) : spec_float :=
  match z with
  | Z0 => S754_zero false
  | Zpos p => S754_finite false p 0
  | Zneg p => S754_finite true p 0
  end.

(** The double nearest to the decimal literal [q]: one correctly rounded
    division of its numerator by its denominator. *)
Definition lit64 (q : Q) : float :=
  SF2Prim (SFdiv prec emax (Z2SF (Qnum q)) (Z2SF (Zpos (Qden q)))).

(** The double nearest to an integer. *)
Definition Z2float (z : Z) : float :=
  SF2Prim (binary_normalize prec emax z 0 false).

Definition int_fits64 (z : Z) : bool :=
  match binary_normalize prec emax z 0 false with
  | S754_infinity _ => false
  | _ => true
  end.

Definition floor64 (x : float) : exc Z :=
  match Prim2SF x with
  | S754_zero _ => Ok 0%Z
  | S754_infinity _ => Raise OverflowError
  | S754_nan => Raise (ValueError "cannot convert float NaN to integer")
  | S754_finite s m e =>
      let v := if s then Zneg m else Zpos m in
      Ok (if (0 <=? e)%Z then v * 2 ^ e else v / 2 ^ (- e))%Z
  end.

#[global] Instance binary64 : PyFloat float := {|
  lit := lit64;
  int_fits := int_fits64;
  of_Z := Z2float;
  fadd := PrimFloat.add;
  fsub := PrimFloat.sub;
  fmul := PrimFloat.mul;
  fdiv := PrimFloat.div;
  feqb := PrimFloat.eqb;
  fltb := PrimFloat.ltb;
  fleb := PrimFloat.leb;
  ffloor := floor64
|}.

(** ** The two imported functions, as the specification describes them *)

Section Imported.
Context {F : Type} `{PyFloat F}.

(** Modelled from the spec: [thermo.math.correlate.corr] is not among the
    sources.  Specification 4.1: for two sequences of equal length N and
    [0 <= max_lag < N] the result has [max_lag + 1] elements,
    [C(k) = (1/(N-k)) * sum_{t=0}^{N-k-1} a[t] * b[t+k]] (real samples, so
    the conjugate is left out); sequences of different length and an
    out-of-range lag are an InvalidInput error. *)
Definition corr_spec (a b : ndarray F) (max_lag : Z) : exc (ndarray F) :=
  match a, b with
  | A1 a, A1 b =>
      let N := length a in
      if negb (N =? length b)%nat then Raise (ValueError "InvalidInput")
      else if ((max_lag <? 0) || (Z.of_nat N <=? max_lag))%Z
      then Raise (ValueError "InvalidInput")
      else
        Ok (A1 (map (fun k =>
                  (lit 1 /! of_Z (Z.of_nat (N - k))) *!
                  foldl fadd zero
                    (map (fun t => default zero (a !! t) *! default zero (b !! (t + k)%nat))
                         (seq 0 (N - k))))
                (seq 0 (Z.to_nat (max_lag + 1)))))
  | _, _ => Raise (ValueError "InvalidInput")
  end.

(** Modelled from the spec: [thermo.gpumd.data.__get_direction] is not
    among the sources.  Specification 4.4: the selector is any non-empty
    subset of "xyz" in any order; the result lists the directions asked
    for.  Any other selector is rejected. *)
Definition get_direction_spec (directions : string) : exc (list string) :=
  let cs := map (fun c => String c EmptyString) (String.list_ascii_of_string directions) in
  if bool_decide (cs ≠ [] ∧ NoDup cs ∧ Forall (fun c => c ∈ ["x"; "y"; "z"]) cs)
  then Ok cs
  else Raise (ValueError "Invalid directions requested.").

End Imported.

(** ** The closed form of the unit scaler, as the specification words it *)

(** (1.602176634e-19 x 9.651599e7) x (1/1e15) x (1e30 / 8.617333262145e-5),
    divided by T^2 . vol, as a rational number. *)
Definition scale_closed_form (vol T : Q) : Q :=
  (1.602176634e-19 * 9.651599e7) * (1 / 1e15) * (1e30 / 8.617333262145e-5)
  / (T ^ 2 * vol).

(** ** Predicates on dictionaries used in the statements *)

Section Invariants.
Context {F : Type} `{PyFloat F}.

(** A computation that leaves every key outside [keys] as it found it,
    whether it completes or raises. *)
Definition writes_only {A} (keys : list string) (c : M F A) : Prop :=
  forall d k, k ∉ keys -> (c d).2 !! k = d !! k.

(** Every row [m < nb] of the array under [key] starts with [0 * scale]. *)
Definition seeded (key : string) (nb : nat) (scale : F)
    (d : gmap string (ndarray F)) : Prop :=
  forall m, m < nb ->
    exists n rows row,
      d !! key = Some (A2 n rows) /\ rows !! m = Some row /\
      row !! 0%nat = Some (zero *! scale).

(** The state of one channel while the loop over the bins runs: both arrays
    have [n] columns, and the rows below [j] of the conductivity array have
    been written. *)
Definition channel (n nb : nat) (ckey kkey : string) (scale : F) (j : nat)
    (d : gmap string (ndarray F)) : Prop :=
  exists crows krows,
    d !! ckey = Some (A2 n crows) /\ d !! kkey = Some (A2 n krows) /\
    length krows = nb /\
    forall m, m < j -> exists row, krows !! m = Some row /\ row !! 0%nat = Some (zero *! scale).

End Invariants.

(** The accumulated-conductivity arrays that a call with the directions
    [ds] writes. *)
Definition conductivity_keys (ds : list string) : list string :=
  (if bool_decide ("x" ∈ ds) then ["kmxi"; "kmxo"] else []) ++
  (if bool_decide ("y" ∈ ds) then ["kmyi"; "kmyo"] else []) ++
  (if bool_decide ("z" ∈ ds) then ["kmz"] else []).

(** ** Concrete inputs used below *)

(** The HNEMD scenario of the specification: J_in = 10, J_out = -10. *)
Definition shc_scenario {F} `{PyFloat F} : gmap string (ndarray F) :=
  <["J_out" := A1 [lit (-10)]]> (<["J_in" := A1 [lit 10]]> ∅).

(** Three boundaries in order, and three atoms: one below the box, one in
    the first interval, one above the box. *)
Definition sample_split : list exact := [ex 0; ex 5; ex 10].

Definition sample_atoms : list (atom exact) :=
  [Atom (ex (-1), ex 0, ex 0) 0; Atom (ex 3, ex 0, ex 0) 0; Atom (ex 12, ex 0, ex 0) 0].

(** The end-to-end scenario of the specification: two mode bins, five
    samples, only the z channel. *)
Definition data_z : gmap string (ndarray exact) :=
  <["jmz" := A2 5 [[ex 1; ex 0; ex (-1); ex 0; ex 1];
                   [ex 0; ex 1; ex 0; ex (-1); ex 0]]]> ∅.

(** A dataset with the two x channels and no z channel. *)
Definition data_x : gmap string (ndarray exact) :=
  <["jmxo" := A2 5 [[ex 0; ex 1; ex 0; ex (-1); ex 0]]]>
    (<["jmxi" := A2 5 [[ex 1; ex 0; ex (-1); ex 0; ex 1]]]> ∅).

(** The end-to-end scenario, run with the correlator and the direction
    parser of the specification: nbins = 2, nsamples = 5, dt = 1 fs,
    sample_interval = 1, T = 300, vol = 1, max_tau = None, directions = "z". *)
Definition run_z :=
  get_gkma_kappa corr_spec get_direction_spec 2 5 (ex 1) 1 (ex 300) (ex 1)
    None "z" true data_z.

(** A dataset of doubles with two mode bins of four samples in the z
    channel, and one with no mode bins at all. *)
Definition data_z64 : gmap string (ndarray float) :=
  <["jmz" := A2 4 [[1; 0; -1; 0]; [0; 1; 0; -1]]%float]> ∅.

Definition data_empty64 : gmap string (ndarray float) :=
  <["jmz" := A2 4 []]> ∅.

(** ** What the loop over the mode bins leaves in one channel *)

Section ChannelResults.
Context {F : Type} `{PyFloat F}.
Variable corr : ndarray F -> ndarray F -> Z -> exc (ndarray F).

(** Row [m] of a correlation array and of the conductivity array that goes
    with it: the correlation of row [m] of the heat-current channel [jarr]
    with the reference series [jref], brought to [n] columns, and [scale]
    times its cumulative trapezoidal integral over the axis [tau]. *)
Definition channel_row (jarr jref : ndarray F) (max_lag : Z) (scale : F)
    (tau : ndarray F) (n m : nat) (crow krow : list F) : Prop :=
  exists jrow c k,
    nd_row jarr m = Ok jrow /\
    corr (A1 jrow) jref max_lag = Ok c /\
    to_row n c = Ok crow /\
    cumtrapz crow tau zero = Ok k /\
    krow = map (fun v => v *! scale) k.

(** The arrays under [ckey] and [kkey] have [nb] rows of [n] columns, and
    the rows below [j] are as [channel_row] says. *)
Definition channel_done (jarr jref : ndarray F) (max_lag : Z) (scale : F)
    (tau : ndarray F) (n nb : nat) (ckey kkey : string) (j : nat)
    (d : gmap string (ndarray F)) : Prop :=
  exists crows krows,
    d !! ckey = Some (A2 n crows) /\ d !! kkey = Some (A2 n krows) /\
    length crows = nb /\ length krows = nb /\
    Forall (fun r => length r = n) crows /\ Forall (fun r => length r = n) krows /\
    forall m, m < j ->
      exists crow krow,
        crows !! m = Some crow /\ krows !! m = Some krow /\
        channel_row jarr jref max_lag scale tau n m crow krow.

End ChannelResults.

(** The correlation and conductivity arrays that a call with the directions
    [ds] writes. *)
Definition result_keys (ds : list string) : list string :=
  (if bool_decide ("x" ∈ ds) then ["corr_xmi_x"; "corr_xmo_x"; "kmxi"; "kmxo"] else []) ++
  (if bool_decide ("y" ∈ ds) then ["corr_ymi_y"; "corr_ymo_y"; "kmyi"; "kmyo"] else []) ++
  (if bool_decide ("z" ∈ ds) then ["corr_zm_z"; "kmz"] else []).

(** The heat-current channels that a call with the directions [ds] reads. *)
Definition channel_keys (ds : list string) : list string :=
  (if bool_decide ("x" ∈ ds) then ["jmxi"; "jmxo"] else []) ++
  (if bool_decide ("y" ∈ ds) then ["jmyi"; "jmyo"] else []) ++
  (if bool_decide ("z" ∈ ds) then ["jmz"] else []).

(** The coordinates for which [assign_groups] prints the out-of-bounds
    message: those of the atoms of [l] that get the group -1, in the order
    of [l]. *)
Definition reported {F} `{PyFloat F} (split : list F) (direction : string)
    (l : list (atom F)) : list F :=
  map (fun a => coordinate (position a) direction)
      (filter (fun a => group_of split direction a = (-1)%Z) l).

(** * Properties *)

(** ** Rewriting in exact arithmetic

    Every finite value of [exact] that the program computes is [lit q] for
    a rational [q]; the operations act on such values as the field
    operations act on [q]. *)

Section ExactFacts.

Lemma lit_ext (p q : Q) : p == q -> @lit exact _ p = lit q.
Proof. intros E. cbn. f_equal. by apply Qred_complete. Qed.

Lemma lit_mul (p q : Q) : lit p *! lit q = @lit exact _ (p * q).
Proof. cbn. f_equal. apply Qred_complete. by rewrite !Qred_correct. Qed.

Lemma lit_add (p q : Q) : lit p +! lit q = @lit exact _ (p + q).
Proof. cbn. f_equal. apply Qred_complete. by rewrite !Qred_correct. Qed.

Lemma lit_sub (p q : Q) : lit p -! lit q = @lit exact _ (p - q).
Proof. cbn. f_equal. apply Qred_complete. by rewrite !Qred_correct. Qed.

Lemma Qeq_bool_comp (p p' q q' : Q) :
  p == p' -> q == q' -> Qeq_bool p q = Qeq_bool p' q'.
Proof.
  intros Ep Eq. destruct (Qeq_bool p' q') eqn:E.
  - apply Qeq_bool_iff. apply Qeq_bool_iff in E. by rewrite Ep, Eq.
  - destruct (Qeq_bool p q) eqn:E'; [|done].
    apply Qeq_bool_iff in E'. rewrite Ep, Eq in E'.
    apply Qeq_bool_iff in E'. congruence.
Qed.

Lemma Qle_bool_comp (p p' q q' : Q) :
  p == p' -> q == q' -> Qle_bool p q = Qle_bool p' q'.
Proof.
  intros Ep Eq. destruct (Qle_bool p' q') eqn:E.
  - apply Qle_bool_iff. apply Qle_bool_iff in E. by rewrite Ep, Eq.
  - destruct (Qle_bool p q) eqn:E'; [|done].
    apply Qle_bool_iff in E'. rewrite Ep, Eq in E'.
    apply Qle_bool_iff in E'. congruence.
Qed.

Lemma lit_div (p q : Q) : ~ q == 0 -> lit p /! lit q = @lit exact _ (p / q).
Proof.
  intros Hq. cbn. unfold exact_div.
  rewrite (Qeq_bool_comp _ q _ 0) by (apply Qred_correct || reflexivity).
  destruct (Qeq_bool q 0) eqn:E; [by apply Qeq_bool_iff in E|].
  f_equal. apply Qred_complete. by rewrite !Qred_correct.
Qed.

Lemma lit_div_zero (p q : Q) : q == 0 -> @lit exact _ p /! lit q = Undef.
Proof.
  intros Hq. cbn. unfold exact_div.
  rewrite (Qeq_bool_comp _ q _ 0) by (apply Qred_correct || reflexivity).
  destruct (Qeq_bool q 0) eqn:E; [done|].
  apply Qeq_bool_iff in Hq. congruence.
Qed.

Lemma of_Z_lit (z : Z) : of_Z z = @lit exact _ (inject_Z z).
Proof.
  cbn. f_equal. unfold Qred, inject_Z.
  pose proof (Z.ggcd_gcd z 1) as Hg.
  pose proof (Z.ggcd_correct_divisors z 1) as Hd.
  destruct (Z.ggcd z 1) as [g [a b]]. cbn in *.
  rewrite Z.gcd_1_r in Hg. subst g.
  destruct Hd as [-> Hb]. rewrite Z.mul_1_l in Hb. subst b.
  by rewrite Z.mul_1_l.
Qed.

Lemma of_int_lit (z : Z) : of_int z = Ok (@lit exact _ (inject_Z z)).
Proof. unfold of_int. cbn [int_fits exact_float]. by rewrite of_Z_lit. Qed.

Lemma lit_eqb (p q : Q) : (@lit exact _ p ==! lit q) = Qeq_bool p q.
Proof. cbn. apply Qeq_bool_comp; apply Qred_correct. Qed.

Lemma lit_leb (p q : Q) : (@lit exact _ q >=! lit p) = Qle_bool p q.
Proof. cbn. apply Qle_bool_comp; apply Qred_correct. Qed.

Lemma lit_ltb (p q : Q) : (@lit exact _ p <! lit q) = negb (Qle_bool q p).
Proof. cbn. f_equal. apply Qle_bool_comp; apply Qred_correct. Qed.

Lemma lit_floor (p : Q) : ffloor (@lit exact _ p) = Ok (Qfloor p).
Proof. cbn. f_equal. apply Qfloor_comp. apply Qred_correct. Qed.

Lemma py_div_lit (p q : Q) :
  py_div (@lit exact _ p) (lit q) =
  if Qeq_bool q 0 then Raise ZeroDivisionError else Ok (lit (p / q)).
Proof.
  unfold py_div, zero. rewrite lit_eqb.
  destruct (Qeq_bool q 0) eqn:E; [done|].
  rewrite lit_div; [done|]. intros E'. apply Qeq_bool_iff in E'. congruence.
Qed.

End ExactFacts.

(** ** Signs, zeros and non-finite values on binary64 *)

Section Binary64Facts.

Lemma SFeqb_refl_finite s m e : SFeqb (S754_finite s m e) (S754_finite s m e) = true.
Proof.
  unfold SFeqb, SFcompare. rewrite Z.compare_refl, Pos.compare_refl.
  by destruct s.
Qed.

(** The doubles that [PrimFloat.is_finite] accepts are the zeros and the
    finite non-zero numbers; those it refuses are NaN and the infinities. *)
Lemma is_finite_cases (s : float) :
  if PrimFloat.is_finite s
  then (exists b, Prim2SF s = S754_zero b) \/ (exists b m e, Prim2SF s = S754_finite b m e)
  else Prim2SF s = S754_nan \/ (exists b, Prim2SF s = S754_infinity b).
Proof.
  unfold PrimFloat.is_finite, is_nan, is_infinity.
  rewrite !FloatAxioms.eqb_spec, abs_spec.
  change (Prim2SF infinity) with (S754_infinity false).
  destruct (Prim2SF s) as [b|b| |b m e]; cbn [SFabs].
  - left. by exists b.
  - destruct b; cbn; right; eauto.
  - cbn. by left.
  - rewrite SFeqb_refl_finite. cbn. right. by exists b, m, e.
Qed.

(** [0 * s] on binary64: a zero when [s] is finite, NaN otherwise. *)
Lemma zero_mul_binary64 (s : float) :
  (PrimFloat.is_finite s = true -> (zero *! s ==! zero) = true) /\
  (PrimFloat.is_finite s = false -> zero *! s = nan).
Proof.
  pose proof (is_finite_cases s) as Hc.
  change (@zero float binary64) with 0%float.
  change (@fmul float binary64) with PrimFloat.mul.
  change (@feqb float binary64) with PrimFloat.eqb.
  split; intros Hf; rewrite Hf in Hc.
  - rewrite FloatAxioms.eqb_spec, mul_spec. change (Prim2SF 0) with (S754_zero false).
    destruct Hc as [[b ->]|(b & m & e & ->)]; by destruct b.
  - apply Prim2SF_inj. rewrite mul_spec. change (Prim2SF 0) with (S754_zero false).
    destruct Hc as [->|[b ->]]; reflexivity.
Qed.

Lemma binary_round_aux_opp s m e l :
  SFopp (binary_round_aux prec emax s m e l) = binary_round_aux prec emax (negb s) m e l.
Proof.
  unfold binary_round_aux.
  destruct (shr_fexp prec emax m e l) as [mrs' e'].
  destruct (shr_fexp prec emax _ e' loc_Exact) as [mrs'' e''].
  destruct (shr_m mrs''); [done| |done].
  by destruct (e'' <=? emax - prec)%Z.
Qed.

Lemma SFmul_opp_r x y : SFmul prec emax x (SFopp y) = SFopp (SFmul prec emax x y).
Proof.
  destruct x as [sx|sx| |sx mx ex], y as [sy|sy| |sy my ey]; cbn [SFmul SFopp];
    rewrite ?binary_round_aux_opp; try done; by destruct sx, sy.
Qed.

Lemma SFmul_opp_l x y : SFmul prec emax (SFopp x) y = SFopp (SFmul prec emax x y).
Proof.
  destruct x as [sx|sx| |sx mx ex], y as [sy|sy| |sy my ey]; cbn [SFmul SFopp];
    rewrite ?binary_round_aux_opp; try done; by destruct sx, sy.
Qed.

Lemma SFdiv_opp_r x y : SFdiv prec emax x (SFopp y) = SFopp (SFdiv prec emax x y).
Proof.
  destruct x as [sx|sx| |sx mx ex], y as [sy|sy| |sy my ey]; cbn [SFdiv SFopp];
    try done; try (by destruct sx, sy).
  destruct (SFdiv_core_binary prec emax (Z.pos mx) ex (Z.pos my) ey) as [[mz ez] lz].
  rewrite binary_round_aux_opp. by destruct sx, sy.
Qed.

Lemma SFopp_involutive x : SFopp (SFopp x) = x.
Proof. destruct x as [s|s| |s m e]; cbn; by rewrite ?negb_involutive. Qed.

Lemma mul_opp_r_binary64 (x y : float) : (x * - y = - (x * y))%float.
Proof. apply Prim2SF_inj. rewrite opp_spec, !mul_spec, opp_spec. apply SFmul_opp_r. Qed.

Lemma mul_opp_opp_binary64 (x : float) : (- x * - x = x * x)%float.
Proof.
  apply Prim2SF_inj. rewrite !mul_spec, !opp_spec.
  unfold SF64mul. by rewrite SFmul_opp_l, SFmul_opp_r, SFopp_involutive.
Qed.

Lemma div_opp_r_binary64 (x y : float) : (x / - y = - (x / y))%float.
Proof. apply Prim2SF_inj. rewrite opp_spec, !div_spec, opp_spec. apply SFdiv_opp_r. Qed.

Lemma eqb_opp_zero_binary64 (x : float) : (- x =? 0)%float = (x =? 0)%float.
Proof.
  rewrite !FloatAxioms.eqb_spec, opp_spec. change (Prim2SF 0) with (S754_zero false).
  destruct (Prim2SF x) as [s|s| |s m e]; cbn; try done; by destruct s.
Qed.

End Binary64Facts.

Create Rewrite HintDb exact_arith.
#[global] Hint Rewrite lit_mul lit_add lit_sub of_Z_lit of_int_lit lit_eqb
  lit_leb lit_ltb lit_floor py_div_lit : exact_arith.

(** ** The unit scaler *)

Section UnitScaler.
Local Open Scope Q_scope.

Lemma Qeq_bool_false (q : Q) : Qeq_bool q 0 = false -> ~ q == 0.
Proof. intros E E'. apply Qeq_bool_iff in E'. congruence. Qed.

Lemma scale_exact (vol T : Q) :
  __scale_gpumd_tc (ex vol) (ex T) =
  if Qeq_bool (T * T * vol) 0 then Raise ZeroDivisionError
  else Ok (ex (scale_closed_form vol T)).
Proof.
  unfold __scale_gpumd_tc.
  rewrite !lit_div by (by apply Qeq_bool_false).
  autorewrite with exact_arith.
  by destruct (Qeq_bool (T * T * vol) 0).
Qed.

Lemma zero_binary64 : @zero float binary64 = 0%float.
Proof. reflexivity. Qed.

Lemma scale_constant_binary64 :
  @lit float binary64 1.602176634e-19 *! lit 9.651599e7
    *! (lit 1 /! lit 1e15) *! (lit 1e30 /! lit 8.617333262145e-5)
  = 179447236.49562818%float.
Proof. vm_compute. reflexivity. Qed.

(** C3.  [__scale_gpumd_tc(vol, T)] is the product of the fixed literals
    (1.602176634e-19 x 9.651599e7) x (1/1e15) x (1e30/8.617333262145e-5)
    divided by T^2 . vol.  In exact arithmetic the value is the rational
    number [scale_closed_form vol T]; in binary64 the three literal
    factors fold to the one double 179447236.49562818, which does not
    depend on the arguments.  When [T * T * vol] is zero the division
    raises ZeroDivisionError. *)
Theorem scale_gpumd_tc_closed_form :
  (forall vol T : Q,
     __scale_gpumd_tc (ex vol) (ex T) =
     if Qeq_bool (T ^ 2 * vol) 0 then Raise ZeroDivisionError
     else Ok (ex (scale_closed_form vol T))) /\
  (forall vol T : float,
     __scale_gpumd_tc vol T =
     if (T * T * vol =? 0)%float then Raise ZeroDivisionError
     else Ok (179447236.49562818 / (T * T * vol))%float).
Proof.
  split.
  - intros vol T. apply scale_exact.
  - intros vol T. unfold __scale_gpumd_tc, py_div.
    rewrite scale_constant_binary64, zero_binary64. reflexivity.
Qed.

Lemma scale_pos_const :
  0 < (1.602176634e-19 * 9.651599e7) * (1 / 1e15) * (1e30 / 8.617333262145e-5).
Proof. reflexivity. Qed.

Lemma Qdiv_lt_anti (a b1 b2 : Q) :
  0 < a -> 0 < b1 -> b1 < b2 -> a / b2 < a / b1.
Proof.
  intros Ha Hb Hlt. unfold Qdiv. apply Qmult_lt_l; [done|].
  exact (proj1 (Qinv_lt_contravar b1 b2 Hb (Qlt_trans _ _ _ Hb Hlt)) Hlt).
Qed.

Lemma sq_vol_pos (T V : Q) : 0 < T -> 0 < V -> 0 < T ^ 2 * V.
Proof.
  intros HT HV. change (T ^ 2) with (T * T).
  by repeat apply Qmult_lt_0_compat.
Qed.

Lemma sq_vol_lt_T (T1 T2 V : Q) :
  0 < T1 -> T1 < T2 -> 0 < V -> T1 ^ 2 * V < T2 ^ 2 * V.
Proof.
  intros H1 H12 HV.
  change (T1 ^ 2) with (T1 * T1). change (T2 ^ 2) with (T2 * T2).
  apply Qmult_lt_compat_r; [done|].
  apply Qmult_lt_compat_nonneg; split; try done; by apply Qlt_le_weak.
Qed.

Lemma sq_vol_lt_V (T V1 V2 : Q) :
  0 < T -> V1 < V2 -> T ^ 2 * V1 < T ^ 2 * V2.
Proof.
  intros HT H12. apply Qmult_lt_l; [|done].
  change (T ^ 2) with (T * T). by apply Qmult_lt_0_compat.
Qed.

Lemma sq_vol_nonzero (T V : Q) :
  0 < T -> 0 < V -> Qeq_bool (T * T * V) 0 = false.
Proof.
  intros HT HV. destruct (Qeq_bool (T * T * V) 0) eqn:E; [|done].
  apply Qeq_bool_iff in E. pose proof (sq_vol_pos T V HT HV) as Hp.
  change (T ^ 2) with (T * T) in Hp. rewrite E in Hp.
  by apply Qlt_irrefl in Hp.
Qed.

Lemma lit_ltb_true (s1 s2 : Q) : s2 < s1 -> (ex s2 <! ex s1) = true.
Proof.
  intros Hs. rewrite lit_ltb. apply negb_true_iff.
  destruct (Qle_bool s1 s2) eqn:E; [|done].
  apply Qle_bool_iff in E. exfalso. by apply (Qlt_not_le s2 s1).
Qed.

Lemma scale_positive (T V : Q) :
  0 < T -> 0 < V ->
  __scale_gpumd_tc (ex V) (ex T) = Ok (ex (scale_closed_form V T)).
Proof. intros HT HV. by rewrite scale_exact, sq_vol_nonzero. Qed.

(** In exact arithmetic the factor is strictly decreasing in T and in the
    volume, for positive arguments. *)
Lemma scale_strictly_decreasing_exact (T1 T2 V1 V2 : Q) :
  0 < T1 -> T1 < T2 -> 0 < V1 -> V1 < V2 ->
  (exists s1 s2 : Q,
     __scale_gpumd_tc (ex V1) (ex T1) = Ok (ex s1) /\
     __scale_gpumd_tc (ex V1) (ex T2) = Ok (ex s2) /\
     s2 < s1 /\ (ex s2 <! ex s1) = true) /\
  (exists s1 s2 : Q,
     __scale_gpumd_tc (ex V1) (ex T1) = Ok (ex s1) /\
     __scale_gpumd_tc (ex V2) (ex T1) = Ok (ex s2) /\
     s2 < s1 /\ (ex s2 <! ex s1) = true).
Proof.
  intros HT1 HT HV1 HV.
  assert (0 < T2) as HT2 by (by apply Qlt_trans with T1).
  assert (0 < V2) as HV2 by (by apply Qlt_trans with V1).
  split.
  - exists (scale_closed_form V1 T1), (scale_closed_form V1 T2).
    rewrite !scale_positive by done.
    assert (scale_closed_form V1 T2 < scale_closed_form V1 T1) as Hs.
    { unfold scale_closed_form. apply Qdiv_lt_anti;
        [apply scale_pos_const|by apply sq_vol_pos|by apply sq_vol_lt_T]. }
    auto using lit_ltb_true.
  - exists (scale_closed_form V1 T1), (scale_closed_form V2 T1).
    rewrite !scale_positive by done.
    assert (scale_closed_form V2 T1 < scale_closed_form V1 T1) as Hs.
    { unfold scale_closed_form. apply Qdiv_lt_anti;
        [apply scale_pos_const|by apply sq_vol_pos|by apply sq_vol_lt_V]. }
    auto using lit_ltb_true.
Qed.

Lemma scale_run_binary64 (vol T : float) :
  __scale_gpumd_tc vol T =
  if (T * T * vol =? 0)%float then Raise ZeroDivisionError
  else Ok (179447236.49562818 / (T * T * vol))%float.
Proof.
  unfold __scale_gpumd_tc, py_div.
  rewrite scale_constant_binary64, zero_binary64. reflexivity.
Qed.




End UnitScaler.

(** ** The spectral (HNEMD) converter *)

Section Hnemd.
Context {F : Type} `{PyFloat F}.

Lemma nd_map_compose (f g : F -> F) (a : ndarray F) :
  nd_map f (nd_map g a) = nd_map (fun v => f (g v)) a.
Proof.
  destruct a as [x|v|nc rows]; cbn; f_equal.
  - by rewrite map_map.
  - rewrite map_map. apply map_ext. intros r. by rewrite map_map.
Qed.

(** The whole behaviour of a call, by the presence of the two inputs. *)
Lemma hnemd_run (Fe T V : F) (shc : gmap string (ndarray F)) :
  hnemd_spectral_kappa Fe T V shc =
  match shc !! "J_in", shc !! "J_out" with
  | Some a, Some b =>
      (Ok None,
       <["k_out" := nd_map (fun j => j *! lit 1602.17662 /! (Fe *! T *! V)) b]>
         (<["k_in" := nd_map (fun j => j *! lit 1602.17662 /! (Fe *! T *! V)) a]> shc))
  | _, _ =>
      (Raise (ValueError "shc argument must be from load_shc and contain in/out heat currents."),
       shc)
  end.
Proof.
  unfold hnemd_spectral_kappa, contains, getitem, setitem, raise.
  unfold mbind, M_bind, mret, M_ret. cbv beta iota.
  destruct (shc !! "J_in") as [a|] eqn:Ea, (shc !! "J_out") as [b|] eqn:Eb;
    rewrite ?bool_decide_eq_true_2, ?bool_decide_eq_false_2
      by (rewrite <-?not_eq_None_Some; eauto; intros [? ?]; done);
    cbn [negb orb]; cbv beta iota; try done.
  rewrite Ea. cbv beta iota. rewrite lookup_insert_ne by done.
  rewrite Eb. cbv beta iota. by rewrite !nd_map_compose.
Qed.

End Hnemd.

Section HnemdClaims.

(** C4.  [hnemd_spectral_kappa] raises exactly when 'J_in' or 'J_out' is
    absent from [shc]; otherwise it stores under 'k_in' and 'k_out' the
    arrays J_in and J_out with every element multiplied by 1602.17662 and
    divided by Fe . T . V, and nothing else is computed.  This holds for
    every arithmetic behind the interface.  For J_in = 10, J_out = -10,
    Fe = 0.01, T = 300, V = 1000 the results are
    10 x 1602.17662 / (0.01 x 300 x 1000) and its negation, in exact
    arithmetic and in binary64 alike. *)
Theorem hnemd_spectral_kappa_spec :
  (forall (F : Type) (PF : PyFloat F) (Fe T V : F) (shc : gmap string (ndarray F)),
     ((exists e, (hnemd_spectral_kappa Fe T V shc).1 = Raise e) <->
      (shc !! "J_in" = None \/ shc !! "J_out" = None)) /\
     hnemd_spectral_kappa Fe T V shc =
     match shc !! "J_in", shc !! "J_out" with
     | Some a, Some b =>
         (Ok None,
          <["k_out" := nd_map (fun j => j *! lit 1602.17662 /! (Fe *! T *! V)) b]>
            (<["k_in" := nd_map (fun j => j *! lit 1602.17662 /! (Fe *! T *! V)) a]> shc))
     | _, _ =>
         (Raise (ValueError "shc argument must be from load_shc and contain in/out heat currents."),
          shc)
     end) /\
  (let shc' := (hnemd_spectral_kappa (ex 0.01) (ex 300) (ex 1000) shc_scenario).2 in
   shc' !! "k_in" = Some (A1 [ex (10 * 1602.17662 / (0.01 * 300 * 1000))]) /\
   shc' !! "k_out" = Some (A1 [ex (- (10 * 1602.17662 / (0.01 * 300 * 1000)))])) /\
  (let shc' := (hnemd_spectral_kappa 0.01%float 300%float 1000%float
                  shc_scenario).2 in
   shc' !! "k_in" = Some (A1 [10 * 1602.17662 / (0.01 * 300 * 1000)]%float) /\
   shc' !! "k_out" = Some (A1 [- (10 * 1602.17662 / (0.01 * 300 * 1000))]%float)).
Proof.
  split; [|split].
  - intros F PF Fe T V shc. split; [|apply hnemd_run].
    rewrite hnemd_run.
    destruct (shc !! "J_in") as [a|], (shc !! "J_out") as [b|]; cbn;
      split; try (intros [e ?]; done); try (intros [?|?]; done); eauto.
  - split; vm_compute; reflexivity.
  - split; vm_compute; reflexivity.
Qed.

(** C9.  A call of [hnemd_spectral_kappa] that completes returns [None];
    whether it completes or raises, every entry of [shc] under a key other
    than 'k_in' and 'k_out' is what it was before the call, in particular
    the inputs 'J_in' and 'J_out'; a call that raises changes nothing. *)
Theorem hnemd_spectral_kappa_frame :
  forall (F : Type) (PF : PyFloat F) (Fe T V : F) (shc : gmap string (ndarray F)),
    let r := (hnemd_spectral_kappa Fe T V shc).1 in
    let shc' := (hnemd_spectral_kappa Fe T V shc).2 in
    (forall v, r = Ok v -> v = None) /\
    (forall e, r = Raise e -> shc' = shc) /\
    (forall k, k <> "k_in" -> k <> "k_out" -> shc' !! k = shc !! k) /\
    shc' !! "J_in" = shc !! "J_in" /\
    shc' !! "J_out" = shc !! "J_out".
Proof.
  intros F PF Fe T V shc. cbv zeta. rewrite hnemd_run.
  assert (Hframe : forall (a b : ndarray F) k, k <> "k_in" -> k <> "k_out" ->
            (<["k_out" := b]> (<["k_in" := a]> shc)) !! k = shc !! k).
  { intros a b k H1 H2. by rewrite !lookup_insert_ne. }
  destruct (shc !! "J_in") as [a|] eqn:Ea, (shc !! "J_out") as [b|] eqn:Eb;
    cbn [fst snd]; repeat split; try done; try congruence.
  - apply Hframe.
  - by rewrite Hframe.
  - by rewrite Hframe.
Qed.

End HnemdClaims.

(** ** The cumulative integrator *)

Section Cumtrapz.
Context {F : Type} `{PyFloat F}.

Lemma np_diff_length (xs : list F) : length (np_diff xs) = pred (length xs).
Proof.
  induction xs as [|a [|b t] IH]; [done..|].
  change (np_diff (a :: b :: t)) with ((b -! a) :: np_diff (b :: t)).
  cbn [length pred] in *. by rewrite IH.
Qed.

Lemma np_diff_lookup (xs : list F) (n : nat) (a b : F) :
  xs !! n = Some a -> xs !! S n = Some b -> np_diff xs !! n = Some (b -! a).
Proof.
  revert n. induction xs as [|x [|x' t] IH]; intros n Ha Hb; [done..|].
  change (np_diff (x :: x' :: t)) with ((x' -! x) :: np_diff (x' :: t)).
  destruct n as [|n]; cbn in *.
  - congruence.
  - by apply IH.
Qed.

Lemma cumsum_from_length (acc : F) (l : list F) :
  length (cumsum_from acc l) = length l.
Proof. revert acc. induction l as [|a t IH]; intros acc; cbn; [done|by rewrite IH]. Qed.

Lemma np_cumsum_length (l : list F) : length (np_cumsum l) = length l.
Proof. destruct l; cbn; [done|by rewrite cumsum_from_length]. Qed.

Lemma np_cumsum_head (l : list F) : np_cumsum l !! 0 = l !! 0.
Proof. by destruct l. Qed.

Lemma cumsum_from_step (acc : F) (l : list F) (n : nat) (s a : F) :
  (acc :: cumsum_from acc l) !! n = Some s -> l !! n = Some a ->
  cumsum_from acc l !! n = Some (s +! a).
Proof.
  revert acc n. induction l as [|x t IH]; intros acc n Hs Ha; [done|].
  destruct n as [|n]; cbn in *.
  - congruence.
  - by apply IH.
Qed.

Lemma np_cumsum_step (l : list F) (n : nat) (s a : F) :
  np_cumsum l !! n = Some s -> l !! S n = Some a ->
  np_cumsum l !! S n = Some (s +! a).
Proof.
  destruct l as [|x t]; [done|]. cbn [np_cumsum]. intros Hs Ha.
  by apply cumsum_from_step.
Qed.

(** the area of the trapezoid between the samples [n] and [n + 1] *)
Lemma trapezoid_lookup (xs y : list F) (n : nat) (x0 x1 y0 y1 : F) :
  xs !! n = Some x0 -> xs !! S n = Some x1 ->
  y !! n = Some y0 -> y !! S n = Some y1 ->
  map (fun t => t /! lit 2)
      (zip_with fmul (np_diff xs)
         (zip_with fadd (drop 1 y) (take (pred (length y)) y))) !! n
  = Some ((x1 -! x0) *! (y1 +! y0) /! lit 2).
Proof.
  intros Hx0 Hx1 Hy0 Hy1.
  rewrite list_lookup_fmap, lookup_zip_with, (np_diff_lookup _ _ _ _ Hx0 Hx1).
  cbn. rewrite lookup_zip_with, lookup_drop. cbn. rewrite Hy1. cbn.
  rewrite lookup_take_lt; [by rewrite Hy0|].
  apply lookup_lt_Some in Hy1. lia.
Qed.

Lemma cumtrapz_run (y xs : list F) (initial : F) :
  length xs = length y -> xs <> [] ->
  cumtrapz y (A1 xs) initial =
  Ok (initial ::
      np_cumsum (map (fun t => t /! lit 2)
                   (zip_with fmul (np_diff xs)
                      (zip_with fadd (drop 1 y) (take (pred (length y)) y))))).
Proof.
  intros Hlen Hne. unfold cumtrapz. rewrite np_diff_length.
  destruct xs as [|x t]; [done|]. cbn [length pred] in *.
  rewrite decide_True by lia. done.
Qed.

Lemma cumtrapz_length (y : list F) (x : ndarray F) (initial : F) (Fs : list F) :
  cumtrapz y x initial = Ok Fs -> length Fs = length y /\ Fs !! 0 = Some initial.
Proof.
  unfold cumtrapz. destruct x as [|xs|]; [done| |done].
  case_decide as Hd; [|done]. intros [= <-]. split; [|done].
  cbn [length]. rewrite np_cumsum_length, length_fmap, length_zip_with.
  rewrite length_zip_with, length_drop, length_take. lia.
Qed.

End Cumtrapz.

(** ** The running average *)

Section RunningAve.

Lemma zero_div_zero_binary64 (t : float) :
  (t =? 0)%float = true -> (0 / t)%float = nan.
Proof.
  intros Ht. rewrite FloatAxioms.eqb_spec in Ht.
  rewrite <-(SF2Prim_Prim2SF (0 / t)), FloatAxioms.div_spec.
  change (Prim2SF 0) with (S754_zero false) in *.
  destruct (Prim2SF t) as [s|s| |s m e]; cbn in Ht; try discriminate.
  - reflexivity.
  - destruct s; discriminate.
  - destruct s; discriminate.
Qed.

(** C7.  For one-dimensional [kappa] and [time] of the same length, not
    empty, [running_ave(kappa, time)] returns the zero-seeded cumulative
    trapezoidal integral F of [kappa] over [time] divided elementwise by
    [time]: F(0) = 0, F(1) is the first trapezoid, every later F(n+1) is
    F(n) plus the trapezoid between samples n and n+1, and
    output[n] = F(n) / time[n] for every n.  Nothing guards the division:
    when [time[0] == 0] (either zero of binary64) the first output is 0/0,
    the non-finite value NaN. *)
Theorem running_ave_division_at_origin (kappa time : list float) :
  length kappa = length time ->
  time <> [] ->
  exists Fs out : list float,
    cumtrapz kappa (A1 time) zero = Ok Fs /\
    running_ave kappa time = Ok out /\
    length Fs = length time /\ length out = length time /\
    Fs !! 0%nat = Some 0%float /\
    (forall x0 x1 y0 y1,
       time !! 0%nat = Some x0 -> time !! 1%nat = Some x1 ->
       kappa !! 0%nat = Some y0 -> kappa !! 1%nat = Some y1 ->
       Fs !! 1%nat = Some ((x1 - x0) * (y1 + y0) / 2)%float) /\
    (forall n f x0 x1 y0 y1,
       Fs !! S n = Some f ->
       time !! S n = Some x0 -> time !! S (S n) = Some x1 ->
       kappa !! S n = Some y0 -> kappa !! S (S n) = Some y1 ->
       Fs !! S (S n) = Some (f + (x1 - x0) * (y1 + y0) / 2)%float) /\
    (forall n f t,
       Fs !! n = Some f -> time !! n = Some t -> out !! n = Some (f / t)%float) /\
    (forall t0,
       time !! 0%nat = Some t0 -> (t0 ==! zero) = true ->
       out !! 0%nat = Some nan /\ PrimFloat.is_finite nan = false).
Proof.
  intros Hlen Hne.
  pose proof (cumtrapz_run kappa time zero (eq_sym Hlen) Hne) as Hrun.
  eexists _, _. split; [exact Hrun|].
  unfold running_ave. rewrite Hrun. cbn [mbind exc_bind].
  split; [reflexivity|].
  destruct (cumtrapz_length _ _ _ _ Hrun) as [HlenF HF0].
  split_and!.
  - congruence.
  - rewrite length_zip_with. lia.
  - exact HF0.
  - intros x0 x1 y0 y1 Hx0 Hx1 Hy0 Hy1.
    change ((?a :: ?l) !! 1%nat) with (l !! 0%nat).
    rewrite np_cumsum_head.
    exact (trapezoid_lookup time kappa 0 x0 x1 y0 y1 Hx0 Hx1 Hy0 Hy1).
  - intros n f x0 x1 y0 y1 Hf Hx0 Hx1 Hy0 Hy1.
    change ((?a :: ?l) !! S (S n)) with (l !! S n).
    change ((?a :: ?l) !! S n) with (l !! n) in Hf.
    apply (np_cumsum_step _ _ _ _ Hf).
    exact (trapezoid_lookup time kappa (S n) x0 x1 y0 y1 Hx0 Hx1 Hy0 Hy1).
  - intros n f t Hf Ht. rewrite lookup_zip_with, Hf. cbn. by rewrite Ht.
  - intros t0 Ht0 Hz. split; [|reflexivity].
    rewrite lookup_zip_with, HF0. cbn. rewrite Ht0. cbn.
    f_equal. by apply zero_div_zero_binary64.
Qed.

Lemma running_ave_division_at_origin_witness :
  exists out : list float,
    running_ave [1; 2; 3]%float [0; 1; 2]%float = Ok out /\
    out !! 0%nat = Some nan /\
    out !! 2%nat = Some 2%float.
Proof.
  destruct (running_ave_division_at_origin
              [1; 2; 3]%float [0; 1; 2]%float eq_refl ltac:(discriminate))
    as (Fs & out & HFs & Hrun & _ & _ & _ & _ & _ & Hout & H0).
  exists out. split_and!; [exact Hrun|exact (proj1 (H0 0%float eq_refl eq_refl))|].
  vm_compute in HFs. injection HFs as <-.
  rewrite (Hout 2%nat 4%float 2%float eq_refl eq_refl). vm_compute. reflexivity.
Defined.

End RunningAve.

(** ** Group assignment *)

Section GroupScan.
Context {F : Type} `{PyFloat F}.

Lemma imap_pair_zip {A} (l : list A) (k : nat) :
  imap (fun i v => (k + i, v)) l = zip (seq k (length l)) l.
Proof.
  revert k. induction l as [|x t IH]; intros k; [done|].
  cbn. rewrite Nat.add_0_r. f_equal.
  rewrite <-IH. apply imap_ext. intros i v _. cbn. f_equal. lia.
Qed.

Lemma enumerate_zip {A} (l : list A) :
  imap (fun i v => (i, v)) l = zip (seq 0 (length l)) l.
Proof. exact (imap_pair_zip l 0). Qed.

(** The loop of [__get_group] never raises, and what it returns is -1
    (after printing) or the index of an interval. *)
Lemma group_scan_total (split : list F) (d : F) (l : list F) (k : nat) :
  k + length l <= pred (length split) ->
  exists r, group_scan split d (zip (seq k (length l)) l) = Ok r /\
    (r = None \/ r = Some (true, (-1)%Z) \/
     exists i, r = Some (false, Z.of_nat i) /\ k <= i < k + length l).
Proof.
  revert k. induction l as [|v t IH]; intros k Hk.
  - exists None. by split; [|left].
  - cbn [length seq zip zip_with group_scan] in *.
    destruct ((k =? 0)%nat && (d <! v)) eqn:E1.
    { eexists. split; [done|]. right; by left. }
    destruct (IH (S k)) as (r & Hr & Hcase); [lia|].
    assert (exists r', group_scan split d (zip (seq (S k) (length t)) t) = Ok r' /\
             (r' = None \/ r' = Some (true, (-1)%Z) \/
              exists i, r' = Some (false, Z.of_nat i) /\ k <= i < k + S (length t))) as Hrest.
    { exists r. split; [done|]. destruct Hcase as [?|[?|(i & ? & ?)]]; eauto.
      right; right. exists i. split; [done|lia]. }
    destruct (d >=! v); [|done].
    destruct (split !! S k) as [nxt|] eqn:En.
    + destruct (d <! nxt); [|done].
      eexists. split; [done|]. right; right. exists k. split; [done|lia].
    + apply lookup_ge_None in En. lia.
Qed.

Lemma get_group_total (split : list F) (pos : F * F * F) (direction : string) :
  exists g out, __get_group split pos direction = Ok (g, out) /\
    (g = -1 \/ 0 <= g < Z.of_nat (length split) - 1)%Z.
Proof.
  unfold __get_group. rewrite enumerate_zip.
  destruct (group_scan_total split (coordinate pos direction)
              (take (pred (length split)) split) 0)
    as (r & -> & Hcase).
  { rewrite length_take. lia. }
  rewrite length_take in Hcase.
  cbn [mbind exc_bind].
  destruct Hcase as [->|[->|(i & -> & Hi)]]; eexists _, _; (split; [done|]); lia.
Qed.

(** When no interval accepts [d], the loop runs to its end. *)
Lemma group_scan_none (split : list F) (d : F) (l : list F) (k : nat) :
  (forall i v w, split !! i = Some v -> split !! S i = Some w ->
                 (d >=! v) = true -> (d <! w) = false) ->
  (forall v, split !! 0%nat = Some v -> (d <! v) = false) ->
  (forall i v, l !! i = Some v -> split !! (k + i)%nat = Some v) ->
  k + length l <= pred (length split) ->
  group_scan split d (zip (seq k (length l)) l) = Ok None.
Proof.
  intros Hno H0. revert k. induction l as [|v t IH]; intros k Hl Hk; [done|].
  cbn [length seq zip zip_with group_scan] in *.
  assert (split !! k = Some v) as Hv.
  { specialize (Hl 0%nat v eq_refl). by rewrite Nat.add_0_r in Hl. }
  assert (group_scan split d (zip (seq (S k) (length t)) t) = Ok None) as Hrest.
  { apply IH; [|lia]. intros i w Hw. specialize (Hl (S i) w Hw).
    by replace (S k + i)%nat with (k + S i)%nat by lia. }
  assert ((k =? 0)%nat && (d <! v) = false) as ->.
  { destruct (k =? 0)%nat eqn:Ek; [|done]. apply Nat.eqb_eq in Ek. subst k.
    cbn. by apply H0. }
  destruct (d >=! v) eqn:Ege; [|done].
  destruct (split !! S k) as [nxt|] eqn:En.
  - by rewrite (Hno k v nxt Hv En Ege).
  - apply lookup_ge_None in En. lia.
Qed.

Lemma get_group_none (split : list F) (pos : F * F * F) (direction : string) :
  let d := coordinate pos direction in
  (forall i v w, split !! i = Some v -> split !! S i = Some w ->
                 (d >=! v) = true -> (d <! w) = false) ->
  (forall v, split !! 0%nat = Some v -> (d <! v) = false) ->
  __get_group split pos direction = Ok ((-1)%Z, [d]).
Proof.
  intros d Hno H0. unfold __get_group. rewrite enumerate_zip.
  rewrite (group_scan_none split d _ 0 Hno H0); [done| |rewrite length_take; lia].
  intros i v Hv. apply lookup_take_Some in Hv. by destruct Hv.
Qed.

(** A coordinate below the first boundary: -1 at the first pass. *)
Lemma get_group_below (split : list F) (pos : F * F * F) (direction : string) (s0 : F) :
  split !! 0%nat = Some s0 ->
  (coordinate pos direction <! s0) = true ->
  __get_group split pos direction = Ok ((-1)%Z, [coordinate pos direction]).
Proof.
  intros Hs0 Hlt. unfold __get_group. rewrite enumerate_zip.
  destruct split as [|s [|s' t]]; [done|done|].
  injection Hs0 as ->. cbn [length pred take zip seq zip_with group_scan].
  cbn. by rewrite Hlt.
Qed.

End GroupScan.

Section AssignGroups.
Context {F : Type} `{PyFloat F}.

Lemma py_index_slot (n : nat) (g : Z) :
  1 <= n -> (g = -1 \/ 0 <= g < Z.of_nat n)%Z ->
  py_index n g = Ok (slot n g) /\ slot n g < n /\
  (g = (-1)%Z -> slot n g = pred n) /\ ((0 <= g)%Z -> slot n g = Z.to_nat g).
Proof.
  intros Hn Hg. unfold slot, py_index.
  destruct ((0 <=? g)%Z && (g <? Z.of_nat n)%Z) eqn:E1.
  - apply andb_true_iff in E1 as [E1 E2].
    apply Z.leb_le in E1. apply Z.ltb_lt in E2.
    split_and!; [done|lia|lia|done].
  - assert (g = (-1)%Z) as ->.
    { destruct Hg as [?|Hg]; [done|]. exfalso.
      apply andb_false_iff in E1 as [E1|E1].
      - apply Z.leb_gt in E1. lia.
      - apply Z.ltb_ge in E1. lia. }
    assert ((- Z.of_nat n <=? -1)%Z && (-1 <? 0)%Z = true) as ->.
    { apply andb_true_iff. split; [apply Z.leb_le; lia|done]. }
    split_and!; [done|lia|lia|lia].
Qed.

(** One pass of the loop of [assign_groups]. *)
Lemma assign_one_run (split : list F) (direction : string)
    (st : groups_state F) (k : nat) (a : atom F) :
  2 <= length split ->
  length (gs_counts st) = pred (length split) ->
  gs_atoms st !! k = Some a ->
  exists out,
    __get_group split (position a) direction = Ok (group_of split direction a, out) /\
    assign_one split direction st k =
    (Ok tt,
     GroupsState
       (<[k := Atom (position a) (group_of split direction a)]> (gs_atoms st))
       (alter (fun c => (c + 1)%Z)
              (slot (pred (length split)) (group_of split direction a))
              (gs_counts st))
       (gs_stdout st ++ out)).
Proof.
  intros Hs Hc Ha. unfold assign_one, group_of. rewrite Ha.
  destruct (get_group_total split (position a) direction) as (g & out & -> & Hg).
  exists out. split; [done|]. rewrite Hc.
  destruct (py_index_slot (pred (length split)) g) as (-> & _); [lia|lia|].
  done.
Qed.

Lemma landed_snoc split direction j l a :
  landed split direction j (l ++ [a]) =
  (landed split direction j l +
   if decide (slot (pred (length split)) (group_of split direction a) = j) then 1 else 0)%Z.
Proof.
  unfold landed. rewrite filter_app, length_app.
  rewrite filter_cons, filter_nil. case_decide; cbn; lia.
Qed.

Lemma assign_loop_run (split : list F) (direction : string) (atoms0 : list (atom F))
    (r m : nat) (st : groups_state F) :
  2 <= length split ->
  m + r = length atoms0 ->
  gs_atoms st = tagged split direction (take m atoms0) ++ drop m atoms0 ->
  length (gs_counts st) = pred (length split) ->
  (forall j, j < pred (length split) ->
     gs_counts st !! j = Some (landed split direction j (take m atoms0))) ->
  exists st',
    assign_loop split direction st (seq m r) = (Ok tt, st') /\
    gs_atoms st' = tagged split direction atoms0 /\
    length (gs_counts st') = pred (length split) /\
    (forall j, j < pred (length split) ->
       gs_counts st' !! j = Some (landed split direction j atoms0)).
Proof.
  intros Hs. revert m st. induction r as [|r IH]; intros m st Hm Hat Hlen Hcnt.
  - exists st. cbn. rewrite Nat.add_0_r in Hm. subst m.
    rewrite firstn_all, drop_all, app_nil_r in Hat.
    rewrite firstn_all in Hcnt. done.
  - cbn [seq assign_loop].
    assert (is_Some (atoms0 !! m)) as [a Ha] by (apply lookup_lt_is_Some; lia).
    assert (gs_atoms st !! m = Some a) as Hst.
    { rewrite Hat, lookup_app_r; unfold tagged; rewrite length_map, length_take; [|lia].
      rewrite lookup_drop. rewrite <-Ha. f_equal. lia. }
    destruct (assign_one_run split direction st m a Hs Hlen Hst) as (out & _ & ->).
    apply IH; cbn [gs_atoms gs_counts].
    + lia.
    + rewrite Hat. unfold tagged.
      rewrite insert_app_r_alt by (rewrite length_map, length_take; lia).
      rewrite length_map, length_take.
      replace (m - m `min` length atoms0) with 0 by lia.
      rewrite (drop_S _ _ _ Ha). cbn [insert list_insert].
      rewrite (take_S_r _ _ _ Ha), map_app. cbn [map].
      by rewrite <-app_assoc.
    + by rewrite length_alter.
    + intros j Hj. rewrite (take_S_r _ _ _ Ha), landed_snoc.
      case_decide as Hd.
      * subst j. rewrite list_lookup_alter_eq, Hcnt by done. done.
      * rewrite list_lookup_alter_ne by done. rewrite Hcnt by done.
        f_equal. lia.
Qed.

Lemma assign_groups_run (split : list F) (atoms : list (atom F)) (direction : string) :
  2 <= length split ->
  exists counts st,
    assign_groups split atoms direction = (Ok counts, st) /\
    gs_counts st = counts /\
    gs_atoms st = tagged split direction atoms /\
    length counts = pred (length split) /\
    (forall j, j < pred (length split) ->
       counts !! j = Some (landed split direction j atoms)).
Proof.
  intros Hs. unfold assign_groups.
  destruct (assign_loop_run split direction atoms (length atoms) 0
              (GroupsState atoms
                 (replicate (Z.to_nat (Z.of_nat (length split) - 1)) 0%Z) []))
    as (st' & -> & Hat & Hlen & Hcnt); cbn [gs_atoms gs_counts]; try done.
  - rewrite length_replicate. lia.
  - intros j Hj. rewrite lookup_replicate_2 by lia. done.
  - exists (gs_counts st'), st'. done.
Qed.

End AssignGroups.

Section GroupsExact.

Lemma exact_leb_inv (a b : exact) :
  (b >=! a) = true -> exists x y, a = Fin x /\ b = Fin y /\ (x <= y)%Q.
Proof.
  destruct a as [x|], b as [y|]; cbn; try done.
  intros Hle. exists x, y. split_and!; try done. by apply Qle_bool_iff.
Qed.

Lemma exact_leb_trans (a b c : exact) :
  (b >=! a) = true -> (c >=! b) = true -> (c >=! a) = true.
Proof.
  intros (x & y & -> & -> & Hxy)%exact_leb_inv (y' & z & [= <-] & -> & Hyz)%exact_leb_inv.
  cbn. apply Qle_bool_iff. by apply Qle_trans with y.
Qed.

(** not below the larger bound, hence not below the smaller one *)
Lemma exact_not_below (d w sl : exact) :
  (sl >=! w) = true -> (d <! sl) = false -> (d <! w) = false.
Proof.
  intros (x & y & -> & -> & Hxy)%exact_leb_inv. destruct d as [q|]; [|done].
  cbn. intros Hq%negb_false_iff. apply negb_false_iff.
  apply Qle_bool_iff. apply Qle_bool_iff in Hq. by apply Qle_trans with y.
Qed.

Lemma nondecreasing_lookup {F} `{PyFloat F} (split : list F) (i : nat) (a b : F) :
  nondecreasing split = true ->
  split !! i = Some a -> split !! S i = Some b -> (b >=! a) = true.
Proof.
  unfold nondecreasing. intros Hs Ha Hb.
  apply Is_true_true in Hs. apply forallb_True in Hs.
  apply (Forall_lookup_1 _ _ i (a, b)) in Hs; [by apply Is_true_true in Hs|].
  apply lookup_zip_with_Some. exists a, b. rewrite lookup_drop. done.
Qed.

Lemma nondecreasing_chain (split : list exact) (i j : nat) (a b : exact) :
  nondecreasing split = true -> i < j ->
  split !! i = Some a -> split !! j = Some b -> (b >=! a) = true.
Proof.
  intros Hs Hij Ha. revert b. induction j as [|j IH]; intros b Hb; [lia|].
  assert (is_Some (split !! j)) as [c Hc].
  { apply lookup_lt_is_Some. apply lookup_lt_Some in Hb. lia. }
  pose proof (nondecreasing_lookup split j c b Hs Hc Hb) as Hcb.
  destruct (decide (i = j)) as [->|Hne].
  - congruence.
  - apply exact_leb_trans with c; [|done]. apply IH; [lia|done].
Qed.

Lemma get_group_out_of_bounds (split : list exact) (pos : exact * exact * exact)
    (direction : string) :
  nondecreasing split = true ->
  out_of_bounds split (coordinate pos direction) = true ->
  __get_group split pos direction = Ok ((-1)%Z, [coordinate pos direction]).
Proof.
  intros Hs Hout. unfold out_of_bounds in Hout.
  apply orb_true_iff in Hout as [Hlow|Hhigh].
  - destruct (split !! 0%nat) as [s0|] eqn:E0; [|done].
    by apply get_group_below with s0.
  - rewrite last_lookup in Hhigh.
    destruct (split !! pred (length split)) as [sl|] eqn:El; [|done].
    apply negb_true_iff in Hhigh.
    assert (forall i w, split !! i = Some w -> (coordinate pos direction <! w) = false) as Hall.
    { intros i w Hw. pose proof (lookup_lt_Some _ _ _ Hw) as Hi.
      destruct (decide (i = pred (length split))) as [->|Hne]; [congruence|].
      apply exact_not_below with sl; [|done].
      apply (nondecreasing_chain split i (pred (length split))); [done|lia|done|done]. }
    apply get_group_none.
    + intros i v w _ Hw _. by apply (Hall (S i)).
    + intros v Hv. by apply (Hall 0%nat).
Qed.

Lemma slot_last (n : nat) (g : Z) :
  1 <= n -> (g = -1 \/ 0 <= g < Z.of_nat n)%Z ->
  slot n g = pred n <-> (g = -1 \/ g = Z.of_nat n - 1)%Z.
Proof.
  intros Hn Hg. destruct (py_index_slot n g Hn Hg) as (_ & _ & Hm & Hp).
  split.
  - intros Hsl. destruct Hg as [?|Hg]; [by left|right].
    rewrite Hp in Hsl by lia. lia.
  - intros [->| ->]; [by apply Hm|]. rewrite Hp by lia. lia.
Qed.

(** C10, as the code has it.  For boundaries in non-decreasing order, at
    least two of them: an atom whose coordinate is below [split[0]] or not
    below [split[-1]] gets -1 from [__get_group], which prints the "Out of
    bounds" message and does not raise; [assign_groups] sets the tag of that
    atom to -1 and adds one to [counts[-1]], the count of the last group, so
    that in the list returned the last entry counts the atoms of the last
    interval together with all atoms out of bounds. *)
Theorem assign_groups_out_of_bounds
    (split : list exact) (atoms : list (atom exact)) (direction : string) :
  2 <= length split ->
  nondecreasing split = true ->
  exists counts st,
    assign_groups split atoms direction = (Ok counts, st) /\
    gs_counts st = counts /\
    length counts = pred (length split) /\
    (forall k a,
       atoms !! k = Some a ->
       out_of_bounds split (coordinate (position a) direction) = true ->
       __get_group split (position a) direction
         = Ok ((-1)%Z, [coordinate (position a) direction]) /\
       gs_atoms st !! k = Some (Atom (position a) (-1)) /\
       (forall st0,
          length (gs_counts st0) = pred (length split) ->
          gs_atoms st0 !! k = Some a ->
          assign_one split direction st0 k =
          (Ok tt,
           GroupsState (<[k := Atom (position a) (-1)]> (gs_atoms st0))
                       (alter (fun c => (c + 1)%Z) (length split - 2) (gs_counts st0))
                       (gs_stdout st0 ++ [coordinate (position a) direction])))) /\
    last counts =
      Some (Z.of_nat (length (filter
        (fun a => group_of split direction a = (-1)%Z \/
                  group_of split direction a = (Z.of_nat (length split) - 2)%Z)
        atoms))).
Proof.
  intros Hlen Hs.
  destruct (assign_groups_run split atoms direction Hlen)
    as (counts & st & Hrun & Hc & Hat & Hn & Hcnt).
  exists counts, st. split_and!; try done.
  - intros k a Ha Hout.
    pose proof (get_group_out_of_bounds split (position a) direction Hs Hout) as Hg.
    assert (group_of split direction a = (-1)%Z) as Hgo by (unfold group_of; by rewrite Hg).
    split_and!; [done| |].
    + rewrite Hat. unfold tagged. rewrite list_lookup_fmap, Ha. cbn. by rewrite Hgo.
    + intros st0 Hl0 Ha0.
      destruct (assign_one_run split direction st0 k a Hlen Hl0 Ha0) as (out & Hg' & ->).
      rewrite Hg in Hg'. injection Hg' as Hgv <-. rewrite <-Hgv.
      unfold slot, py_index.
      assert ((0 <=? -1)%Z && (-1 <? Z.of_nat (pred (length split)))%Z = false) as -> by done.
      assert ((- Z.of_nat (pred (length split)) <=? -1)%Z && (-1 <? 0)%Z = true) as ->.
      { apply andb_true_iff. split; [apply Z.leb_le; lia|done]. }
      do 3 f_equal. lia.
  - rewrite last_lookup, Hn, Hcnt by lia. f_equal. unfold landed. f_equal. f_equal.
    apply list_filter_iff. intros a.
    destruct (get_group_total split (position a) direction) as (g & out & Hg & Hr).
    assert (group_of split direction a = g) as -> by (unfold group_of; by rewrite Hg).
    rewrite slot_last by lia. lia.
Qed.

Lemma assign_groups_out_of_bounds_witness :
  exists counts st,
    assign_groups sample_split sample_atoms "x" = (Ok counts, st) /\
    gs_counts st = counts /\
    length counts = 2 /\
    last counts = Some 2%Z.
Proof.
  destruct (assign_groups_out_of_bounds sample_split sample_atoms "x"
              ltac:(cbn; lia) eq_refl)
    as (counts & st & Hrun & Hc & Hn & _ & Hlast).
  exists counts, st. split_and!; [exact Hrun|exact Hc|exact Hn|exact Hlast].
Defined.

(** Without the order of the boundaries, or with a single boundary, the
    statement fails.  With split = [0, 10, 5] the coordinate 7 is not below
    [split[-1]] = 5, and [__get_group] returns group 0 without printing.
    With split = [5] the coordinate 1 is below [split[0]]; [__get_group]
    returns -1, the tag is set, and [counts[-1]] on the empty list [counts]
    raises IndexError. *)
Lemma get_group_out_of_bounds_counterexample :
  (out_of_bounds [ex 0; ex 10; ex 5] (coordinate (ex 7, ex 0, ex 0) "x") = true /\
   __get_group [ex 0; ex 10; ex 5] (ex 7, ex 0, ex 0) "x" = Ok (0%Z, [])) /\
  (out_of_bounds [ex 5] (coordinate (ex 1, ex 0, ex 0) "x") = true /\
   __get_group [ex 5] (ex 1, ex 0, ex 0) "x" = Ok ((-1)%Z, [ex 1]) /\
   assign_groups [ex 5] [Atom (ex 1, ex 0, ex 0) 0] "x" =
     (Raise IndexError, GroupsState [Atom (ex 1, ex 0, ex 0) (-1)] [] [ex 1])).
Proof. split_and!; vm_compute; reflexivity. Qed.

End GroupsExact.

(** ** Running a computation on a dictionary *)

Section Runs.
Context {F : Type}.

Lemma run_bind {A B} (m : M F A) (f : A -> M F B) (d : gmap string (ndarray F)) :
  (m ≫= f) d =
  match m d with
  | (Ok a, d') => f a d'
  | (Raise e, d') => (Raise e, d')
  end.
Proof. reflexivity. Qed.

Lemma bind_ok_inv {A B} (m : M F A) (f : A -> M F B) d r d' :
  (m ≫= f) d = (Ok r, d') ->
  exists a d1, m d = (Ok a, d1) /\ f a d1 = (Ok r, d').
Proof.
  rewrite run_bind. destruct (m d) as [[a|e] d1]; [eauto|done].
Qed.

Lemma lift_ok_inv {A} (x : exc A) d r d' :
  lift (F:=F) x d = (Ok r, d') -> x = Ok r /\ d' = d.
Proof. unfold lift. by intros [= -> ->]. Qed.

Lemma getitem_ok_inv k d v d' :
  getitem (F:=F) k d = (Ok v, d') -> d !! k = Some v /\ d' = d.
Proof. unfold getitem. destruct (d !! k); by intros [= -> ->]. Qed.

Lemma setitem_ok_inv k v d r d' :
  setitem (F:=F) k v d = (Ok r, d') -> d' = <[k := v]> d.
Proof. unfold setitem. by intros [= _ ->]. Qed.

Lemma writes_only_bind {A B} keys (m : M F A) (f : A -> M F B) :
  writes_only keys m -> (forall a, writes_only keys (f a)) ->
  writes_only keys (m ≫= f).
Proof.
  intros Hm Hf d k Hk. rewrite run_bind. specialize (Hm d k Hk).
  destruct (m d) as [[a|e] d1]; cbn in *; [|done].
  by rewrite Hf.
Qed.

Lemma writes_only_ret {A} keys (a : A) : writes_only keys (mret a : M F A).
Proof. by intros d k _. Qed.

Lemma writes_only_lift {A} keys (x : exc A) : writes_only keys (lift (F:=F) x).
Proof. by intros d k _. Qed.

Lemma writes_only_raise {A} keys e : writes_only keys (raise (F:=F) (A:=A) e).
Proof. by intros d k _. Qed.

Lemma writes_only_contains keys k : writes_only keys (contains (F:=F) k).
Proof. by intros d k' _. Qed.

Lemma writes_only_getitem keys k : writes_only keys (getitem (F:=F) k).
Proof. intros d k' _. unfold getitem. by destruct (d !! k). Qed.

Lemma writes_only_setitem keys k v : k ∈ keys -> writes_only keys (setitem (F:=F) k v).
Proof.
  intros Hin d k' Hk'. unfold setitem. cbn.
  rewrite lookup_insert_ne; [done|]. by intros ->.
Qed.

Lemma writes_only_for_each {A} keys (items : list A) (body : A -> M F unit) :
  (forall m, writes_only keys (body m)) -> writes_only keys (for_each items body).
Proof.
  intros Hb. induction items as [|m rest IH]; cbn [for_each].
  - apply writes_only_ret.
  - apply writes_only_bind; [apply Hb|]. by intros _.
Qed.

Lemma writes_only_if {A} keys (b : bool) (c1 c2 : M F A) :
  writes_only keys c1 -> writes_only keys c2 -> writes_only keys (if b then c1 else c2).
Proof. by destruct b. Qed.

Lemma writes_only_mono {A} keys keys' (c : M F A) :
  keys ⊆ keys' -> writes_only keys c -> writes_only keys' c.
Proof. intros Hsub Hc d k Hk. apply Hc. intros Hin. apply Hk. by apply Hsub. Qed.

(** A loop over [seq j n] with an invariant indexed by the next item. *)
Lemma for_each_seq_inv (body : nat -> M F unit)
    (I : nat -> gmap string (ndarray F) -> Prop) (n j : nat) d d' :
  I j d ->
  (forall m d1 d2, j <= m < j + n -> I m d1 -> body m d1 = (Ok tt, d2) -> I (S m) d2) ->
  for_each (seq j n) body d = (Ok tt, d') ->
  I (j + n) d'.
Proof.
  revert j d. induction n as [|n IH]; intros j d HI Hstep Hrun.
  - cbn in Hrun. injection Hrun as <-. by rewrite Nat.add_0_r.
  - cbn [seq for_each] in Hrun.
    apply bind_ok_inv in Hrun as ([] & d1 & Hb & Hrest).
    replace (j + S n) with (S j + n) by lia.
    apply (IH (S j) d1); [|intros m' da db Hm' HI' Hb'; apply Hstep with da; [lia|done..]|done].
    apply Hstep with d; [lia|done|done].
Qed.

End Runs.

Section Engine.
Context {F : Type} `{PyFloat F}.
Variable corr : ndarray F -> ndarray F -> Z -> exc (ndarray F).

Lemma stretch_length {A} (n : nat) (l l' : list A) :
  stretch n l = Some l' -> length l' = n.
Proof.
  unfold stretch. case_decide as Hd; [by intros [= <-]|].
  destruct l as [|x [|y t]]; try done. intros [= <-]. by rewrite length_replicate.
Qed.

Lemma to_row_length (n : nat) (v : ndarray F) (r : list F) :
  to_row n v = Ok r -> length r = n.
Proof.
  destruct v as [x|l|nc rows]; cbn.
  - intros [= <-]. by rewrite length_replicate.
  - destruct (stretch n l) eqn:E; [|done]. intros [= <-]. by eapply stretch_length.
  - destruct rows as [|l [|l' t]]; try done.
    destruct (stretch n l) eqn:E; [|done]. intros [= <-]. by eapply stretch_length.
Qed.

Lemma to_row_same_length (n : nat) (l r : list F) :
  length l = n -> to_row n (A1 l) = Ok r -> r = l.
Proof.
  intros Hl. cbn. unfold stretch. rewrite decide_True by done. by intros [= <-].
Qed.

Lemma nd_set_row_inv (a : ndarray F) (m : nat) (v a' : ndarray F) :
  nd_set_row a m v = Ok a' ->
  exists nc rows r, a = A2 nc rows /\ m < length rows /\ to_row nc v = Ok r /\
                    a' = A2 nc (<[m := r]> rows).
Proof.
  destruct a as [x|l|nc rows]; [done..|]. cbn.
  case_decide as Hm; [|done].
  destruct (to_row nc v) as [r|e] eqn:E; [|done]. cbn.
  intros [= <-]. by exists nc, rows, r.
Qed.

Lemma correlate_and_integrate_writes jkey ckey kkey j max_lag scale m :
  writes_only [ckey; kkey] (correlate_and_integrate corr jkey ckey kkey j max_lag scale m).
Proof.
  unfold correlate_and_integrate.
  repeat first
    [ apply writes_only_bind; [|intros ?]
    | apply writes_only_getitem
    | apply writes_only_lift
    | apply writes_only_setitem; set_solver ].
Qed.

(** What one pass leaves in the two arrays it writes. *)
Lemma correlate_and_integrate_ok jkey ckey kkey j max_lag scale m d d'
    (n : nat) (crows krows : list (list F)) :
  ckey <> kkey ->
  d !! ckey = Some (A2 n crows) ->
  d !! kkey = Some (A2 n krows) ->
  correlate_and_integrate corr jkey ckey kkey j max_lag scale m d = (Ok tt, d') ->
  exists crow krow,
    length crow = n /\ krow !! 0%nat = Some (zero *! scale) /\ length krow = n /\
    m < length krows /\
    d' = <[kkey := A2 n (<[m := krow]> krows)]> (<[ckey := A2 n (<[m := crow]> crows)]> d).
Proof.
  intros Hck Hc Hk Hrun. unfold correlate_and_integrate in Hrun.
  apply bind_ok_inv in Hrun as (a & d1 & (Ha & ->)%getitem_ok_inv & Hrun).
  apply bind_ok_inv in Hrun as (r & d1 & (Hr & ->)%lift_ok_inv & Hrun).
  apply bind_ok_inv in Hrun as (c & d1 & (Hcorr & ->)%lift_ok_inv & Hrun).
  apply bind_ok_inv in Hrun as (t & d1 & (Ht & ->)%getitem_ok_inv & Hrun).
  apply bind_ok_inv in Hrun as (t' & d1 & (Hset & ->)%lift_ok_inv & Hrun).
  apply bind_ok_inv in Hrun as ([] & d1 & ->%setitem_ok_inv & Hrun).
  apply bind_ok_inv in Hrun as (y & d1 & (Hy & ->)%getitem_ok_inv & Hrun).
  apply bind_ok_inv in Hrun as (yr & d1 & (Hyr & ->)%lift_ok_inv & Hrun).
  apply bind_ok_inv in Hrun as (tau & d1 & (Htau & ->)%getitem_ok_inv & Hrun).
  apply bind_ok_inv in Hrun as (k & d1 & (Hcum & ->)%lift_ok_inv & Hrun).
  apply bind_ok_inv in Hrun as (km & d1 & (Hkm & ->)%getitem_ok_inv & Hrun).
  apply bind_ok_inv in Hrun as (km' & d1 & (Hset' & ->)%lift_ok_inv & Hrun).
  apply setitem_ok_inv in Hrun as ->.
  rewrite Hc in Ht. injection Ht as <-.
  apply nd_set_row_inv in Hset as (nc & rows & crow & [= <- <-] & Hm & Hrow & ->).
  rewrite lookup_insert_eq in Hy. injection Hy as <-.
  cbn in Hyr. rewrite list_lookup_insert_eq in Hyr by done. injection Hyr as <-.
  rewrite lookup_insert_ne in Hkm by done. rewrite Hk in Hkm. injection Hkm as <-.
  apply nd_set_row_inv in Hset' as (nc & rows & krow & [= <- <-] & Hm' & Hrow' & ->).
  apply to_row_length in Hrow as Hlc.
  apply cumtrapz_length in Hcum as [Hlk Hk0].
  apply to_row_same_length in Hrow' as ->; [|rewrite length_map; congruence].
  exists crow, (map (fun v => v *! scale) k).
  split_and!; try done.
  - by rewrite list_lookup_fmap, Hk0.
  - rewrite length_map. congruence.
Qed.

Lemma seeded_frame key nb scale d d' :
  d' !! key = d !! key -> seeded key nb scale d -> seeded key nb scale d'.
Proof. intros E Hs m Hm. rewrite E. by apply Hs. Qed.

Lemma channel_frame n nb ckey kkey scale j d d' :
  d' !! ckey = d !! ckey -> d' !! kkey = d !! kkey ->
  channel n nb ckey kkey scale j d -> channel n nb ckey kkey scale j d'.
Proof.
  intros Ec Ek (crows & krows & Hc & Hk & Hl & Hrows).
  exists crows, krows. by rewrite Ec, Ek.
Qed.

Lemma channel_seeded n nb ckey kkey scale d :
  channel n nb ckey kkey scale nb d -> seeded kkey nb scale d.
Proof.
  intros (crows & krows & Hc & Hk & Hl & Hrows) m Hm.
  destruct (Hrows m Hm) as (row & Hrow & H0). by exists n, krows, row.
Qed.

Lemma channel_step jkey ckey kkey j max_lag scale n nb m d d' :
  ckey <> kkey ->
  channel n nb ckey kkey scale m d ->
  correlate_and_integrate corr jkey ckey kkey j max_lag scale m d = (Ok tt, d') ->
  channel n nb ckey kkey scale (S m) d'.
Proof.
  intros Hne (crows & krows & Hc & Hk & Hl & Hrows) Hrun.
  destruct (correlate_and_integrate_ok _ _ _ _ _ _ _ _ _ n crows krows Hne Hc Hk Hrun)
    as (crow & krow & Hlc & Hk0 & Hlk & Hm & ->).
  exists (<[m := crow]> crows), (<[m := krow]> krows). split_and!.
  - rewrite lookup_insert_ne by done. by rewrite lookup_insert_eq.
  - by rewrite lookup_insert_eq.
  - by rewrite length_insert.
  - intros m' Hm'. destruct (decide (m' = m)) as [->|Hd].
    + exists krow. by rewrite list_lookup_insert_eq.
    + rewrite list_lookup_insert_ne by done. apply Hrows. lia.
Qed.

Lemma np_zeros_inv (r c : Z) (z : ndarray F) :
  np_zeros r c = Ok z ->
  z = A2 (Z.to_nat c) (replicate (Z.to_nat r) (replicate (Z.to_nat c) zero)).
Proof. unfold np_zeros. destruct (_ || _); [done|]. by intros [= <-]. Qed.

Lemma channel_init (n nb : nat) ckey kkey scale d :
  d !! ckey = Some (A2 n (replicate nb (replicate n zero))) ->
  d !! kkey = Some (A2 n (replicate nb (replicate n zero))) ->
  channel n nb ckey kkey scale 0 d.
Proof.
  intros Hc Hk. eexists _, _. split_and!; [done|done|by rewrite length_replicate|].
  intros m Hm. lia.
Qed.

Lemma gkma_in_out_writes ji jo ci co ki ko msg nbins size max_lag scale :
  writes_only [ci; co; ki; ko]
    (gkma_in_out corr ji jo ci co ki ko msg nbins size max_lag scale).
Proof.
  unfold gkma_in_out.
  apply writes_only_bind; [apply writes_only_contains|intros hi].
  apply writes_only_bind; [apply writes_only_contains|intros ho].
  apply writes_only_if; [apply writes_only_raise|].
  repeat first
    [ apply writes_only_getitem
    | apply writes_only_lift
    | apply writes_only_setitem; set_solver
    | apply writes_only_for_each; intros ?
    | eapply writes_only_mono; [|apply correlate_and_integrate_writes]; set_solver
    | apply writes_only_bind; [|intros ?] ].
Qed.

Lemma gkma_z_writes nbins size max_lag scale :
  writes_only ["corr_zm_z"; "kmz"] (gkma_z corr nbins size max_lag scale).
Proof.
  unfold gkma_z.
  apply writes_only_bind; [apply writes_only_contains|intros h].
  apply writes_only_if; [apply writes_only_raise|].
  repeat first
    [ apply writes_only_getitem
    | apply writes_only_lift
    | apply writes_only_setitem; set_solver
    | apply writes_only_for_each; intros ?
    | eapply writes_only_mono; [|apply correlate_and_integrate_writes]; set_solver
    | apply writes_only_bind; [|intros ?] ].
Qed.

End Engine.

(** ** The direction blocks of the modal conductivity engine *)

Section Blocks.
Context {F : Type} `{PyFloat F}.
Variable corr : ndarray F -> ndarray F -> Z -> exc (ndarray F).

Lemma gkma_x_in_out nbins size max_lag scale :
  gkma_x corr nbins size max_lag scale =
  gkma_in_out corr "jmxi" "jmxo" "corr_xmi_x" "corr_xmo_x" "kmxi" "kmxo"
    "x direction data is missing" nbins size max_lag scale.
Proof. reflexivity. Qed.

Lemma gkma_y_in_out nbins size max_lag scale :
  gkma_y corr nbins size max_lag scale =
  gkma_in_out corr "jmyi" "jmyo" "corr_ymi_y" "corr_ymo_y" "kmyi" "kmyo"
    "y direction data is missing" nbins size max_lag scale.
Proof. reflexivity. Qed.

Lemma contains_run k (d : gmap string (ndarray F)) :
  contains k d = (Ok (bool_decide (is_Some (d !! k))), d).
Proof. reflexivity. Qed.

(** A block whose keys are missing raises at once and leaves the dictionary
    as it is. *)
Lemma gkma_in_out_missing ji jo ci co ki ko msg nbins size max_lag scale d :
  d !! ji = None \/ d !! jo = None ->
  gkma_in_out corr ji jo ci co ki ko msg nbins size max_lag scale d
  = (Raise (ValueError msg), d).
Proof.
  intros Hmiss. unfold gkma_in_out. rewrite !run_bind, !contains_run. cbv beta iota.
  rewrite run_bind, contains_run. cbv beta iota.
  assert (negb (bool_decide (is_Some (d !! ji))) || negb (bool_decide (is_Some (d !! jo))) = true) as ->; [|done].
  destruct Hmiss as [-> | ->].
  - rewrite bool_decide_eq_false_2; [done|]. by intros [? ?].
  - rewrite (bool_decide_eq_false_2 (is_Some None)); [|by intros [? ?]].
    by rewrite orb_true_r.
Qed.

Lemma gkma_z_missing nbins size max_lag scale d :
  d !! "jmz" = None ->
  gkma_z corr nbins size max_lag scale d
  = (Raise (ValueError "z direction data is missing"), d).
Proof.
  intros Hmiss. unfold gkma_z. rewrite run_bind, contains_run. cbv beta iota.
  rewrite Hmiss. rewrite bool_decide_eq_false_2; [done|]. by intros [? ?].
Qed.

Lemma gkma_in_out_seeded ji jo ci co ki ko msg nbins size max_lag scale d d' :
  NoDup [ci; co; ki; ko] ->
  gkma_in_out corr ji jo ci co ki ko msg nbins size max_lag scale d = (Ok tt, d') ->
  seeded ki (Z.to_nat nbins) scale d' /\ seeded ko (Z.to_nat nbins) scale d'.
Proof.
  intros Hnd Hrun.
  assert (ci <> co /\ ci <> ki /\ ci <> ko /\ co <> ki /\ co <> ko /\ ki <> ko)
    as (Hab & Hac & Had & Hbc & Hbd & Hcd).
  { apply NoDup_cons in Hnd as [H1 Hnd]. apply NoDup_cons in Hnd as [H2 Hnd].
    apply NoDup_cons in Hnd as [H3 _]. set_solver. }
  unfold gkma_in_out in Hrun.
  apply bind_ok_inv in Hrun as (hi & d1 & [= <- <-] & Hrun).
  apply bind_ok_inv in Hrun as (ho & d1 & [= <- <-] & Hrun).
  destruct (negb _ || negb _); [done|].
  apply bind_ok_inv in Hrun as (a & d1 & (Ha & ->)%getitem_ok_inv & Hrun).
  apply bind_ok_inv in Hrun as (b & d1 & (Hb & ->)%getitem_ok_inv & Hrun).
  apply bind_ok_inv in Hrun as (s & d1 & (Hs & ->)%lift_ok_inv & Hrun).
  apply bind_ok_inv in Hrun as (j & d1 & (Hj & ->)%lift_ok_inv & Hrun).
  apply bind_ok_inv in Hrun as (z1 & d1 & (->%np_zeros_inv & ->)%lift_ok_inv & Hrun).
  apply bind_ok_inv in Hrun as ([] & d1 & ->%setitem_ok_inv & Hrun).
  apply bind_ok_inv in Hrun as (z2 & d1 & (->%np_zeros_inv & ->)%lift_ok_inv & Hrun).
  apply bind_ok_inv in Hrun as ([] & d1 & ->%setitem_ok_inv & Hrun).
  apply bind_ok_inv in Hrun as (z3 & d1 & (->%np_zeros_inv & ->)%lift_ok_inv & Hrun).
  apply bind_ok_inv in Hrun as ([] & d1 & ->%setitem_ok_inv & Hrun).
  apply bind_ok_inv in Hrun as (z4 & d1 & (->%np_zeros_inv & ->)%lift_ok_inv & Hrun).
  apply bind_ok_inv in Hrun as ([] & d1 & ->%setitem_ok_inv & Hrun).
  set (n := Z.to_nat size) in *. set (nb := Z.to_nat nbins) in *.
  pose (I := fun (m : nat) (d : gmap string (ndarray F)) =>
               channel n nb ci ki scale m d /\ channel n nb co ko scale m d).
  assert (I (0 + nb) d') as [HA HB].
  { eapply (for_each_seq_inv _ I nb 0); [| |exact Hrun].
    - split; apply channel_init.
      + rewrite !lookup_insert_ne by done. by rewrite lookup_insert_eq.
      + rewrite lookup_insert_ne by done. by rewrite lookup_insert_eq.
      + rewrite !lookup_insert_ne by done. by rewrite lookup_insert_eq.
      + by rewrite lookup_insert_eq.
    - intros m da db _ [HA HB] Hbody.
      apply bind_ok_inv in Hbody as ([] & dm & H1 & H2).
      pose proof (correlate_and_integrate_writes corr ji ci ki j max_lag scale m da) as W1.
      pose proof (correlate_and_integrate_writes corr jo co ko j max_lag scale m dm) as W2.
      rewrite H1 in W1. rewrite H2 in W2. cbn [snd] in W1, W2.
      split.
      + apply channel_frame with dm; [apply W2; set_solver..|].
        by eapply channel_step.
      + eapply channel_step; [done| |exact H2].
        apply channel_frame with da; [apply W1; set_solver..|done]. }
  split; by eapply channel_seeded.
Qed.

Lemma gkma_z_seeded nbins size max_lag scale d d' :
  gkma_z corr nbins size max_lag scale d = (Ok tt, d') ->
  seeded "kmz" (Z.to_nat nbins) scale d'.
Proof.
  intros Hrun. unfold gkma_z in Hrun.
  apply bind_ok_inv in Hrun as (h & d1 & [= <- <-] & Hrun).
  destruct (negb _); [done|].
  apply bind_ok_inv in Hrun as (a & d1 & (Ha & ->)%getitem_ok_inv & Hrun).
  apply bind_ok_inv in Hrun as (j & d1 & (Hj & ->)%lift_ok_inv & Hrun).
  apply bind_ok_inv in Hrun as (z1 & d1 & (->%np_zeros_inv & ->)%lift_ok_inv & Hrun).
  apply bind_ok_inv in Hrun as ([] & d1 & ->%setitem_ok_inv & Hrun).
  apply bind_ok_inv in Hrun as (z2 & d1 & (->%np_zeros_inv & ->)%lift_ok_inv & Hrun).
  apply bind_ok_inv in Hrun as ([] & d1 & ->%setitem_ok_inv & Hrun).
  apply channel_seeded with (Z.to_nat size) "corr_zm_z".
  eapply (for_each_seq_inv _ (channel (Z.to_nat size) (Z.to_nat nbins) "corr_zm_z" "kmz" scale)
            (Z.to_nat nbins) 0); [| |exact Hrun].
  - apply channel_init.
    + rewrite lookup_insert_ne by done. by rewrite lookup_insert_eq.
    + by rewrite lookup_insert_eq.
  - intros m da db _ HA Hbody. by eapply channel_step.
Qed.

End Blocks.

(** ** The modal conductivity engine as a whole *)

Section Engine2.
Context {F : Type} `{PyFloat F}.
Variable corr : ndarray F -> ndarray F -> Z -> exc (ndarray F).
Variable __get_direction : string -> exc (list string).

(** The call, stage by stage. *)
Lemma get_gkma_kappa_run nbins nsamples dt sample_interval T vol max_tau directions
    return_data (data : gmap string (ndarray F)) :
  get_gkma_kappa corr __get_direction nbins nsamples dt sample_interval T vol
    max_tau directions return_data data =
  match gkma_lags nsamples dt sample_interval T vol max_tau with
  | Raise e => (Raise e, data)
  | Ok (scale, srate, max_lag, tau) =>
      let d0 := <["tau" := tau]> data in
      match __get_direction directions with
      | Raise e => (Raise e, d0)
      | Ok ds =>
          match (if bool_decide ("x" ∈ ds)
                 then gkma_x corr nbins (max_lag + 1) max_lag scale else mret tt) d0 with
          | (Raise e, d1) => (Raise e, d1)
          | (Ok _, d1) =>
              match (if bool_decide ("y" ∈ ds)
                     then gkma_y corr nbins (max_lag + 1) max_lag scale else mret tt) d1 with
              | (Raise e, d2) => (Raise e, d2)
              | (Ok _, d2) =>
                  match (if bool_decide ("z" ∈ ds)
                         then gkma_z corr nbins (max_lag + 1) max_lag scale else mret tt) d2 with
                  | (Raise e, d3) => (Raise e, d3)
                  | (Ok _, d3) =>
                      match d3 !! "tau" with
                      | None => (Raise (KeyError "tau"), d3)
                      | Some t =>
                          let d4 := <["tau" := nd_map (fun v => v /! lit 1e6) t]> d3 in
                          (Ok (if return_data then Some d4 else None), d4)
                      end
                  end
              end
          end
      end
  end.
Proof.
  unfold get_gkma_kappa. rewrite run_bind. unfold lift at 1.
  destruct (gkma_lags _ _ _ _ _ _) as [[[[scale srate] max_lag] tau]|e]; [|done].
  cbv beta iota zeta. rewrite run_bind. unfold setitem at 1. cbv beta iota.
  rewrite run_bind. unfold lift at 1.
  destruct (__get_direction directions) as [ds|e]; [|done]. cbv beta iota.
  rewrite run_bind.
  destruct ((if bool_decide ("x" ∈ ds)
             then gkma_x corr nbins (max_lag + 1) max_lag scale else mret tt)
              (<["tau" := tau]> data)) as [[[]|e] d1]; [|done].
  rewrite run_bind.
  destruct ((if bool_decide ("y" ∈ ds)
             then gkma_y corr nbins (max_lag + 1) max_lag scale else mret tt) d1)
    as [[[]|e] d2]; [|done].
  rewrite run_bind.
  destruct ((if bool_decide ("z" ∈ ds)
             then gkma_z corr nbins (max_lag + 1) max_lag scale else mret tt) d2)
    as [[[]|e] d3]; [|done].
  rewrite run_bind. unfold getitem at 1.
  destruct (d3 !! "tau") as [t|]; [|done].
  reflexivity.
Qed.

Lemma gkma_x_writes nbins size max_lag scale :
  writes_only ["corr_xmi_x"; "corr_xmo_x"; "kmxi"; "kmxo"]
    (gkma_x corr nbins size max_lag scale).
Proof. rewrite gkma_x_in_out. apply gkma_in_out_writes. Qed.

Lemma gkma_y_writes nbins size max_lag scale :
  writes_only ["corr_ymi_y"; "corr_ymo_y"; "kmyi"; "kmyo"]
    (gkma_y corr nbins size max_lag scale).
Proof. rewrite gkma_y_in_out. apply gkma_in_out_writes. Qed.

Lemma stage_writes keys (b : bool) (c : M F unit) :
  writes_only keys c -> writes_only keys (if b then c else mret tt).
Proof. intros Hc. apply writes_only_if; [done|apply writes_only_ret]. Qed.

(** C5, as the code has it.  When the lag axis has been built and the
    direction selector accepted, a requested direction whose channel is
    missing makes the call raise ValueError("<d> direction data is missing")
    at the start of that direction's block: none of that direction's arrays
    is allocated and nothing is returned.  The caller's dictionary has been
    extended in place before that: it holds 'tau' (in femtoseconds), and
    for y and z also everything the blocks of the directions processed
    earlier have written. *)
Theorem get_gkma_kappa_missing_channel
    nbins nsamples dt sample_interval T vol max_tau directions return_data
    (data : gmap string (ndarray F)) scale srate max_lag tau ds :
  gkma_lags nsamples dt sample_interval T vol max_tau = Ok (scale, srate, max_lag, tau) ->
  __get_direction directions = Ok ds ->
  let call := get_gkma_kappa corr __get_direction nbins nsamples dt sample_interval
                T vol max_tau directions return_data data in
  let d0 := <["tau" := tau]> data in
  let stage_x := if bool_decide ("x" ∈ ds)
                 then gkma_x corr nbins (max_lag + 1) max_lag scale else mret tt in
  let stage_y := if bool_decide ("y" ∈ ds)
                 then gkma_y corr nbins (max_lag + 1) max_lag scale else mret tt in
  ("x" ∈ ds -> data !! "jmxi" = None \/ data !! "jmxo" = None ->
     call = (Raise (ValueError "x direction data is missing"), d0)) /\
  ("y" ∈ ds -> data !! "jmyi" = None \/ data !! "jmyo" = None ->
     forall d1, stage_x d0 = (Ok tt, d1) ->
       call = (Raise (ValueError "y direction data is missing"), d1) /\
       d1 !! "tau" = Some tau /\
       (forall k, k ∈ ["corr_ymi_y"; "corr_ymo_y"; "kmyi"; "kmyo"] -> d1 !! k = data !! k)) /\
  ("z" ∈ ds -> data !! "jmz" = None ->
     forall d1 d2, stage_x d0 = (Ok tt, d1) -> stage_y d1 = (Ok tt, d2) ->
       call = (Raise (ValueError "z direction data is missing"), d2) /\
       d2 !! "tau" = Some tau /\
       (forall k, k ∈ ["corr_zm_z"; "kmz"] -> d2 !! k = data !! k)).
Proof.
  intros Hlags Hdir call d0 stage_x stage_y.
  assert (Hcall : call = _) by apply get_gkma_kappa_run.
  rewrite Hlags, Hdir in Hcall. cbv beta iota zeta in Hcall.
  fold d0 stage_x stage_y in Hcall.
  assert (Wx : writes_only ["corr_xmi_x"; "corr_xmo_x"; "kmxi"; "kmxo"] stage_x)
    by apply stage_writes, gkma_x_writes.
  assert (Wy : writes_only ["corr_ymi_y"; "corr_ymo_y"; "kmyi"; "kmyo"] stage_y)
    by apply stage_writes, gkma_y_writes.
  assert (H0 : forall k, k <> "tau" -> d0 !! k = data !! k).
  { intros k Hk. unfold d0. by rewrite lookup_insert_ne. }
  split_and!.
  - intros Hx Hmiss. rewrite Hcall. unfold stage_x.
    rewrite bool_decide_eq_true_2 by done.
    rewrite gkma_x_in_out, gkma_in_out_missing; [done|].
    rewrite !H0 by done. exact Hmiss.
  - intros Hy Hmiss d1 H1.
    pose proof (Wx d0) as Wx1. rewrite H1 in Wx1. cbn [snd] in Wx1.
    split_and!.
    + rewrite Hcall, H1. unfold stage_y.
      rewrite bool_decide_eq_true_2 by done.
      rewrite gkma_y_in_out, gkma_in_out_missing; [done|].
      rewrite !Wx1, !H0 by set_solver. exact Hmiss.
    + rewrite Wx1 by set_solver. unfold d0. by rewrite lookup_insert_eq.
    + intros k Hk. rewrite Wx1, H0 by set_solver. done.
  - intros Hz Hmiss d1 d2 H1 H2.
    pose proof (Wx d0) as Wx1. rewrite H1 in Wx1. cbn [snd] in Wx1.
    pose proof (Wy d1) as Wy1. rewrite H2 in Wy1. cbn [snd] in Wy1.
    split_and!.
    + rewrite Hcall, H1, H2.
      rewrite bool_decide_eq_true_2 by done.
      rewrite gkma_z_missing; [done|].
      rewrite Wy1, Wx1, H0 by set_solver. exact Hmiss.
    + rewrite Wy1, Wx1 by set_solver. unfold d0. by rewrite lookup_insert_eq.
    + intros k Hk. rewrite Wy1, Wx1, H0 by set_solver. done.
Qed.

End Engine2.

Section EngineScenarios.

Lemma get_gkma_kappa_missing_channel_witness :
  get_gkma_kappa corr_spec get_direction_spec 2 5 (ex 1) 1 (ex 300) (ex 1) None "x" true data_z
  = (Raise (ValueError "x direction data is missing"),
     <["tau" := A1 [ex 0; ex 1; ex 2; ex 3; ex 4]]> data_z).
Proof.
  refine (proj1 (get_gkma_kappa_missing_channel corr_spec get_direction_spec
                   2 5 (ex 1) 1 (ex 300) (ex 1) None "x" true data_z
                   (ex (scale_closed_form 1 300)) (ex 1) 4
                   (A1 [ex 0; ex 1; ex 2; ex 3; ex 4]) ["x"] _ _) _ _).
  - vm_compute. reflexivity.
  - vm_compute. reflexivity.
  - apply list_elem_of_here.
  - left. vm_compute. reflexivity.
Defined.

(** The dictionary is changed by a call that raises.  With only the z
    channel and directions = "x", 'tau' has been allocated and stored when
    the error is raised.  With only the x channels and directions = "xz",
    the call raises for z after the whole x block has been computed and
    stored. *)
Lemma get_gkma_kappa_missing_channel_counterexample :
  (let run := get_gkma_kappa corr_spec get_direction_spec 2 5 (ex 1) 1 (ex 300) (ex 1)
                None "x" true data_z in
   data_z !! "tau" = None /\
   run.1 = Raise (ValueError "x direction data is missing") /\
   run.2 !! "tau" = Some (A1 [ex 0; ex 1; ex 2; ex 3; ex 4])) /\
  (let run := get_gkma_kappa corr_spec get_direction_spec 1 5 (ex 1) 1 (ex 300) (ex 1)
                None "xz" true data_x in
   data_x !! "kmxi" = None /\
   run.1 = Raise (ValueError "z direction data is missing") /\
   run.2 !! "corr_xmi_x" = Some (A2 5 [[ex (3#5); ex (1#2); ex (-2#3); ex (-1#2); ex 1]]) /\
   is_Some (run.2 !! "kmxi") /\ is_Some (run.2 !! "kmxo")).
Proof.
  split; cbv zeta; split_and!; try (vm_compute; reflexivity).
  all: apply (bool_decide_unpack _); vm_compute; exact I.
Qed.

End EngineScenarios.

(** ** The lag axis in exact arithmetic *)

Section LagsExact.
Local Open Scope Q_scope.

Lemma nd_flat_squeeze {F} `{PyFloat F} (l : list F) : nd_flat (np_squeeze l) = l.
Proof. by destruct l as [|x [|y t]]. Qed.

Lemma nd_size_squeeze {F} `{PyFloat F} (l : list F) : nd_size (np_squeeze l) = length l.
Proof. by destruct l as [|x [|y t]]. Qed.

Lemma nd_flat_map {F} `{PyFloat F} (f : F -> F) (a : ndarray F) :
  nd_flat (nd_map f a) = map f (nd_flat a).
Proof.
  destruct a as [x|v|nc rows]; cbn; [done..|].
  induction rows as [|r t IH]; cbn; [done|]. by rewrite map_app, IH.
Qed.

Lemma nd_size_map {F} `{PyFloat F} (f : F -> F) (a : ndarray F) :
  nd_size (nd_map f a) = nd_size a.
Proof. destruct a as [x|v|nc rows]; cbn; by rewrite ?length_map. Qed.

(** [np.linspace(0, max_lag * srate, max_lag + 1)] *)
Lemma linspace_exact (srate : Q) (max_lag : Z) :
  (0 <= max_lag + 1)%Z ->
  np_linspace zero (ex (inject_Z max_lag * srate)) (max_lag + 1) =
  Ok (map (fun k => ex (inject_Z (Z.of_nat k) * srate)) (seq 0 (Z.to_nat (max_lag + 1)))).
Proof.
  intros Hn. unfold np_linspace.
  destruct (max_lag + 1 <? 0)%Z eqn:E; [apply Z.ltb_lt in E; lia|]. clear E.
  f_equal. rewrite !map_map.
  replace (max_lag + 1 - 1)%Z with max_lag by lia.
  set (n := Z.to_nat (max_lag + 1)).
  unfold zero. autorewrite with exact_arith.
  destruct (1 <? max_lag + 1)%Z eqn:E1.
  - apply Z.ltb_lt in E1.
    assert (~ inject_Z max_lag == 0) as Hml.
    { intros E. unfold Qeq, inject_Z in E. cbn in E. lia. }
    rewrite lit_div by done. autorewrite with exact_arith.
    assert (forall f : nat -> exact,
              (forall k, f k = ex (inject_Z (Z.of_nat k) * srate)) ->
              <[pred n := ex (inject_Z max_lag * srate)]> (map f (seq 0 n)) =
              map (fun k => ex (inject_Z (Z.of_nat k) * srate)) (seq 0 n)) as Hins.
    { intros f Hf. apply list_eq. intros i.
      destruct (decide (i = pred n)) as [->|Hi].
      - rewrite list_lookup_insert_eq by (rewrite length_map, length_seq; lia).
        rewrite list_lookup_fmap, lookup_seq_lt by lia. cbn.
        f_equal. apply lit_ext. replace (Z.of_nat (pred n)) with max_lag by lia.
        reflexivity.
      - rewrite list_lookup_insert_ne by done. rewrite !list_lookup_fmap.
        destruct (seq 0 n !! i) as [k|]; cbn; [|done]. by rewrite Hf. }
    destruct (Qeq_bool _ 0); rewrite !map_map; apply Hins; intros k; cbv beta;
      autorewrite with exact_arith; rewrite ?lit_div by done;
      autorewrite with exact_arith;
      apply lit_ext; field; done.
  - apply Z.ltb_ge in E1. rewrite !map_map. apply map_ext_in. intros k Hk%in_seq. cbv beta.
    assert (k = 0%nat) as -> by lia.
    autorewrite with exact_arith. apply lit_ext.
    change (inject_Z (Z.of_nat 0)) with 0. ring.
Qed.

Lemma exc_bind_ok {A B} (a : A) (f : A -> exc B) : (Ok a ≫= f) = f a.
Proof. reflexivity. Qed.

Lemma exc_bind_raise {A B} (e : pyexn) (f : A -> exc B) : (Raise e ≫= f) = Raise e.
Proof. reflexivity. Qed.

(** Lines 94-109 in exact arithmetic. *)
Lemma gkma_lags_exact (nsamples : Z) (dt : Q) (sample_interval : Z) (T vol : exact)
    (max_tau : option Q) :
  gkma_lags nsamples (ex dt) sample_interval T vol (ex <$> max_tau) =
  match __scale_gpumd_tc vol T with
  | Raise e => Raise e
  | Ok scale =>
      let srate := inject_Z sample_interval * dt in
      let T_max :=
        match max_tau with
        | None => srate * inject_Z (nsamples - 1)
        | Some t => t * 1e6
        end in
      if Qeq_bool srate 0 then Raise ZeroDivisionError
      else
        let max_lag := Qfloor (T_max / srate) in
        if (max_lag + 1 <? 0)%Z
        then Raise (ValueError ("Number of samples, " +:+ pretty (max_lag + 1)%Z +:+
                                ", must be non-negative."))
        else Ok (scale, ex srate, max_lag,
                 np_squeeze (map (fun k => ex (inject_Z (Z.of_nat k) * srate))
                                 (seq 0 (Z.to_nat (max_lag + 1)))))
  end.
Proof.
  unfold gkma_lags.
  destruct (__scale_gpumd_tc vol T) as [scale|e]; [|done].
  destruct max_tau as [t|]; cbn [fmap option_fmap option_map]; cbv zeta;
    repeat (rewrite exc_bind_ok; autorewrite with exact_arith);
    (destruct (Qeq_bool (inject_Z sample_interval * dt) 0); [done|]);
    repeat (rewrite exc_bind_ok; autorewrite with exact_arith);
    (destruct (_ + 1 <? 0)%Z eqn:E;
      [ unfold np_linspace; by rewrite E
      | apply Z.ltb_ge in E; rewrite linspace_exact by done; by rewrite exc_bind_ok ]).
Qed.

End LagsExact.

(** ** Lines 94-109 for any arithmetic *)

Section Lags.
Context {F : Type} `{PyFloat F}.

(** Once the scale factor, the two conversions, the division and the floor
    have gone through, what is left of lines 94-109 is the call of
    [np.linspace]. *)
Lemma gkma_lags_eq nsamples dt sample_interval T vol max_tau scale si ns q m ml :
  __scale_gpumd_tc vol T = Ok scale ->
  of_int sample_interval = Ok si ->
  of_int (nsamples - 1) = Ok ns ->
  py_div (match max_tau with None => si *! dt *! ns | Some t => t *! lit 1e6 end)
         (si *! dt) = Ok q ->
  ffloor q = Ok m ->
  of_int m = Ok ml ->
  gkma_lags nsamples dt sample_interval T vol max_tau =
  l ← np_linspace zero (ml *! (si *! dt)) (m + 1);
  Ok (scale, si *! dt, m, np_squeeze l).
Proof.
  intros Hs Hsi Hns Hq Hm Hml. unfold gkma_lags.
  rewrite Hs, exc_bind_ok, Hsi, exc_bind_ok. cbv zeta.
  rewrite Hns, exc_bind_ok, Hq, exc_bind_ok, Hm, exc_bind_ok, Hml, exc_bind_ok.
  done.
Qed.

Lemma gkma_lags_inv nsamples dt sample_interval T vol max_tau scale srate max_lag tau :
  gkma_lags nsamples dt sample_interval T vol max_tau = Ok (scale, srate, max_lag, tau) ->
  exists si ns q ml l,
    __scale_gpumd_tc vol T = Ok scale /\
    of_int sample_interval = Ok si /\ srate = si *! dt /\
    of_int (nsamples - 1) = Ok ns /\
    py_div (match max_tau with None => si *! dt *! ns | Some t => t *! lit 1e6 end)
           (si *! dt) = Ok q /\
    ffloor q = Ok max_lag /\
    of_int max_lag = Ok ml /\
    np_linspace zero (ml *! (si *! dt)) (max_lag + 1) = Ok l /\
    tau = np_squeeze l.
Proof.
  unfold gkma_lags. intros Hl.
  destruct (__scale_gpumd_tc vol T) as [sc|]; [|done]. rewrite exc_bind_ok in Hl.
  destruct (of_int sample_interval) as [si|]; [|done]. rewrite exc_bind_ok in Hl.
  cbv zeta in Hl.
  destruct (of_int (nsamples - 1)) as [ns|]; [|done]. rewrite exc_bind_ok in Hl.
  destruct (py_div _ _) as [q|] eqn:Eq; [|done]. rewrite exc_bind_ok in Hl.
  destruct (ffloor q) as [ml|] eqn:Ef; [|done]. rewrite exc_bind_ok in Hl.
  destruct (of_int ml) as [mlf|] eqn:Em; [|done]. rewrite exc_bind_ok in Hl.
  destruct (np_linspace _ _ _) as [l|] eqn:El; [|done]. rewrite exc_bind_ok in Hl.
  injection Hl as <- <- <- <-.
  by exists si, ns, q, mlf, l.
Qed.

(** [np.linspace] puts [stop] itself in the last place. *)
Lemma np_linspace_last (start stop : F) (num : Z) (l : list F) :
  np_linspace start stop num = Ok l -> (1 < num)%Z ->
  l !! Z.to_nat (num - 1) = Some stop.
Proof.
  unfold np_linspace. destruct (num <? 0)%Z; [done|].
  intros [= <-] Hn. assert (1 <? num = true)%Z as -> by (by apply Z.ltb_lt).
  replace (Z.to_nat (num - 1)) with (pred (Z.to_nat num)) by lia.
  apply list_lookup_insert_eq.
  destruct (_ ==! _); rewrite !length_map, length_seq; lia.
Qed.

Lemma np_linspace_length (start stop : F) (num : Z) (l : list F) :
  np_linspace start stop num = Ok l -> (0 <= num)%Z /\ length l = Z.to_nat num.
Proof.
  unfold np_linspace. destruct (num <? 0)%Z eqn:E; [done|]. apply Z.ltb_ge in E.
  intros [= <-]. split; [done|].
  destruct (1 <? num)%Z; [rewrite length_insert; destruct (_ ==! _)|];
    by rewrite !length_map, length_seq.
Qed.

(** The lag axis is the squeezed [linspace] of [max_lag + 1] points. *)
Lemma gkma_lags_axis nsamples dt sample_interval T vol max_tau scale srate max_lag
    (tau : ndarray F) :
  gkma_lags nsamples dt sample_interval T vol max_tau = Ok (scale, srate, max_lag, tau) ->
  (0 <= max_lag + 1)%Z /\
  exists l, tau = np_squeeze l /\ length l = Z.to_nat (max_lag + 1).
Proof.
  unfold gkma_lags. intros Hl.
  destruct (__scale_gpumd_tc vol T) as [sc|]; [|done]. rewrite exc_bind_ok in Hl.
  destruct (of_int sample_interval) as [si|]; [|done]. rewrite exc_bind_ok in Hl.
  destruct (of_int (nsamples - 1)) as [ns|]; [|done]. rewrite exc_bind_ok in Hl.
  destruct (py_div _ _) as [q|]; [|done]. rewrite exc_bind_ok in Hl.
  destruct (ffloor q) as [ml|]; [|done]. rewrite exc_bind_ok in Hl.
  destruct (of_int ml) as [mlf|]; [|done]. rewrite exc_bind_ok in Hl.
  destruct (np_linspace _ _ _) as [l|] eqn:El; [|done]. rewrite exc_bind_ok in Hl.
  injection Hl as <- <- <- <-.
  apply np_linspace_length in El as [Hn Hlen]. split; [done|]. by exists l.
Qed.

End Lags.

(** ** What a call of the engine leaves in the dictionary *)

Section Engine3.
Context {F : Type} `{PyFloat F}.
Variable corr : ndarray F -> ndarray F -> Z -> exc (ndarray F).
Variable __get_direction : string -> exc (list string).

Lemma gkma_x_seeded nbins size max_lag scale d d' :
  gkma_x corr nbins size max_lag scale d = (Ok tt, d') ->
  seeded "kmxi" (Z.to_nat nbins) scale d' /\ seeded "kmxo" (Z.to_nat nbins) scale d'.
Proof.
  rewrite gkma_x_in_out. apply gkma_in_out_seeded.
  apply (bool_decide_unpack _). by vm_compute.
Qed.

Lemma gkma_y_seeded nbins size max_lag scale d d' :
  gkma_y corr nbins size max_lag scale d = (Ok tt, d') ->
  seeded "kmyi" (Z.to_nat nbins) scale d' /\ seeded "kmyo" (Z.to_nat nbins) scale d'.
Proof.
  rewrite gkma_y_in_out. apply gkma_in_out_seeded.
  apply (bool_decide_unpack _). by vm_compute.
Qed.

(** None of the three blocks writes under 'tau': the axis stored at line
    109 is the one every [cumtrapz] of the call reads. *)
Lemma blocks_keep_tau nbins size max_lag scale (d : gmap string (ndarray F)) :
  (gkma_x corr nbins size max_lag scale d).2 !! "tau" = d !! "tau" /\
  (gkma_y corr nbins size max_lag scale d).2 !! "tau" = d !! "tau" /\
  (gkma_z corr nbins size max_lag scale d).2 !! "tau" = d !! "tau".
Proof.
  split_and!.
  - apply gkma_x_writes. set_solver.
  - apply gkma_y_writes. set_solver.
  - apply gkma_z_writes. set_solver.
Qed.

(** A call that completes. *)
Lemma get_gkma_kappa_ok nbins nsamples dt sample_interval T vol max_tau directions
    return_data (data data' : gmap string (ndarray F)) r :
  get_gkma_kappa corr __get_direction nbins nsamples dt sample_interval T vol
    max_tau directions return_data data = (Ok r, data') ->
  exists scale srate max_lag tau ds,
    gkma_lags nsamples dt sample_interval T vol max_tau = Ok (scale, srate, max_lag, tau) /\
    __get_direction directions = Ok ds /\
    data' !! "tau" = Some (nd_map (fun v => v /! lit 1e6) tau) /\
    r = (if return_data then Some data' else None) /\
    ("x" ∈ ds -> seeded "kmxi" (Z.to_nat nbins) scale data' /\
                 seeded "kmxo" (Z.to_nat nbins) scale data') /\
    ("y" ∈ ds -> seeded "kmyi" (Z.to_nat nbins) scale data' /\
                 seeded "kmyo" (Z.to_nat nbins) scale data') /\
    ("z" ∈ ds -> seeded "kmz" (Z.to_nat nbins) scale data').
Proof.
  rewrite get_gkma_kappa_run.
  destruct (gkma_lags _ _ _ _ _ _) as [[[[scale srate] max_lag] tau]|e]; [|done].
  destruct (__get_direction directions) as [ds|e]; [|done]. cbv zeta.
  set (d0 := <["tau" := tau]> data).
  set (sx := if bool_decide ("x" ∈ ds) then _ else _).
  set (sy := if bool_decide ("y" ∈ ds) then _ else _).
  set (sz := if bool_decide ("z" ∈ ds) then _ else _).
  assert (Wx : writes_only ["corr_xmi_x"; "corr_xmo_x"; "kmxi"; "kmxo"] sx)
    by apply stage_writes, gkma_x_writes.
  assert (Wy : writes_only ["corr_ymi_y"; "corr_ymo_y"; "kmyi"; "kmyo"] sy)
    by apply stage_writes, gkma_y_writes.
  assert (Wz : writes_only ["corr_zm_z"; "kmz"] sz)
    by apply stage_writes, gkma_z_writes.
  destruct (sx d0) as [[[]|e] d1] eqn:E1; [|done].
  destruct (sy d1) as [[[]|e] d2] eqn:E2; [|done].
  destruct (sz d2) as [[[]|e] d3] eqn:E3; [|done].
  specialize (Wx d0). rewrite E1 in Wx. cbn [snd] in Wx.
  specialize (Wy d1). rewrite E2 in Wy. cbn [snd] in Wy.
  specialize (Wz d2). rewrite E3 in Wz. cbn [snd] in Wz.
  assert (d3 !! "tau" = Some tau) as ->.
  { rewrite Wz, Wy, Wx by set_solver. unfold d0. by rewrite lookup_insert_eq. }
  intros [= <- <-].
  exists scale, srate, max_lag, tau, ds. split_and!; try done.
  - by rewrite lookup_insert_eq.
  - intros Hx. unfold sx in E1. rewrite bool_decide_eq_true_2 in E1 by done.
    apply gkma_x_seeded in E1 as [Hi Ho].
    split; (eapply seeded_frame; [|eassumption]);
      rewrite lookup_insert_ne by done; rewrite Wz, Wy by set_solver; done.
  - intros Hy. unfold sy in E2. rewrite bool_decide_eq_true_2 in E2 by done.
    apply gkma_y_seeded in E2 as [Hi Ho].
    split; (eapply seeded_frame; [|eassumption]);
      rewrite lookup_insert_ne by done; rewrite Wz by set_solver; done.
  - intros Hz. unfold sz in E3. rewrite bool_decide_eq_true_2 in E3 by done.
    apply gkma_z_seeded in E3.
    eapply seeded_frame; [|eassumption]. by rewrite lookup_insert_ne.
Qed.

(** Whatever the outcome, once the lag axis has been built the dictionary
    holds it, rescaled if the call ran to its end. *)
Lemma get_gkma_kappa_tau_stored nbins nsamples dt sample_interval T vol max_tau directions
    return_data (data : gmap string (ndarray F)) scale srate max_lag tau :
  gkma_lags nsamples dt sample_interval T vol max_tau = Ok (scale, srate, max_lag, tau) ->
  let call := get_gkma_kappa corr __get_direction nbins nsamples dt sample_interval T vol
                max_tau directions return_data data in
  call.2 !! "tau" = Some tau \/
  call.2 !! "tau" = Some (nd_map (fun v => v /! lit 1e6) tau).
Proof.
  intros Hlags call. unfold call. rewrite get_gkma_kappa_run, Hlags.
  destruct (__get_direction directions) as [ds|e];
    [|left; cbn; by rewrite lookup_insert_eq]. cbv zeta.
  set (d0 := <["tau" := tau]> data).
  set (sx := if bool_decide ("x" ∈ ds) then _ else _).
  set (sy := if bool_decide ("y" ∈ ds) then _ else _).
  set (sz := if bool_decide ("z" ∈ ds) then _ else _).
  assert (Wx : writes_only ["corr_xmi_x"; "corr_xmo_x"; "kmxi"; "kmxo"] sx)
    by apply stage_writes, gkma_x_writes.
  assert (Wy : writes_only ["corr_ymi_y"; "corr_ymo_y"; "kmyi"; "kmyo"] sy)
    by apply stage_writes, gkma_y_writes.
  assert (Wz : writes_only ["corr_zm_z"; "kmz"] sz)
    by apply stage_writes, gkma_z_writes.
  assert (H0 : d0 !! "tau" = Some tau) by (unfold d0; by rewrite lookup_insert_eq).
  specialize (Wx d0 "tau"). destruct (sx d0) as [[[]|e] d1]; cbn [snd] in *;
    [|left; rewrite Wx by set_solver; done].
  specialize (Wy d1 "tau"). destruct (sy d1) as [[[]|e] d2]; cbn [snd] in *;
    [|left; rewrite Wy, Wx by set_solver; done].
  specialize (Wz d2 "tau"). destruct (sz d2) as [[[]|e] d3]; cbn [snd] in *;
    [|left; rewrite Wz, Wy, Wx by set_solver; done].
  assert (d3 !! "tau" = Some tau) as -> by (rewrite Wz, Wy, Wx by set_solver; done).
  right. cbn. by rewrite lookup_insert_eq.
Qed.

End Engine3.

(** ** The lag axis and the zero seed for any arithmetic *)

Section LagAxis.
Context {F : Type} `{PyFloat F}.
Variable corr : ndarray F -> ndarray F -> Z -> exc (ndarray F).
Variable __get_direction : string -> exc (list string).

(** The lag axis of a call that completes, for any arithmetic. *)
Lemma lag_axis_any nbins nsamples dt sample_interval T vol max_tau directions
    return_data (data data' : gmap string (ndarray F)) r :
  get_gkma_kappa corr __get_direction nbins nsamples dt sample_interval T vol
    max_tau directions return_data data = (Ok r, data') ->
  exists si ns q max_lag ml l,
    of_int sample_interval = Ok si /\
    of_int (nsamples - 1) = Ok ns /\
    py_div (match max_tau with None => si *! dt *! ns | Some t => t *! lit 1e6 end)
           (si *! dt) = Ok q /\
    ffloor q = Ok max_lag /\
    of_int max_lag = Ok ml /\
    np_linspace zero (ml *! (si *! dt)) (max_lag + 1) = Ok l /\
    (0 <= max_lag + 1)%Z /\
    length l = Z.to_nat (max_lag + 1) /\
    ((1 <= max_lag)%Z -> l !! Z.to_nat max_lag = Some (ml *! (si *! dt))) /\
    (forall nb size m sc d,
       (gkma_x corr nb size m sc d).2 !! "tau" = d !! "tau" /\
       (gkma_y corr nb size m sc d).2 !! "tau" = d !! "tau" /\
       (gkma_z corr nb size m sc d).2 !! "tau" = d !! "tau") /\
    data' !! "tau" = Some (nd_map (fun v => v /! lit 1e6) (np_squeeze l)) /\
    nd_size (nd_map (fun v => v /! lit 1e6) (np_squeeze l)) = Z.to_nat (max_lag + 1) /\
    nd_flat (nd_map (fun v => v /! lit 1e6) (np_squeeze l)) = map (fun v => v /! lit 1e6) l.
Proof.
  intros Hrun.
  apply get_gkma_kappa_ok in Hrun
    as (scale & srate & max_lag & tau & ds & Hlags & _ & Htau & _).
  apply gkma_lags_inv in Hlags
    as (si & ns & q & ml & l & _ & Hsi & -> & Hns & Hq & Hf & Hml & Hl & ->).
  pose proof (np_linspace_length _ _ _ _ Hl) as [Hn Hlen].
  exists si, ns, q, max_lag, ml, l. split_and!; try done.
  - intros Hm. pose proof (np_linspace_last _ _ _ _ Hl) as Hlast.
    replace (max_lag + 1 - 1)%Z with max_lag in Hlast by lia. apply Hlast. lia.
  - intros nb size m sc d. apply blocks_keep_tau.
  - by rewrite nd_size_map, nd_size_squeeze.
  - by rewrite nd_flat_map, nd_flat_squeeze.
Qed.

(** Row [m] of every conductivity array of a direction asked for starts
    with [0 * scale], for any arithmetic. *)
Lemma zero_seed_any nbins nsamples dt sample_interval T vol max_tau directions
    return_data (data data' : gmap string (ndarray F)) r ds key m :
  get_gkma_kappa corr __get_direction nbins nsamples dt sample_interval T vol
    max_tau directions return_data data = (Ok r, data') ->
  __get_direction directions = Ok ds ->
  key ∈ conductivity_keys ds -> (Z.of_nat m < nbins)%Z ->
  exists scale n rows row,
    __scale_gpumd_tc vol T = Ok scale /\
    data' !! key = Some (A2 n rows) /\ rows !! m = Some row /\
    row !! 0%nat = Some (zero *! scale).
Proof.
  intros Hrun Hds Hkey Hm.
  apply get_gkma_kappa_ok in Hrun
    as (scale & srate & max_lag & tau & ds' & Hlags & Hds' & _ & _ & Hx & Hy & Hz).
  rewrite Hds in Hds'. injection Hds' as <-.
  apply gkma_lags_inv in Hlags as (si & ns & q & ml & l & Hsc & _).
  assert (seeded key (Z.to_nat nbins) scale data') as Hs.
  { unfold conductivity_keys in Hkey.
    apply elem_of_app in Hkey as [Hkey|Hkey]; [|apply elem_of_app in Hkey as [Hkey|Hkey]].
    - case_bool_decide as Hd; [|set_solver]. destruct (Hx Hd).
      apply elem_of_cons in Hkey as [->|Hkey]; [done|].
      apply elem_of_cons in Hkey as [->|Hkey]; [done|set_solver].
    - case_bool_decide as Hd; [|set_solver]. destruct (Hy Hd).
      apply elem_of_cons in Hkey as [->|Hkey]; [done|].
      apply elem_of_cons in Hkey as [->|Hkey]; [done|set_solver].
    - case_bool_decide as Hd; [|set_solver].
      apply elem_of_cons in Hkey as [->|Hkey]; [by apply Hz|set_solver]. }
  destruct (Hs m) as (n & rows & row & Hk & Hrow & H0); [lia|].
  by exists scale, n, rows, row.
Qed.

End LagAxis.

(** ** The engine in exact arithmetic *)

Section EngineExact.
Local Open Scope Q_scope.
Variable corr : ndarray exact -> ndarray exact -> Z -> exc (ndarray exact).
Variable __get_direction : string -> exc (list string).

(** In exact arithmetic, for a call of [get_gkma_kappa] that
    completes: with [T_max = sample_interval * dt * (nsamples - 1)] when
    [max_tau] is None and [max_tau * 1e6] otherwise, and
    [max_lag = floor(T_max / (sample_interval * dt))], the axis built at
    line 109 has the elements [k * sample_interval * dt] for
    [k = 0 .. max_lag], none of the three direction blocks writes under
    'tau', and the array found under 'tau' after the call is that axis
    divided by 1e6: it has [max_lag + 1] elements, the k-th being
    [k * sample_interval * dt / 1e6].  (For [max_lag = 0] the axis is the
    zero-dimensional array that [np.squeeze] makes of a single element.) *)
Lemma lag_axis_exact
    nbins nsamples (dt : Q) sample_interval (T vol : exact) (max_tau : option Q)
    directions return_data (data data' : gmap string (ndarray exact)) r :
  get_gkma_kappa corr __get_direction nbins nsamples (ex dt) sample_interval T vol
    (ex <$> max_tau) directions return_data data = (Ok r, data') ->
  let srate := inject_Z sample_interval * dt in
  let T_max :=
    match max_tau with
    | None => srate * inject_Z (nsamples - 1)
    | Some t => t * 1e6
    end in
  let max_lag := Qfloor (T_max / srate) in
  (0 <= max_lag + 1)%Z /\
  exists scale tau_fs tau,
    gkma_lags nsamples (ex dt) sample_interval T vol (ex <$> max_tau)
      = Ok (scale, ex srate, max_lag, tau_fs) /\
    nd_flat tau_fs =
      map (fun k => of_Z (Z.of_nat k) *! of_Z sample_interval *! ex dt)
          (seq 0 (Z.to_nat (max_lag + 1))) /\
    (forall nb size ml sc d,
       (gkma_x corr nb size ml sc d).2 !! "tau" = d !! "tau" /\
       (gkma_y corr nb size ml sc d).2 !! "tau" = d !! "tau" /\
       (gkma_z corr nb size ml sc d).2 !! "tau" = d !! "tau") /\
    data' !! "tau" = Some tau /\
    tau = nd_map (fun v => v /! lit 1e6) tau_fs /\
    nd_size tau = Z.to_nat (max_lag + 1) /\
    nd_flat tau =
      map (fun k => of_Z (Z.of_nat k) *! of_Z sample_interval *! ex dt /! lit 1e6)
          (seq 0 (Z.to_nat (max_lag + 1))).
Proof.
  intros Hrun srate T_max max_lag.
  apply get_gkma_kappa_ok in Hrun
    as (scale & srate' & max_lag' & tau & ds & Hlags & _ & Htau & _).
  rewrite gkma_lags_exact in Hlags.
  destruct (__scale_gpumd_tc vol T) as [sc|e] eqn:Es; [|done].
  cbv zeta in Hlags. fold srate T_max in Hlags.
  destruct (Qeq_bool srate 0) eqn:E0; [done|]. fold max_lag in Hlags.
  destruct (max_lag + 1 <? 0)%Z eqn:E1; [done|]. apply Z.ltb_ge in E1.
  injection Hlags as <- <- <- <-.
  split; [done|].
  set (l := map (fun k => ex (inject_Z (Z.of_nat k) * srate)) (seq 0 (Z.to_nat (max_lag + 1)))).
  exists sc, (np_squeeze l), (nd_map (fun v => v /! lit 1e6) (np_squeeze l)).
  split_and!.
  4: exact Htau.
  4: reflexivity.
  - rewrite gkma_lags_exact, Es. cbv zeta. fold srate T_max. rewrite E0.
    fold max_lag. destruct (max_lag + 1 <? 0)%Z eqn:E2; [apply Z.ltb_lt in E2; lia|done].
  - rewrite nd_flat_squeeze. unfold l. apply map_ext. intros k.
    autorewrite with exact_arith. apply lit_ext. unfold srate. ring.
  - intros nb size ml sc' d. apply blocks_keep_tau.
  - rewrite nd_size_map, nd_size_squeeze. unfold l. by rewrite length_map, length_seq.
  - rewrite nd_flat_map, nd_flat_squeeze. unfold l. rewrite map_map.
    apply map_ext. intros k. autorewrite with exact_arith.
    rewrite !lit_div by (by apply Qeq_bool_false).
    apply lit_ext. unfold srate. field.
    intros E. vm_compute in E. discriminate E.
Qed.

End EngineExact.

Section EngineExactScenarios.

Lemma run_z_completes : run_z = (Ok (Some run_z.2), run_z.2).
Proof. vm_compute. reflexivity. Qed.

End EngineExactScenarios.

(** ** The lag axis, the zero seed and an unchecked [max_tau] *)

Section LagAxisClaims.
Local Open Scope Q_scope.


End LagAxisClaims.

Section LagAxisScenarios.
Local Open Scope float_scope.



End LagAxisScenarios.

Section ZeroSeedClaims.

(** C2, as the code has it.  When a call of [get_gkma_kappa] completes,
    every accumulated-conductivity array of a requested direction ('kmxi'
    and 'kmxo' for x, 'kmyi' and 'kmyo' for y, 'kmz' for z) is in the
    dictionary as a two-dimensional array, and each of its rows [m < nbins]
    has at lag index 0 the product [0 * scale] of the zero seed of
    [cumtrapz] and the factor that [__scale_gpumd_tc] returned; nothing is
    assumed about the heat currents, nor about what [corr] returns.  On
    binary64 that product is a zero (0.0 or -0.0) when the factor is finite,
    and NaN when it is not. *)
Theorem get_gkma_kappa_zero_seed :
  (forall (F : Type) (PF : PyFloat F)
          (corr : ndarray F -> ndarray F -> Z -> exc (ndarray F))
          (__get_direction : string -> exc (list string))
          (nbins nsamples : Z) (dt : F) (sample_interval : Z) (T vol : F)
          (max_tau : option F) (directions : string) (return_data : bool)
          (data data' : gmap string (ndarray F)) r ds key m,
     get_gkma_kappa corr __get_direction nbins nsamples dt sample_interval T vol
       max_tau directions return_data data = (Ok r, data') ->
     __get_direction directions = Ok ds ->
     key ∈ conductivity_keys ds -> (Z.of_nat m < nbins)%Z ->
     exists scale n rows row,
       __scale_gpumd_tc vol T = Ok scale /\
       data' !! key = Some (A2 n rows) /\ rows !! m = Some row /\
       row !! 0%nat = Some (zero *! scale)) /\
  (forall scale : float,
     (PrimFloat.is_finite scale = true -> (zero *! scale ==! zero) = true) /\
     (PrimFloat.is_finite scale = false -> zero *! scale = nan)).
Proof.
  split.
  - intros F PF corr gd. apply zero_seed_any.
  - apply zero_mul_binary64.
Qed.

End ZeroSeedClaims.

Section ZeroSeedScenarios.
Local Open Scope float_scope.

Lemma get_gkma_kappa_zero_seed_witness :
  let run := get_gkma_kappa corr_spec get_direction_spec 2 4 0.1 1 300 1 None "z" true
               data_z64 in
  exists n rows row,
    run.2 !! "kmz" = Some (A2 n rows) /\ rows !! 1%nat = Some row /\
    row !! 0%nat = Some 0.
Proof.
  cbv zeta.
  destruct (proj1 get_gkma_kappa_zero_seed float binary64 corr_spec get_direction_spec
              2%Z 4%Z 0.1 1%Z 300 1 None "z" true data_z64
              (get_gkma_kappa corr_spec get_direction_spec 2 4 0.1 1 300 1 None "z" true
                 data_z64).2
              (Some (get_gkma_kappa corr_spec get_direction_spec 2 4 0.1 1 300 1 None "z"
                       true data_z64).2)
              ["z"] "kmz" 1%nat)
    as (scale & n & rows & row & Hs & Hk & Hr & H0).
  - vm_compute. reflexivity.
  - reflexivity.
  - apply (bool_decide_unpack _). by vm_compute.
  - lia.
  - exists n, rows, row. split_and!; [exact Hk|exact Hr|].
    rewrite H0. vm_compute in Hs. injection Hs as <-. vm_compute. reflexivity.
Defined.

(** A call on binary64 that completes with NaN at lag index 0.  With
    T = 1e-151 and vol = 1 the product [T * T * vol] is not zero, the
    division overflows, the factor is infinite, and [0 * scale] is NaN in
    every row of 'kmz'. *)
Lemma get_gkma_kappa_zero_seed_counterexample :
  let run := get_gkma_kappa corr_spec get_direction_spec 2 4 1 1 1e-151 1 None "z" true
               data_z64 in
  __scale_gpumd_tc 1 1e-151 = Ok infinity /\
  run.1 = Ok (Some run.2) /\
  run.2 !! "kmz" =
    Some (A2 4 [[nan; infinity; infinity; neg_infinity];
                [nan; infinity; neg_infinity; neg_infinity]]) /\
  (nan =? 0) = false.
Proof. cbv zeta. split_and!; vm_compute; reflexivity. Qed.

End ZeroSeedScenarios.

Section NegativeMaxTau.
Context {F : Type} `{PyFloat F}.
Variable corr : ndarray F -> ndarray F -> Z -> exc (ndarray F).
Variable __get_direction : string -> exc (list string).


End NegativeMaxTau.

Section NegativeMaxTauScenarios.
Local Open Scope float_scope.



End NegativeMaxTauScenarios.

(** * Further properties *)

(** ** Group assignment: results, tags and counts *)

Section GroupsMore.
Context {F : Type} `{PyFloat F}.

(** X1.  [__get_group] never raises; it returns -1 or the index of an interval
    of [split], and it prints its message exactly when it returns -1. *)
Theorem get_group_result (split : list F) (pos : F * F * F) (direction : string) :
  exists g : Z,
    __get_group split pos direction
      = Ok (g, if (g =? -1)%Z then [coordinate pos direction] else []) /\
    (g = -1 \/ 0 <= g < Z.of_nat (length split) - 1)%Z.
Proof.
  unfold __get_group. rewrite enumerate_zip.
  destruct (group_scan_total split (coordinate pos direction)
              (take (pred (length split)) split) 0)
    as (r & -> & Hcase).
  { rewrite length_take. lia. }
  rewrite length_take in Hcase. cbn [mbind exc_bind].
  destruct Hcase as [->|[->|(i & -> & Hi)]].
  - exists (-1)%Z. split; [done|by left].
  - exists (-1)%Z. split; [done|by left].
  - exists (Z.of_nat i). split; [|right; lia].
    destruct (Z.of_nat i =? -1)%Z eqn:E; [apply Z.eqb_eq in E; lia|done].
Qed.

(** The scan returns the first interval that accepts [d]. *)
Lemma group_scan_found (split : list F) (d : F) (i : nat) (a b : F) (l : list F) (k : nat) :
  split !! i = Some a -> split !! S i = Some b ->
  (d >=! a) = true -> (d <! b) = true ->
  (forall v, split !! 0%nat = Some v -> (d <! v) = false) ->
  (forall j v w, j < i -> split !! j = Some v -> split !! S j = Some w ->
                 (d >=! v) = true -> (d <! w) = false) ->
  (forall j v, l !! j = Some v -> split !! (k + j)%nat = Some v) ->
  k <= i < k + length l ->
  group_scan split d (zip (seq k (length l)) l) = Ok (Some (false, Z.of_nat i)).
Proof.
  intros Ha Hb Hge Hlt H0 Hbefore. revert k.
  induction l as [|v t IH]; intros k Hl Hk; [cbn in Hk; lia|].
  cbn [length seq zip zip_with group_scan] in *.
  assert (split !! k = Some v) as Hv.
  { specialize (Hl 0%nat v eq_refl). by rewrite Nat.add_0_r in Hl. }
  assert ((k =? 0)%nat && (d <! v) = false) as ->.
  { destruct (k =? 0)%nat eqn:Ek; [|done]. apply Nat.eqb_eq in Ek. subst k.
    cbn. by apply H0. }
  destruct (decide (k = i)) as [->|Hne].
  - rewrite Hv in Ha. injection Ha as ->. by rewrite Hge, Hb, Hlt.
  - assert (group_scan split d (zip (seq (S k) (length t)) t)
            = Ok (Some (false, Z.of_nat i))) as Hrest.
    { apply IH; [|lia]. intros j w Hw. specialize (Hl (S j) w Hw).
      by replace (S k + j)%nat with (k + S j)%nat by lia. }
    destruct (d >=! v) eqn:Ege; [|done].
    destruct (split !! S k) as [nxt|] eqn:En.
    + by rewrite (Hbefore k v nxt) by (done || lia).
    + apply lookup_ge_None in En. apply lookup_lt_Some in Hb. lia.
Qed.

End GroupsMore.

Section GroupsMoreExact.

Lemma exact_ge_not_lt (d a : exact) : (d >=! a) = true -> (d <! a) = false.
Proof.
  destruct d as [q|], a as [x|]; cbn; try done.
  intros Hle. by rewrite Hle.
Qed.

(** X2.  For boundaries in non-decreasing order, a coordinate inside the
    interval [split[i] <= d < split[i+1]] gets the group [i], and nothing is
    printed. *)
Theorem get_group_in_range (split : list exact) (pos : exact * exact * exact)
    (direction : string) (i : nat) (a b : exact) :
  nondecreasing split = true ->
  split !! i = Some a -> split !! S i = Some b ->
  (coordinate pos direction >=! a) = true ->
  (coordinate pos direction <! b) = true ->
  __get_group split pos direction = Ok (Z.of_nat i, []).
Proof.
  intros Hs Ha Hb Hge Hlt. set (d := coordinate pos direction) in *.
  assert (forall j w, j <= i -> split !! j = Some w -> (d <! w) = false) as Hlow.
  { intros j w Hj Hw. destruct (decide (j = i)) as [->|Hne].
    - rewrite Ha in Hw. injection Hw as <-. by apply exact_ge_not_lt.
    - apply exact_not_below with a; [|by apply exact_ge_not_lt].
      apply (nondecreasing_chain split j i); [done|lia|done|done]. }
  unfold __get_group. rewrite enumerate_zip. fold d.
  rewrite (group_scan_found split d i a b _ 0 Ha Hb Hge Hlt); [done|..].
  - intros v Hv. apply (Hlow 0%nat); [lia|done].
  - intros j v w Hj _ Hw _. apply (Hlow (S j)); [lia|done].
  - intros j v Hv. apply lookup_take_Some in Hv. by destruct Hv.
  - rewrite length_take. apply lookup_lt_Some in Hb. lia.
Qed.

Lemma get_group_in_range_witness :
  __get_group sample_split (ex 7, ex 0, ex 0) "x" = Ok (1%Z, []).
Proof.
  exact (get_group_in_range sample_split (ex 7, ex 0, ex 0) "x" 1 (ex 5) (ex 10)
           eq_refl eq_refl eq_refl eq_refl eq_refl).
Defined.

End GroupsMoreExact.

Section CountsMore.
Context {F : Type} `{PyFloat F}.

Lemma sum_indicator (s n k : nat) :
  foldr Z.add 0%Z (map (fun j => if decide (s = j) then 1%Z else 0%Z) (seq k n))
  = if decide (k <= s < k + n) then 1%Z else 0%Z.
Proof.
  revert k. induction n as [|n IH]; intros k; cbn [seq map foldr].
  - rewrite decide_False by lia. done.
  - rewrite IH. repeat case_decide; lia.
Qed.

Lemma sum_pointwise (f g : nat -> Z) (l : list nat) :
  foldr Z.add 0%Z (map (fun j => (f j + g j)%Z) l)
  = (foldr Z.add 0%Z (map f l) + foldr Z.add 0%Z (map g l))%Z.
Proof. induction l as [|x t IH]; cbn; [done|]. rewrite IH. lia. Qed.

Lemma landed_cons split direction j a (l : list (atom F)) :
  landed split direction j (a :: l) =
  (landed split direction j l +
   if decide (slot (pred (length split)) (group_of split direction a) = j) then 1 else 0)%Z.
Proof.
  unfold landed. rewrite filter_cons. case_decide; cbn [length]; lia.
Qed.

Lemma landed_total (split : list F) (direction : string) (atoms : list (atom F)) :
  2 <= length split ->
  foldr Z.add 0%Z (map (fun j => landed split direction j atoms)
                       (seq 0 (pred (length split))))
  = Z.of_nat (length atoms).
Proof.
  intros Hs. induction atoms as [|a l IH].
  - cbn [length]. induction (seq 0 (pred (length split))) as [|x t IHt]; cbn; [done|].
    rewrite IHt. unfold landed. by rewrite filter_nil.
  - rewrite (map_ext _ _ (fun j => landed_cons split direction j a l)).
    rewrite (sum_pointwise (fun j => landed split direction j l)), IH.
    rewrite (sum_indicator _ _ 0).
    destruct (get_group_total split (position a) direction) as (g & out & Hg & Hr).
    assert (group_of split direction a = g) as -> by (unfold group_of; by rewrite Hg).
    destruct (py_index_slot (pred (length split)) g) as (_ & Hlt & _); [lia|lia|].
    rewrite decide_True by lia. cbn [length]. lia.
Qed.

(** X4.  With at least two boundaries [assign_groups] completes for every list
    of atoms: the positions are as before, every tag is -1 or the index of
    an interval, there is one count per interval, and the counts add up to
    the number of atoms. *)
Theorem assign_groups_counts_all (split : list F) (atoms : list (atom F)) (direction : string) :
  2 <= length split ->
  exists counts st,
    assign_groups split atoms direction = (Ok counts, st) /\
    gs_counts st = counts /\
    length counts = (length split - 1)%nat /\
    foldr Z.add 0%Z counts = Z.of_nat (length atoms) /\
    map position (gs_atoms st) = map position atoms /\
    Forall (fun a => tag a = (-1)%Z \/ (0 <= tag a < Z.of_nat (length split) - 1)%Z)
           (gs_atoms st).
Proof.
  intros Hs.
  destruct (assign_groups_run split atoms direction Hs)
    as (counts & st & Hrun & Hc & Hat & Hn & Hcnt).
  exists counts, st. split_and!; [done|done|lia| | |].
  - replace counts with (map (fun j => landed split direction j atoms)
                             (seq 0 (pred (length split)))); [by apply landed_total|].
    apply list_eq. intros j. rewrite list_lookup_fmap.
    destruct (decide (j < pred (length split))) as [Hj|Hj].
    + rewrite lookup_seq_lt by done. cbn. by rewrite Hcnt.
    + rewrite lookup_seq_ge by lia. cbn. symmetry. apply lookup_ge_None. lia.
  - rewrite Hat. unfold tagged. rewrite map_map. by apply map_ext.
  - rewrite Hat. unfold tagged. apply Forall_fmap, Forall_forall. intros a _. cbn.
    destruct (get_group_total split (position a) direction) as (g & out & Hg & Hr).
    assert (group_of split direction a = g) as -> by (unfold group_of; by rewrite Hg).
    lia.
Qed.

(** X5.  With fewer than two boundaries [counts] is the empty list: the first
    atom gets the tag -1, and [counts[-1] += 1] raises IndexError with that
    tag already set; no other atom is touched.  Without atoms the call
    returns the empty list. *)
Theorem assign_groups_short_split (split : list F) (atoms : list (atom F)) (direction : string) :
  length split <= 1 ->
  assign_groups split atoms direction =
  match atoms with
  | [] => (Ok [], GroupsState [] [] [])
  | a :: rest =>
      (Raise IndexError,
       GroupsState (Atom (position a) (-1) :: rest) []
                   [coordinate (position a) direction])
  end.
Proof.
  intros Hs. unfold assign_groups.
  replace (Z.to_nat (Z.of_nat (length split) - 1)) with 0%nat by lia.
  destruct atoms as [|a rest]; [done|].
  cbn [length seq assign_loop replicate]. unfold assign_one.
  cbn [gs_atoms lookup list_lookup].
  assert (__get_group split (position a) direction
          = Ok ((-1)%Z, [coordinate (position a) direction])) as ->.
  { unfold __get_group.
    replace (take (pred (length split)) split) with (@nil F); [done|].
    destruct split as [|s [|s' t]]; cbn in *; [done|done|lia]. }
  done.
Qed.

End CountsMore.

Section CountsMoreWitnesses.

Lemma assign_groups_counts_all_witness :
  exists counts st,
    assign_groups sample_split sample_atoms "y" = (Ok counts, st) /\
    foldr Z.add 0%Z counts = 3%Z.
Proof.
  destruct (assign_groups_counts_all sample_split sample_atoms "y" ltac:(cbn; lia))
    as (counts & st & Hrun & _ & _ & Hsum & _).
  exists counts, st. split; [exact Hrun|exact Hsum].
Defined.

Lemma assign_groups_short_split_witness :
  assign_groups [ex 5] [Atom (ex 1, ex 0, ex 0) 0; Atom (ex 9, ex 0, ex 0) 0] "x" =
  (Raise IndexError,
   GroupsState [Atom (ex 1, ex 0, ex 0) (-1); Atom (ex 9, ex 0, ex 0) 0] [] [ex 1]).
Proof.
  exact (assign_groups_short_split [ex 5]
           [Atom (ex 1, ex 0, ex 0) 0; Atom (ex 9, ex 0, ex 0) 0] "x" ltac:(cbn; lia)).
Defined.

End CountsMoreWitnesses.

(** ** The engine: what a call writes and what it returns *)

Section EngineMore.
Context {F : Type} `{PyFloat F}.
Variable corr : ndarray F -> ndarray F -> Z -> exc (ndarray F).
Variable __get_direction : string -> exc (list string).

Lemma stage_keeps (keys : list string) (b : bool) (c : M F unit) (k : string)
    (d : gmap string (ndarray F)) :
  writes_only keys c -> (b = true -> k ∉ keys) ->
  ((if b then c else mret tt) d).2 !! k = d !! k.
Proof. intros Hc Hk. destruct b; [apply Hc; by apply Hk|done]. Qed.

(** X10.  Whether the call completes or raises, the only entries of the
    dictionary that can differ afterwards are 'tau' and the correlation and
    conductivity arrays of the directions asked for; the heat-current
    channels and every other entry are as before. *)
Theorem get_gkma_kappa_frame nbins nsamples dt sample_interval T vol max_tau directions
    return_data (data : gmap string (ndarray F)) (k : string) :
  let call := get_gkma_kappa corr __get_direction nbins nsamples dt sample_interval T vol
                max_tau directions return_data data in
  k <> "tau" ->
  (forall ds, __get_direction directions = Ok ds ->
     ("x" ∈ ds -> k ∉ ["corr_xmi_x"; "corr_xmo_x"; "kmxi"; "kmxo"]) /\
     ("y" ∈ ds -> k ∉ ["corr_ymi_y"; "corr_ymo_y"; "kmyi"; "kmyo"]) /\
     ("z" ∈ ds -> k ∉ ["corr_zm_z"; "kmz"])) ->
  call.2 !! k = data !! k.
Proof.
  intros call Hk Hds. unfold call. rewrite get_gkma_kappa_run.
  destruct (gkma_lags _ _ _ _ _ _) as [[[[scale srate] max_lag] tau]|e]; [|done].
  destruct (__get_direction directions) as [ds|e];
    [|cbn; by rewrite lookup_insert_ne].
  cbv zeta. destruct (Hds ds eq_refl) as (Hx & Hy & Hz).
  set (d0 := <["tau" := tau]> data).
  set (sx := if bool_decide ("x" ∈ ds) then _ else _).
  set (sy := if bool_decide ("y" ∈ ds) then _ else _).
  set (sz := if bool_decide ("z" ∈ ds) then _ else _).
  assert (H0 : d0 !! k = data !! k) by (unfold d0; by rewrite lookup_insert_ne).
  assert (Wx : forall d, (sx d).2 !! k = d !! k).
  { intros d. apply stage_keeps with (keys := ["corr_xmi_x"; "corr_xmo_x"; "kmxi"; "kmxo"]);
      [apply gkma_x_writes|]. intros Hb. apply Hx. by apply bool_decide_eq_true in Hb. }
  assert (Wy : forall d, (sy d).2 !! k = d !! k).
  { intros d. apply stage_keeps with (keys := ["corr_ymi_y"; "corr_ymo_y"; "kmyi"; "kmyo"]);
      [apply gkma_y_writes|]. intros Hb. apply Hy. by apply bool_decide_eq_true in Hb. }
  assert (Wz : forall d, (sz d).2 !! k = d !! k).
  { intros d. apply stage_keeps with (keys := ["corr_zm_z"; "kmz"]);
      [apply gkma_z_writes|]. intros Hb. apply Hz. by apply bool_decide_eq_true in Hb. }
  specialize (Wx d0). destruct (sx d0) as [[[]|e] d1]; cbn [snd] in *; [|congruence].
  specialize (Wy d1). destruct (sy d1) as [[[]|e] d2]; cbn [snd] in *; [|congruence].
  specialize (Wz d2). destruct (sz d2) as [[[]|e] d3]; cbn [snd] in *; [|congruence].
  destruct (d3 !! "tau"); cbn [snd]; [|congruence].
  rewrite lookup_insert_ne by done. congruence.
Qed.

(** X11.  [return_data] has no influence on what is computed: the dictionary is
    left in the same state, the same exception is raised if any, and a call
    that completes returns that very dictionary or, with
    [return_data=False], [None]. *)
Theorem get_gkma_kappa_return_data nbins nsamples dt sample_interval T vol max_tau
    directions (return_data : bool) (data : gmap string (ndarray F)) :
  let call := get_gkma_kappa corr __get_direction nbins nsamples dt sample_interval T vol
                max_tau directions in
  (call return_data data).2 = (call true data).2 /\
  (call return_data data).1 =
    match (call true data).1 with
    | Ok _ => Ok (if return_data then Some (call true data).2 else None)
    | Raise e => Raise e
    end.
Proof.
  cbv zeta. rewrite !get_gkma_kappa_run.
  destruct (gkma_lags _ _ _ _ _ _) as [[[[scale srate] max_lag] tau]|e]; [|done].
  destruct (__get_direction directions) as [ds|e]; [|done]. cbv zeta.
  set (d0 := <["tau" := tau]> data).
  set (sx := if bool_decide ("x" ∈ ds) then _ else _).
  set (sy := if bool_decide ("y" ∈ ds) then _ else _).
  set (sz := if bool_decide ("z" ∈ ds) then _ else _).
  destruct (sx d0) as [[[]|e] d1]; [|done].
  destruct (sy d1) as [[[]|e] d2]; [|done].
  destruct (sz d2) as [[[]|e] d3]; [|done].
  by destruct (d3 !! "tau").
Qed.

(** X13.  A zero [T * T * vol] makes the call of [__scale_gpumd_tc] at
    line 94 raise ZeroDivisionError, before anything is read from or written
    to the dictionary. *)
Theorem get_gkma_kappa_zero_scale_divisor nbins nsamples dt sample_interval T vol max_tau
    directions return_data (data : gmap string (ndarray F)) :
  (T *! T *! vol ==! zero) = true ->
  get_gkma_kappa corr __get_direction nbins nsamples dt sample_interval T vol
    max_tau directions return_data data = (Raise ZeroDivisionError, data).
Proof.
  intros Hz. rewrite get_gkma_kappa_run. unfold gkma_lags, __scale_gpumd_tc, py_div.
  by rewrite Hz.
Qed.

End EngineMore.

Section EngineZeroSampling.
Context {F : Type} `{PyFloat F}.
Variable corr : ndarray F -> ndarray F -> Z -> exc (ndarray F).
Variable __get_direction : string -> exc (list string).

(** X14.  When the scale factor and the two conversions of line 96 and
    line 99 go through and the sampling time [sample_interval * dt]
    compares equal to zero, the division at line 107 raises
    ZeroDivisionError, whatever [max_tau] is; the dictionary is not
    touched. *)
Theorem get_gkma_kappa_zero_sampling_time
    nbins nsamples dt sample_interval T vol max_tau directions return_data
    (data : gmap string (ndarray F)) scale si ns :
  __scale_gpumd_tc vol T = Ok scale ->
  of_int sample_interval = Ok si ->
  of_int (nsamples - 1) = Ok ns ->
  (si *! dt ==! zero) = true ->
  get_gkma_kappa corr __get_direction nbins nsamples dt sample_interval T vol
    max_tau directions return_data data = (Raise ZeroDivisionError, data).
Proof.
  intros Hs Hsi Hns Hz. rewrite get_gkma_kappa_run. unfold gkma_lags.
  rewrite Hs, exc_bind_ok, Hsi, exc_bind_ok. cbv zeta.
  rewrite Hns, exc_bind_ok. unfold py_div. by rewrite Hz.
Qed.

End EngineZeroSampling.

Section EngineZeroSamplingScenarios.
Local Open Scope float_scope.

Lemma get_gkma_kappa_zero_sampling_time_witness :
  get_gkma_kappa corr_spec get_direction_spec 2 4 0 1 300 1 (Some 1) "z" true data_z64
  = (Raise ZeroDivisionError, data_z64).
Proof.
  apply (get_gkma_kappa_zero_sampling_time corr_spec get_direction_spec 2 4 0 1 300 1
           (Some 1) "z" true data_z64 1993.8581832847576 1 3); vm_compute; reflexivity.
Defined.

End EngineZeroSamplingScenarios.

Section EngineMoreScenarios.

Lemma get_gkma_kappa_frame_witness : run_z.2 !! "jmz" = data_z !! "jmz".
Proof.
  apply (get_gkma_kappa_frame corr_spec get_direction_spec 2 5 (ex 1) 1 (ex 300) (ex 1)
           None "z" true data_z "jmz"); [done|].
  intros ds [= <-]. split_and!; intros _; set_solver.
Defined.

Lemma get_gkma_kappa_zero_scale_divisor_witness :
  get_gkma_kappa corr_spec get_direction_spec 2 5 (ex 1) 1 (ex 0) (ex 1)
    None "z" true data_z = (Raise ZeroDivisionError, data_z).
Proof.
  apply (get_gkma_kappa_zero_scale_divisor corr_spec get_direction_spec 2 5 (ex 1) 1
           (ex 0) (ex 1) None "z" true data_z).
  reflexivity.
Defined.

End EngineMoreScenarios.

(** ** The engine: what the arrays of a direction hold *)

Section ChannelProofs.
Context {F : Type} `{PyFloat F}.
Variable corr : ndarray F -> ndarray F -> Z -> exc (ndarray F).

Lemma correlate_and_integrate_row jkey ckey kkey jref max_lag scale m d d'
    (n : nat) (jarr tau : ndarray F) (crows krows : list (list F)) :
  ckey <> kkey -> ckey <> "tau" ->
  d !! jkey = Some jarr -> d !! "tau" = Some tau ->
  d !! ckey = Some (A2 n crows) ->
  d !! kkey = Some (A2 n krows) ->
  correlate_and_integrate corr jkey ckey kkey jref max_lag scale m d = (Ok tt, d') ->
  exists crow krow,
    channel_row corr jarr jref max_lag scale tau n m crow krow /\
    length crow = n /\ length krow = n /\
    m < length crows /\ m < length krows /\
    d' = <[kkey := A2 n (<[m := krow]> krows)]> (<[ckey := A2 n (<[m := crow]> crows)]> d).
Proof.
  intros Hck Hct Hj Htau Hc Hk Hrun. unfold correlate_and_integrate in Hrun.
  apply bind_ok_inv in Hrun as (a & d1 & (Ha & ->)%getitem_ok_inv & Hrun).
  apply bind_ok_inv in Hrun as (r & d1 & (Hr & ->)%lift_ok_inv & Hrun).
  apply bind_ok_inv in Hrun as (c & d1 & (Hcorr & ->)%lift_ok_inv & Hrun).
  apply bind_ok_inv in Hrun as (t & d1 & (Ht & ->)%getitem_ok_inv & Hrun).
  apply bind_ok_inv in Hrun as (t' & d1 & (Hset & ->)%lift_ok_inv & Hrun).
  apply bind_ok_inv in Hrun as ([] & d1 & ->%setitem_ok_inv & Hrun).
  apply bind_ok_inv in Hrun as (y & d1 & (Hy & ->)%getitem_ok_inv & Hrun).
  apply bind_ok_inv in Hrun as (yr & d1 & (Hyr & ->)%lift_ok_inv & Hrun).
  apply bind_ok_inv in Hrun as (tau' & d1 & (Htau' & ->)%getitem_ok_inv & Hrun).
  apply bind_ok_inv in Hrun as (k & d1 & (Hcum & ->)%lift_ok_inv & Hrun).
  apply bind_ok_inv in Hrun as (km & d1 & (Hkm & ->)%getitem_ok_inv & Hrun).
  apply bind_ok_inv in Hrun as (km' & d1 & (Hset' & ->)%lift_ok_inv & Hrun).
  apply setitem_ok_inv in Hrun as ->.
  rewrite Hj in Ha. injection Ha as <-.
  rewrite Hc in Ht. injection Ht as <-.
  apply nd_set_row_inv in Hset as (nc & rows & crow & [= <- <-] & Hm & Hrow & ->).
  rewrite lookup_insert_eq in Hy. injection Hy as <-.
  cbn in Hyr. rewrite list_lookup_insert_eq in Hyr by done. injection Hyr as <-.
  rewrite lookup_insert_ne in Htau' by done. rewrite Htau in Htau'. injection Htau' as <-.
  rewrite lookup_insert_ne in Hkm by done. rewrite Hk in Hkm. injection Hkm as <-.
  apply nd_set_row_inv in Hset' as (nc & rows & krow & [= <- <-] & Hm' & Hrow' & ->).
  apply to_row_length in Hrow as Hlc.
  apply cumtrapz_length in Hcum as Hlk. destruct Hlk as [Hlk _].
  apply to_row_same_length in Hrow' as ->; [|rewrite length_map; congruence].
  exists crow, (map (fun v => v *! scale) k).
  split_and!; try done.
  - by exists r, c, k.
  - rewrite length_map. congruence.
Qed.

Lemma channel_done_frame jarr jref max_lag scale tau n nb ckey kkey j d d' :
  d' !! ckey = d !! ckey -> d' !! kkey = d !! kkey ->
  channel_done corr jarr jref max_lag scale tau n nb ckey kkey j d ->
  channel_done corr jarr jref max_lag scale tau n nb ckey kkey j d'.
Proof.
  intros Ec Ek (crows & krows & Hc & Hk & Hrest).
  exists crows, krows. by rewrite Ec, Ek.
Qed.

Lemma channel_done_init jarr jref max_lag scale tau (n nb : nat) ckey kkey d :
  d !! ckey = Some (A2 n (replicate nb (replicate n zero))) ->
  d !! kkey = Some (A2 n (replicate nb (replicate n zero))) ->
  channel_done corr jarr jref max_lag scale tau n nb ckey kkey 0 d.
Proof.
  intros Hc Hk. eexists _, _.
  split_and!; [done|done|by rewrite length_replicate|by rewrite length_replicate| | |].
  - apply Forall_replicate. by rewrite length_replicate.
  - apply Forall_replicate. by rewrite length_replicate.
  - intros m Hm. lia.
Qed.

Lemma channel_done_step jkey ckey kkey jarr jref max_lag scale tau n nb m d d' :
  ckey <> kkey -> ckey <> "tau" ->
  d !! jkey = Some jarr -> d !! "tau" = Some tau ->
  channel_done corr jarr jref max_lag scale tau n nb ckey kkey m d ->
  correlate_and_integrate corr jkey ckey kkey jref max_lag scale m d = (Ok tt, d') ->
  channel_done corr jarr jref max_lag scale tau n nb ckey kkey (S m) d'.
Proof.
  intros Hne Hct Hj Htau (crows & krows & Hc & Hk & Hlc & Hlk & Hfc & Hfk & Hrows) Hrun.
  destruct (correlate_and_integrate_row _ _ _ _ _ _ _ _ _ n jarr tau crows krows
              Hne Hct Hj Htau Hc Hk Hrun)
    as (crow & krow & Hrow & Hcl & Hkl & Hm & Hm' & ->).
  exists (<[m := crow]> crows), (<[m := krow]> krows). split_and!.
  - rewrite lookup_insert_ne by done. by rewrite lookup_insert_eq.
  - by rewrite lookup_insert_eq.
  - by rewrite length_insert.
  - by rewrite length_insert.
  - by apply Forall_insert.
  - by apply Forall_insert.
  - intros m' Hm''. destruct (decide (m' = m)) as [->|Hd].
    + exists crow, krow. by rewrite !list_lookup_insert_eq.
    + rewrite !list_lookup_insert_ne by done. apply Hrows. lia.
Qed.

End ChannelProofs.

Section BlockResults.
Context {F : Type} `{PyFloat F}.
Variable corr : ndarray F -> ndarray F -> Z -> exc (ndarray F).

Lemma np_zeros_ok_nonneg (r c : Z) (z : ndarray F) :
  np_zeros r c = Ok z -> (0 <= r /\ 0 <= c)%Z.
Proof.
  unfold np_zeros. destruct ((r <? 0)%Z || (c <? 0)%Z) eqn:E; [done|].
  apply orb_false_iff in E as [E1 E2]. apply Z.ltb_ge in E1. apply Z.ltb_ge in E2. done.
Qed.

(** The block of a direction with an in and an out channel. *)
Lemma gkma_in_out_done ji jo ci co ki ko msg nbins size max_lag scale tau d d' :
  NoDup [ci; co; ki; ko; "tau"; ji; jo] ->
  d !! "tau" = Some tau ->
  gkma_in_out corr ji jo ci co ki ko msg nbins size max_lag scale d = (Ok tt, d') ->
  (0 <= nbins /\ 0 <= size)%Z /\
  exists a b s jref,
    d !! ji = Some a /\ d !! jo = Some b /\
    nd_add a b = Ok s /\ np_sum_axis0 s = Ok jref /\
    channel_done corr a jref max_lag scale tau (Z.to_nat size) (Z.to_nat nbins)
      ci ki (Z.to_nat nbins) d' /\
    channel_done corr b jref max_lag scale tau (Z.to_nat size) (Z.to_nat nbins)
      co ko (Z.to_nat nbins) d'.
Proof.
  intros Hnd Htau Hrun.
  assert (ci <> co /\ ci <> ki /\ ci <> ko /\ co <> ki /\ co <> ko /\ ki <> ko /\
          ci <> "tau" /\ co <> "tau" /\ ki <> "tau" /\ ko <> "tau" /\
          ji ∉ [ci; co; ki; ko] /\ jo ∉ [ci; co; ki; ko])
    as (Hab & Hac & Had & Hbc & Hbd & Hcd & Hat & Hbt & Hct & Hdt & Hji & Hjo).
  { repeat (apply NoDup_cons in Hnd as [? Hnd]). set_solver. }
  clear Hnd.
  unfold gkma_in_out in Hrun.
  apply bind_ok_inv in Hrun as (hi & d1 & [= <- <-] & Hrun).
  apply bind_ok_inv in Hrun as (ho & d1 & [= <- <-] & Hrun).
  destruct (negb _ || negb _); [done|].
  apply bind_ok_inv in Hrun as (a & d1 & (Ha & ->)%getitem_ok_inv & Hrun).
  apply bind_ok_inv in Hrun as (b & d1 & (Hb & ->)%getitem_ok_inv & Hrun).
  apply bind_ok_inv in Hrun as (s & d1 & (Hs & ->)%lift_ok_inv & Hrun).
  apply bind_ok_inv in Hrun as (j & d1 & (Hj & ->)%lift_ok_inv & Hrun).
  apply bind_ok_inv in Hrun as (z1 & d1 & (Hz1 & ->)%lift_ok_inv & Hrun).
  pose proof (np_zeros_ok_nonneg _ _ _ Hz1) as Hnn. apply np_zeros_inv in Hz1 as ->.
  apply bind_ok_inv in Hrun as ([] & d1 & ->%setitem_ok_inv & Hrun).
  apply bind_ok_inv in Hrun as (z2 & d1 & (->%np_zeros_inv & ->)%lift_ok_inv & Hrun).
  apply bind_ok_inv in Hrun as ([] & d1 & ->%setitem_ok_inv & Hrun).
  apply bind_ok_inv in Hrun as (z3 & d1 & (->%np_zeros_inv & ->)%lift_ok_inv & Hrun).
  apply bind_ok_inv in Hrun as ([] & d1 & ->%setitem_ok_inv & Hrun).
  apply bind_ok_inv in Hrun as (z4 & d1 & (->%np_zeros_inv & ->)%lift_ok_inv & Hrun).
  apply bind_ok_inv in Hrun as ([] & d1 & ->%setitem_ok_inv & Hrun).
  split; [done|]. exists a, b, s, j.
  set (n := Z.to_nat size) in *. set (nb := Z.to_nat nbins) in *.
  pose (Inv := fun (m : nat) (d : gmap string (ndarray F)) =>
               d !! ji = Some a /\ d !! jo = Some b /\ d !! "tau" = Some tau /\
               channel_done corr a j max_lag scale tau n nb ci ki m d /\
               channel_done corr b j max_lag scale tau n nb co ko m d).
  assert (Inv (0 + nb) d') as (_ & _ & _ & HA & HB); [|done].
  eapply (for_each_seq_inv _ Inv nb 0); [| |exact Hrun].
  - unfold Inv. split_and!.
    + rewrite !lookup_insert_ne by set_solver. done.
    + rewrite !lookup_insert_ne by set_solver. done.
    + rewrite !lookup_insert_ne by done. done.
    + apply channel_done_init.
      * rewrite !lookup_insert_ne by done. by rewrite lookup_insert_eq.
      * rewrite lookup_insert_ne by done. by rewrite lookup_insert_eq.
    + apply channel_done_init.
      * rewrite !lookup_insert_ne by done. by rewrite lookup_insert_eq.
      * by rewrite lookup_insert_eq.
  - intros m da db _ (Hja & Hjb & Hta & HA & HB) Hbody.
    apply bind_ok_inv in Hbody as ([] & dm & H1 & H2).
    pose proof (correlate_and_integrate_writes corr ji ci ki j max_lag scale m da) as W1.
    pose proof (correlate_and_integrate_writes corr jo co ko j max_lag scale m dm) as W2.
    rewrite H1 in W1. rewrite H2 in W2. cbn [snd] in W1, W2.
    assert (dm !! jo = Some b) as Hjm by (rewrite W1 by set_solver; done).
    assert (dm !! "tau" = Some tau) as Htm by (rewrite W1 by set_solver; done).
    unfold Inv. split_and!.
    + rewrite W2, W1 by set_solver. done.
    + rewrite W2, W1 by set_solver. done.
    + rewrite W2, W1 by set_solver. done.
    + apply channel_done_frame with dm; [apply W2; set_solver..|].
      by eapply channel_done_step.
    + eapply channel_done_step; [done|done|exact Hjm|exact Htm| |exact H2].
      apply channel_done_frame with da; [apply W1; set_solver..|done].
Qed.

(** The block of the z direction. *)
Lemma gkma_z_done nbins size max_lag scale tau d d' :
  d !! "tau" = Some tau ->
  gkma_z corr nbins size max_lag scale d = (Ok tt, d') ->
  (0 <= nbins /\ 0 <= size)%Z /\
  exists a jref,
    d !! "jmz" = Some a /\ np_sum_axis0 a = Ok jref /\
    channel_done corr a jref max_lag scale tau (Z.to_nat size) (Z.to_nat nbins)
      "corr_zm_z" "kmz" (Z.to_nat nbins) d'.
Proof.
  intros Htau Hrun. unfold gkma_z in Hrun.
  apply bind_ok_inv in Hrun as (h & d1 & [= <- <-] & Hrun).
  destruct (negb _); [done|].
  apply bind_ok_inv in Hrun as (a & d1 & (Ha & ->)%getitem_ok_inv & Hrun).
  apply bind_ok_inv in Hrun as (j & d1 & (Hj & ->)%lift_ok_inv & Hrun).
  apply bind_ok_inv in Hrun as (z1 & d1 & (Hz1 & ->)%lift_ok_inv & Hrun).
  pose proof (np_zeros_ok_nonneg _ _ _ Hz1) as Hnn. apply np_zeros_inv in Hz1 as ->.
  apply bind_ok_inv in Hrun as ([] & d1 & ->%setitem_ok_inv & Hrun).
  apply bind_ok_inv in Hrun as (z2 & d1 & (->%np_zeros_inv & ->)%lift_ok_inv & Hrun).
  apply bind_ok_inv in Hrun as ([] & d1 & ->%setitem_ok_inv & Hrun).
  split; [done|]. exists a, j. split_and!; try done.
  set (n := Z.to_nat size) in *. set (nb := Z.to_nat nbins) in *.
  pose (Inv := fun (m : nat) (d : gmap string (ndarray F)) =>
               d !! "jmz" = Some a /\ d !! "tau" = Some tau /\
               channel_done corr a j max_lag scale tau n nb "corr_zm_z" "kmz" m d).
  assert (Inv (0 + nb) d') as (_ & _ & HA); [|done].
  eapply (for_each_seq_inv _ Inv nb 0); [| |exact Hrun].
  - unfold Inv. split_and!.
    + by rewrite !lookup_insert_ne.
    + by rewrite !lookup_insert_ne.
    + apply channel_done_init.
      * rewrite lookup_insert_ne by done. by rewrite lookup_insert_eq.
      * by rewrite lookup_insert_eq.
  - intros m da db _ (Hja & Hta & HA) Hbody.
    pose proof (correlate_and_integrate_writes corr "jmz" "corr_zm_z" "kmz" j max_lag
                  scale m da) as W1.
    rewrite Hbody in W1. cbn [snd] in W1.
    unfold Inv. split_and!.
    + rewrite W1 by set_solver. done.
    + rewrite W1 by set_solver. done.
    + by eapply channel_done_step.
Qed.

End BlockResults.

Section EngineResults.
Context {F : Type} `{PyFloat F}.
Variable corr : ndarray F -> ndarray F -> Z -> exc (ndarray F).
Variable __get_direction : string -> exc (list string).

(** The three direction blocks of a call that completes, each with the
    channels it read and the rows it left. *)
Lemma get_gkma_kappa_channels nbins nsamples dt sample_interval T vol max_tau directions
    return_data (data data' : gmap string (ndarray F)) r scale srate max_lag tau ds :
  get_gkma_kappa corr __get_direction nbins nsamples dt sample_interval T vol
    max_tau directions return_data data = (Ok r, data') ->
  gkma_lags nsamples dt sample_interval T vol max_tau = Ok (scale, srate, max_lag, tau) ->
  __get_direction directions = Ok ds ->
    let n := Z.to_nat (max_lag + 1) in
    let nb := Z.to_nat nbins in
    ("x" ∈ ds ->
       (0 <= nbins)%Z /\
       exists a b s jx,
         data !! "jmxi" = Some a /\ data !! "jmxo" = Some b /\
         nd_add a b = Ok s /\ np_sum_axis0 s = Ok jx /\
         channel_done corr a jx max_lag scale tau n nb "corr_xmi_x" "kmxi" nb data' /\
         channel_done corr b jx max_lag scale tau n nb "corr_xmo_x" "kmxo" nb data') /\
    ("y" ∈ ds ->
       (0 <= nbins)%Z /\
       exists a b s jy,
         data !! "jmyi" = Some a /\ data !! "jmyo" = Some b /\
         nd_add a b = Ok s /\ np_sum_axis0 s = Ok jy /\
         channel_done corr a jy max_lag scale tau n nb "corr_ymi_y" "kmyi" nb data' /\
         channel_done corr b jy max_lag scale tau n nb "corr_ymo_y" "kmyo" nb data') /\
    ("z" ∈ ds ->
       (0 <= nbins)%Z /\
       exists a jz,
         data !! "jmz" = Some a /\ np_sum_axis0 a = Ok jz /\
         channel_done corr a jz max_lag scale tau n nb "corr_zm_z" "kmz" nb data').
Proof.
  intros Hrun Hlags Hds. rewrite get_gkma_kappa_run, Hlags, Hds in Hrun.
  revert Hrun. cbv zeta.
  set (d0 := <["tau" := tau]> data).
  set (sx := if bool_decide ("x" ∈ ds) then _ else _).
  set (sy := if bool_decide ("y" ∈ ds) then _ else _).
  set (sz := if bool_decide ("z" ∈ ds) then _ else _).
  assert (Wx : writes_only ["corr_xmi_x"; "corr_xmo_x"; "kmxi"; "kmxo"] sx)
    by apply stage_writes, gkma_x_writes.
  assert (Wy : writes_only ["corr_ymi_y"; "corr_ymo_y"; "kmyi"; "kmyo"] sy)
    by apply stage_writes, gkma_y_writes.
  assert (Wz : writes_only ["corr_zm_z"; "kmz"] sz)
    by apply stage_writes, gkma_z_writes.
  destruct (sx d0) as [[[]|e] d1] eqn:E1; [|done].
  destruct (sy d1) as [[[]|e] d2] eqn:E2; [|done].
  destruct (sz d2) as [[[]|e] d3] eqn:E3; [|done].
  specialize (Wx d0). rewrite E1 in Wx. cbn [snd] in Wx.
  specialize (Wy d1). rewrite E2 in Wy. cbn [snd] in Wy.
  specialize (Wz d2). rewrite E3 in Wz. cbn [snd] in Wz.
  assert (H0 : forall k, k <> "tau" -> d0 !! k = data !! k).
  { intros k Hk. unfold d0. by rewrite lookup_insert_ne. }
  assert (Ht0 : d0 !! "tau" = Some tau) by (unfold d0; by rewrite lookup_insert_eq).
  assert (Ht1 : d1 !! "tau" = Some tau) by (rewrite Wx by set_solver; done).
  assert (Ht2 : d2 !! "tau" = Some tau) by (rewrite Wy by set_solver; done).
  assert (d3 !! "tau" = Some tau) as -> by (rewrite Wz by set_solver; done).
  intros [= <- <-]. split_and!.
  - intros Hx. unfold sx in E1. rewrite bool_decide_eq_true_2 in E1 by done.
    rewrite gkma_x_in_out in E1.
    apply (gkma_in_out_done corr _ _ _ _ _ _ _ _ _ _ _ tau) in E1
      as ([Hnb _] & a & b & s & jx & Ha & Hb & Hs & Hj & HA & HB);
      [|apply (bool_decide_unpack _); by vm_compute|done].
    split; [done|]. exists a, b, s, jx. rewrite <-!H0 by done. split_and!; try done.
    + eapply channel_done_frame; [| |exact HA];
        rewrite lookup_insert_ne by done; rewrite Wz, Wy by set_solver; done.
    + eapply channel_done_frame; [| |exact HB];
        rewrite lookup_insert_ne by done; rewrite Wz, Wy by set_solver; done.
  - intros Hy. unfold sy in E2. rewrite bool_decide_eq_true_2 in E2 by done.
    rewrite gkma_y_in_out in E2.
    apply (gkma_in_out_done corr _ _ _ _ _ _ _ _ _ _ _ tau) in E2
      as ([Hnb _] & a & b & s & jy & Ha & Hb & Hs & Hj & HA & HB);
      [|apply (bool_decide_unpack _); by vm_compute|done].
    split; [done|]. exists a, b, s, jy. rewrite <-!H0, <-!Wx by set_solver. split_and!; try done.
    + eapply channel_done_frame; [| |exact HA];
        rewrite lookup_insert_ne by done; rewrite Wz by set_solver; done.
    + eapply channel_done_frame; [| |exact HB];
        rewrite lookup_insert_ne by done; rewrite Wz by set_solver; done.
  - intros Hz. unfold sz in E3. rewrite bool_decide_eq_true_2 in E3 by done.
    apply (gkma_z_done corr _ _ _ _ tau) in E3 as ([Hnb _] & a & jz & Ha & Hj & HA); [|done].
    split; [done|]. exists a, jz. rewrite <-!H0, <-!Wx, <-!Wy by set_solver. split_and!; try done.
    eapply channel_done_frame; [| |exact HA]; by rewrite lookup_insert_ne.
Qed.

(** X7.  For a call that completes, and every direction asked for: each row
    [m < nbins] of a correlation array is what [corr] returned for row [m]
    of the channel and the sum of the direction's channels over the bins,
    and the same row of the conductivity array is [scale] times the
    cumulative trapezoidal integral of that correlation row over the lag
    axis in femtoseconds, the axis built at line 109 (the dictionary holds
    it divided by 1e6 when the call returns). *)
Theorem get_gkma_kappa_results nbins nsamples dt sample_interval T vol max_tau directions
    return_data (data data' : gmap string (ndarray F)) r :
  get_gkma_kappa corr __get_direction nbins nsamples dt sample_interval T vol
    max_tau directions return_data data = (Ok r, data') ->
  exists scale srate max_lag tau ds,
    gkma_lags nsamples dt sample_interval T vol max_tau = Ok (scale, srate, max_lag, tau) /\
    __get_direction directions = Ok ds /\
    let n := Z.to_nat (max_lag + 1) in
    let nb := Z.to_nat nbins in
    ("x" ∈ ds ->
       (0 <= nbins)%Z /\
       exists a b s jx,
         data !! "jmxi" = Some a /\ data !! "jmxo" = Some b /\
         nd_add a b = Ok s /\ np_sum_axis0 s = Ok jx /\
         channel_done corr a jx max_lag scale tau n nb "corr_xmi_x" "kmxi" nb data' /\
         channel_done corr b jx max_lag scale tau n nb "corr_xmo_x" "kmxo" nb data') /\
    ("y" ∈ ds ->
       (0 <= nbins)%Z /\
       exists a b s jy,
         data !! "jmyi" = Some a /\ data !! "jmyo" = Some b /\
         nd_add a b = Ok s /\ np_sum_axis0 s = Ok jy /\
         channel_done corr a jy max_lag scale tau n nb "corr_ymi_y" "kmyi" nb data' /\
         channel_done corr b jy max_lag scale tau n nb "corr_ymo_y" "kmyo" nb data') /\
    ("z" ∈ ds ->
       (0 <= nbins)%Z /\
       exists a jz,
         data !! "jmz" = Some a /\ np_sum_axis0 a = Ok jz /\
         channel_done corr a jz max_lag scale tau n nb "corr_zm_z" "kmz" nb data').
Proof.
  intros Hrun. pose proof Hrun as Hok.
  apply get_gkma_kappa_ok in Hok as (scale & srate & max_lag & tau & ds & Hlags & Hds & _).
  exists scale, srate, max_lag, tau, ds. split; [exact Hlags|]. split; [exact Hds|].
  exact (get_gkma_kappa_channels nbins nsamples dt sample_interval T vol max_tau
           directions return_data data data' r scale srate max_lag tau ds
           Hrun Hlags Hds).
Qed.

End EngineResults.

Section EngineShapes.
Context {F : Type} `{PyFloat F}.
Variable corr : ndarray F -> ndarray F -> Z -> exc (ndarray F).
Variable __get_direction : string -> exc (list string).

Lemma channel_done_shape jarr jref max_lag scale tau n nb ckey kkey j d key :
  channel_done corr jarr jref max_lag scale tau n nb ckey kkey j d ->
  key = ckey \/ key = kkey ->
  exists rows, d !! key = Some (A2 n rows) /\ length rows = nb /\
               Forall (fun r => length r = n) rows.
Proof.
  intros (crows & krows & Hc & Hk & Hlc & Hlk & Hfc & Hfk & _) [-> | ->]; eauto.
Qed.

(** X8.  In a call that completes, every correlation and conductivity array of
    a direction asked for has [nbins] rows of [max_lag + 1] columns. *)
Theorem get_gkma_kappa_shapes nbins nsamples dt sample_interval T vol max_tau directions
    return_data (data data' : gmap string (ndarray F)) r scale srate max_lag tau ds key :
  get_gkma_kappa corr __get_direction nbins nsamples dt sample_interval T vol
    max_tau directions return_data data = (Ok r, data') ->
  gkma_lags nsamples dt sample_interval T vol max_tau = Ok (scale, srate, max_lag, tau) ->
  __get_direction directions = Ok ds ->
  key ∈ result_keys ds ->
  (0 <= nbins)%Z /\ (0 <= max_lag + 1)%Z /\
  exists rows,
    data' !! key = Some (A2 (Z.to_nat (max_lag + 1)) rows) /\
    length rows = Z.to_nat nbins /\
    Forall (fun row => length row = Z.to_nat (max_lag + 1)) rows.
Proof.
  intros Hrun Hlags Hds Hkey.
  pose proof (get_gkma_kappa_channels corr __get_direction nbins nsamples dt sample_interval
                T vol max_tau directions return_data data data' r scale srate max_lag tau ds
                Hrun Hlags Hds) as Hres.
  cbv zeta in Hres. destruct Hres as (Hx & Hy & Hz).
  destruct (gkma_lags_axis _ _ _ _ _ _ _ _ _ _ Hlags) as [Hml _].
  unfold result_keys in Hkey.
  apply elem_of_app in Hkey as [Hkey|Hkey]; [|apply elem_of_app in Hkey as [Hkey|Hkey]].
  - case_bool_decide as Hd; [|set_solver].
    destruct (Hx Hd) as (Hnb & a & b & s & j & _ & _ & _ & _ & HA & HB).
    split_and!; [done..|].
    repeat (apply elem_of_cons in Hkey as [->|Hkey]);
      [eapply channel_done_shape; [exact HA|by left]
      |eapply channel_done_shape; [exact HB|by left]
      |eapply channel_done_shape; [exact HA|by right]
      |eapply channel_done_shape; [exact HB|by right]
      |set_solver].
  - case_bool_decide as Hd; [|set_solver].
    destruct (Hy Hd) as (Hnb & a & b & s & j & _ & _ & _ & _ & HA & HB).
    split_and!; [done..|].
    repeat (apply elem_of_cons in Hkey as [->|Hkey]);
      [eapply channel_done_shape; [exact HA|by left]
      |eapply channel_done_shape; [exact HB|by left]
      |eapply channel_done_shape; [exact HA|by right]
      |eapply channel_done_shape; [exact HB|by right]
      |set_solver].
  - case_bool_decide as Hd; [|set_solver].
    destruct (Hz Hd) as (Hnb & a & j & _ & _ & HA).
    split_and!; [done..|].
    repeat (apply elem_of_cons in Hkey as [->|Hkey]);
      [eapply channel_done_shape; [exact HA|by left]
      |eapply channel_done_shape; [exact HA|by right]
      |set_solver].
Qed.

Lemma channel_done_needs jarr jref max_lag scale l nb ckey kkey d :
  1 <= nb ->
  channel_done corr jarr jref max_lag scale (np_squeeze l) (length l) nb ckey kkey nb d ->
  2 <= length l /\
  exists nc rows, jarr = A2 nc rows /\ nb <= length rows.
Proof.
  intros Hnb (crows & krows & _ & _ & _ & _ & _ & _ & Hrows). split.
  - destruct (Hrows 0%nat) as (crow & krow & _ & _ & jrow & c & k & _ & _ & Hrow & Hcum & _);
      [lia|].
    apply to_row_length in Hrow. unfold cumtrapz in Hcum.
    destruct l as [|x [|y t]]; cbn [np_squeeze] in Hcum; [|done|cbn; lia].
    cbn in Hcum. case_decide as Hd; [|done]. cbn in Hrow. lia.
  - destruct (Hrows (pred nb)) as (crow & krow & _ & _ & jrow & c & k & Hj & _); [lia|].
    destruct jarr as [x|v|nc rows]; [done..|]. exists nc, rows. split; [done|].
    cbn in Hj. destruct (rows !! pred nb) eqn:E; [|done].
    apply lookup_lt_Some in E. lia.
Qed.

(** X9.  What a call that completes shows about its input, when at least one
    mode bin is processed: the lag axis has at least two points (a single
    point is squeezed to a zero-dimensional array, which [cumtrapz] does not
    accept), and every channel read is a two-dimensional array with at
    least [nbins] rows. *)
Theorem get_gkma_kappa_needs nbins nsamples dt sample_interval T vol max_tau directions
    return_data (data data' : gmap string (ndarray F)) r scale srate max_lag tau ds key :
  get_gkma_kappa corr __get_direction nbins nsamples dt sample_interval T vol
    max_tau directions return_data data = (Ok r, data') ->
  gkma_lags nsamples dt sample_interval T vol max_tau = Ok (scale, srate, max_lag, tau) ->
  __get_direction directions = Ok ds ->
  key ∈ channel_keys ds ->
  (1 <= nbins)%Z ->
  (1 <= max_lag)%Z /\
  exists nc rows, data !! key = Some (A2 nc rows) /\ (nbins <= Z.of_nat (length rows))%Z.
Proof.
  intros Hrun Hlags Hds Hkey Hnb.
  pose proof (get_gkma_kappa_channels corr __get_direction nbins nsamples dt sample_interval
                T vol max_tau directions return_data data data' r scale srate max_lag tau ds
                Hrun Hlags Hds) as Hres.
  cbv zeta in Hres. destruct Hres as (Hx & Hy & Hz).
  destruct (gkma_lags_axis _ _ _ _ _ _ _ _ _ _ Hlags) as (Hml & l & -> & Hlen).
  cbv zeta in Hx, Hy, Hz. rewrite <-Hlen in Hx, Hy, Hz.
  assert (forall jarr jref ckey kkey,
            channel_done corr jarr jref max_lag scale (np_squeeze l) (length l)
              (Z.to_nat nbins) ckey kkey (Z.to_nat nbins) data' ->
            (1 <= max_lag)%Z /\
            exists nc rows, jarr = A2 nc rows /\ (nbins <= Z.of_nat (length rows))%Z) as Hneed.
  { intros jarr jref ckey kkey Hd.
    apply channel_done_needs in Hd as (Hl2 & nc & rows & -> & Hr); [|lia].
    split; [lia|]. exists nc, rows. split; [done|lia]. }
  unfold channel_keys in Hkey.
  apply elem_of_app in Hkey as [Hkey|Hkey]; [|apply elem_of_app in Hkey as [Hkey|Hkey]].
  - case_bool_decide as Hd; [|set_solver].
    destruct (Hx Hd) as (_ & a & b & s & j & Ha & Hb & _ & _ & HA & HB).
    apply Hneed in HA as (Hm & nc & rows & -> & Hr).
    apply Hneed in HB as (_ & nc' & rows' & -> & Hr').
    split; [done|].
    repeat (apply elem_of_cons in Hkey as [->|Hkey]); [eauto|eauto|set_solver].
  - case_bool_decide as Hd; [|set_solver].
    destruct (Hy Hd) as (_ & a & b & s & j & Ha & Hb & _ & _ & HA & HB).
    apply Hneed in HA as (Hm & nc & rows & -> & Hr).
    apply Hneed in HB as (_ & nc' & rows' & -> & Hr').
    split; [done|].
    repeat (apply elem_of_cons in Hkey as [->|Hkey]); [eauto|eauto|set_solver].
  - case_bool_decide as Hd; [|set_solver].
    destruct (Hz Hd) as (_ & a & j & Ha & _ & HA).
    apply Hneed in HA as (Hm & nc & rows & -> & Hr).
    split; [done|].
    repeat (apply elem_of_cons in Hkey as [->|Hkey]); [eauto|set_solver].
Qed.

End EngineShapes.

(** ** Group assignment: what each atom gets *)

Section GroupsPerAtom.
Context {F : Type} `{PyFloat F}.

Lemma get_group_printed (split : list F) (pos : F * F * F) (direction : string)
    (g : Z) (out : list F) :
  __get_group split pos direction = Ok (g, out) ->
  out = if (g =? -1)%Z then [coordinate pos direction] else [].
Proof.
  unfold __get_group. rewrite enumerate_zip.
  destruct (group_scan_total split (coordinate pos direction)
              (take (pred (length split)) split) 0)
    as (r & -> & Hcase).
  { rewrite length_take. lia. }
  cbn [mbind exc_bind].
  destruct Hcase as [->|[->|(i & -> & Hi)]]; intros [= <- <-]; try done.
  destruct (Z.of_nat i =? -1)%Z eqn:E; [apply Z.eqb_eq in E; lia|done].
Qed.

Lemma reported_cons (split : list F) (direction : string) (a : atom F) (l : list (atom F)) :
  reported split direction (a :: l) =
  (if (group_of split direction a =? -1)%Z then [coordinate (position a) direction] else [])
  ++ reported split direction l.
Proof.
  unfold reported. rewrite filter_cons.
  destruct (group_of split direction a =? -1)%Z eqn:E.
  - apply Z.eqb_eq in E. by rewrite decide_True.
  - apply Z.eqb_neq in E. by rewrite decide_False.
Qed.

(** The loop of [assign_groups] appends to the output what it prints for
    the atoms it has still to visit. *)
Lemma assign_loop_stdout (split : list F) (direction : string) (atoms0 : list (atom F))
    (r m : nat) (st : groups_state F) :
  2 <= length split ->
  m + r = length atoms0 ->
  (forall k, m <= k -> gs_atoms st !! k = atoms0 !! k) ->
  length (gs_counts st) = pred (length split) ->
  exists st',
    assign_loop split direction st (seq m r) = (Ok tt, st') /\
    gs_stdout st' = gs_stdout st ++ reported split direction (drop m atoms0).
Proof.
  intros Hs. revert m st. induction r as [|r IH]; intros m st Hm Hat Hlen.
  - exists st. cbn. rewrite drop_ge by lia. split; [done|].
    by rewrite app_nil_r.
  - cbn [seq assign_loop].
    assert (is_Some (atoms0 !! m)) as [a Ha] by (apply lookup_lt_is_Some; lia).
    assert (gs_atoms st !! m = Some a) as Hst by (by rewrite Hat).
    destruct (assign_one_run split direction st m a Hs Hlen Hst) as (out & Hg & ->).
    apply get_group_printed in Hg. subst out.
    destruct (IH (S m)
                (GroupsState
                   (<[m := Atom (position a) (group_of split direction a)]> (gs_atoms st))
                   (alter (fun c => (c + 1)%Z)
                          (slot (pred (length split)) (group_of split direction a))
                          (gs_counts st))
                   (gs_stdout st ++
                    (if (group_of split direction a =? -1)%Z
                     then [coordinate (position a) direction] else []))))
      as (st' & Hrun & Hout); cbn [gs_atoms gs_counts gs_stdout].
    + lia.
    + intros k Hk. rewrite list_lookup_insert_ne by lia. apply Hat. lia.
    + by rewrite length_alter.
    + exists st'. split; [exact Hrun|]. rewrite Hout. cbn [gs_stdout].
      rewrite (drop_S _ _ _ Ha), reported_cons. by rewrite <-app_assoc.
Qed.

(** X3.  With at least two boundaries, what [assign_groups] leaves for each
    atom depends on that atom alone: its tag is the group [__get_group]
    returns for its position; every count but the last is the number of
    atoms of that group; and the messages printed are the coordinates of
    the atoms tagged -1, one for each, in the order of the atoms. *)
Theorem assign_groups_per_atom (split : list F) (atoms : list (atom F)) (direction : string) :
  2 <= length split ->
  exists counts st,
    assign_groups split atoms direction = (Ok counts, st) /\
    gs_atoms st = tagged split direction atoms /\
    (forall j, j + 2 < length split ->
       counts !! j =
       Some (Z.of_nat (length (filter
               (fun a => group_of split direction a = Z.of_nat j) atoms)))) /\
    gs_stdout st = reported split direction atoms.
Proof.
  intros Hs.
  destruct (assign_groups_run split atoms direction Hs)
    as (counts & st & Hrun & Hc & Hat & Hn & Hcnt).
  exists counts, st. split_and!; [done|done| |].
  - intros j Hj. rewrite Hcnt by lia. f_equal. unfold landed. f_equal. f_equal.
    apply list_filter_iff. intros a.
    destruct (get_group_total split (position a) direction) as (g & out & Hg & Hr).
    assert (group_of split direction a = g) as -> by (unfold group_of; by rewrite Hg).
    destruct (py_index_slot (pred (length split)) g) as (_ & _ & Hm1 & Hnn); [lia|lia|].
    destruct Hr as [->|Hr]; [rewrite Hm1 by done|rewrite Hnn by lia]; lia.
  - unfold assign_groups in Hrun.
    destruct (assign_loop_stdout split direction atoms (length atoms) 0
                (GroupsState atoms
                   (replicate (Z.to_nat (Z.of_nat (length split) - 1)) 0%Z) []))
      as (st' & Hloop & Hout); cbn [gs_atoms gs_counts]; try done.
    { rewrite length_replicate. lia. }
    rewrite Hloop in Hrun. injection Hrun as _ <-. exact Hout.
Qed.

Lemma coordinate_other (pos : F * F * F) (direction : string) :
  direction <> "x" -> direction <> "y" -> coordinate pos direction = pos.2.
Proof.
  intros Hx Hy. unfold coordinate.
  apply String.eqb_neq in Hx, Hy. by rewrite Hx, Hy.
Qed.

(** X6.  The direction is not validated: any value other than 'x' and 'y'
    selects the third coordinate, so a call with such a direction does
    what the call with 'z' does. *)
Theorem assign_groups_other_direction (split : list F) (atoms : list (atom F))
    (direction : string) :
  direction <> "x" -> direction <> "y" ->
  assign_groups split atoms direction = assign_groups split atoms "z".
Proof.
  intros Hx Hy.
  assert (Hg : forall pos, __get_group split pos direction = __get_group split pos "z").
  { intros pos. unfold __get_group. by rewrite !coordinate_other. }
  assert (H1 : forall st k, assign_one split direction st k = assign_one split "z" st k).
  { intros st k. unfold assign_one. destruct (gs_atoms st !! k); [|done]. by rewrite Hg. }
  assert (Hl : forall ks st, assign_loop split direction st ks = assign_loop split "z" st ks).
  { induction ks as [|k ks IH]; intros st; [done|]. cbn [assign_loop]. rewrite H1.
    destruct (assign_one split "z" st k) as [[[]|e] st']; [apply IH|done]. }
  unfold assign_groups. by rewrite Hl.
Qed.

End GroupsPerAtom.

Section GroupsPerAtomWitnesses.

Lemma assign_groups_per_atom_witness :
  exists counts st,
    assign_groups sample_split sample_atoms "x" = (Ok counts, st) /\
    counts !! 0%nat = Some 1%Z /\
    gs_stdout st = [ex (-1); ex 12].
Proof.
  destruct (assign_groups_per_atom sample_split sample_atoms "x" ltac:(cbn; lia))
    as (counts & st & Hrun & _ & Hcnt & Hout).
  exists counts, st. split_and!; [exact Hrun| |].
  - rewrite (Hcnt 0%nat) by (cbn; lia). vm_compute. reflexivity.
  - rewrite Hout. vm_compute. reflexivity.
Defined.

Lemma assign_groups_other_direction_witness :
  assign_groups sample_split sample_atoms "X" = assign_groups sample_split sample_atoms "z".
Proof.
  apply (assign_groups_other_direction sample_split sample_atoms "X"); discriminate.
Defined.

End GroupsPerAtomWitnesses.

Section EngineResultsScenarios.

Lemma get_gkma_kappa_results_witness :
  exists scale max_lag tau a jz,
    data_z !! "jmz" = Some a /\ np_sum_axis0 a = Ok jz /\
    channel_done corr_spec a jz max_lag scale tau (Z.to_nat (max_lag + 1)) 2
      "corr_zm_z" "kmz" 2 run_z.2.
Proof.
  destruct (get_gkma_kappa_results corr_spec get_direction_spec 2 5 (ex 1) 1 (ex 300) (ex 1)
              None "z" true data_z run_z.2 (Some run_z.2) run_z_completes)
    as (scale & srate & max_lag & tau & ds & _ & Hds & Hres).
  cbv zeta in Hres. destruct Hres as (_ & _ & Hz).
  vm_compute in Hds. injection Hds as <-.
  destruct Hz as (_ & a & jz & Ha & Hj & HA); [apply list_elem_of_here|].
  by exists scale, max_lag, tau, a, jz.
Defined.

Lemma run_z_lags :
  exists scale srate tau,
    gkma_lags 5 (ex 1) 1 (ex 300) (ex 1) None = Ok (scale, srate, 4%Z, tau).
Proof. eexists _, _, _. vm_compute. reflexivity. Qed.

Lemma get_gkma_kappa_shapes_witness :
  exists rows, run_z.2 !! "kmz" = Some (A2 5 rows) /\ length rows = 2%nat.
Proof.
  destruct run_z_lags as (scale & srate & tau & Hlags).
  destruct (get_gkma_kappa_shapes corr_spec get_direction_spec 2 5 (ex 1) 1 (ex 300) (ex 1)
              None "z" true data_z run_z.2 (Some run_z.2) scale srate 4 tau ["z"] "kmz"
              run_z_completes Hlags eq_refl)
    as (_ & _ & rows & Hk & Hl & _).
  - apply (bool_decide_unpack _). by vm_compute.
  - by exists rows.
Defined.

Lemma get_gkma_kappa_needs_witness :
  exists nc rows, data_z !! "jmz" = Some (A2 nc rows) /\ (2 <= Z.of_nat (length rows))%Z.
Proof.
  destruct run_z_lags as (scale & srate & tau & Hlags).
  destruct (get_gkma_kappa_needs corr_spec get_direction_spec 2 5 (ex 1) 1 (ex 300) (ex 1)
              None "z" true data_z run_z.2 (Some run_z.2) scale srate 4 tau ["z"] "jmz"
              run_z_completes Hlags eq_refl)
    as (_ & nc & rows & Hk & Hl).
  - apply (bool_decide_unpack _). by vm_compute.
  - lia.
  - by exists nc, rows.
Defined.

End EngineResultsScenarios.

(** ** The running average: lengths *)

Section RunningAveMore.
Context {F : Type} `{PyFloat F}.

(** X15.  [running_ave] completes exactly when [kappa] has as many elements as
    [time], or one element when [time] is empty, and its result then has
    the length of [time]; for any other pair of lengths [cumtrapz] raises
    its ValueError, in particular when both arrays are empty. *)
Theorem running_ave_completes (kappa time : list F) :
  (length kappa = Nat.max 1 (length time) ->
   exists out, running_ave kappa time = Ok out /\ length out = length time) /\
  (length kappa <> Nat.max 1 (length time) ->
   running_ave kappa time =
   Raise (ValueError "If given, length of x along axis must be the same as y.")).
Proof.
  unfold running_ave, cumtrapz. rewrite np_diff_length.
  split; intros Hl.
  - rewrite decide_True by lia. cbn [mbind exc_bind]. eexists. split; [done|].
    rewrite length_zip_with. cbn [length].
    rewrite np_cumsum_length, length_fmap, !length_zip_with, np_diff_length.
    rewrite length_drop, length_take. lia.
  - rewrite decide_False by lia. done.
Qed.

End RunningAveMore.

Section RunningAveMoreWitnesses.
Local Open Scope Q_scope.

Lemma running_ave_completes_witness :
  running_ave [ex 1; ex 2] [ex 0; ex 1; ex 2] =
  Raise (ValueError "If given, length of x along axis must be the same as y.").
Proof.
  apply (proj2 (running_ave_completes [ex 1; ex 2] [ex 0; ex 1; ex 2])).
  cbn. lia.
Defined.

End RunningAveMoreWitnesses.

(** ** The spectral conductivity: repeated calls, and a zero divisor *)

Section HnemdMore.
Context {F : Type} `{PyFloat F}.

(** X17.  A call reads only 'J_in' and 'J_out' and writes only 'k_in' and
    'k_out', so a second call on the same dictionary replaces what the first
    one stored: the dictionary and the result are those of the second call
    alone.  In particular repeating a call changes nothing. *)
Theorem hnemd_spectral_kappa_again (Fe T V Fe' T' V' : F) (shc : gmap string (ndarray F)) :
  hnemd_spectral_kappa Fe' T' V' (hnemd_spectral_kappa Fe T V shc).2 =
  hnemd_spectral_kappa Fe' T' V' shc /\
  hnemd_spectral_kappa Fe T V (hnemd_spectral_kappa Fe T V shc).2 =
  hnemd_spectral_kappa Fe T V shc.
Proof.
  assert (forall Fe' T' V',
            hnemd_spectral_kappa Fe' T' V' (hnemd_spectral_kappa Fe T V shc).2 =
            hnemd_spectral_kappa Fe' T' V' shc) as Hagain; [|by split].
  clear Fe' T' V'. intros Fe' T' V'.
  rewrite (hnemd_run Fe T V shc).
  destruct (shc !! "J_in") as [a|] eqn:Ea, (shc !! "J_out") as [b|] eqn:Eb;
    cbn [snd]; try done.
  rewrite !hnemd_run, !lookup_insert_ne, Ea, Eb by done. f_equal.
  apply map_eq. intros k.
  destruct (decide (k = "k_out")) as [->|Ho]; [by rewrite !lookup_insert_eq|].
  rewrite !(lookup_insert_ne _ "k_out") by done.
  destruct (decide (k = "k_in")) as [->|Hi]; [by rewrite !lookup_insert_eq|].
  by rewrite !lookup_insert_ne.
Qed.

End HnemdMore.

Section HnemdBinary64.

Lemma div_by_zero_binary64 (x t : float) :
  (t =? 0)%float = true -> PrimFloat.is_finite (x / t) = false.
Proof.
  intros Ht. rewrite FloatAxioms.eqb_spec in Ht.
  rewrite <-(SF2Prim_Prim2SF (x / t)), FloatAxioms.div_spec.
  change (Prim2SF 0) with (S754_zero false) in Ht.
  destruct (Prim2SF t) as [s|s| |s m e]; cbn in Ht; try discriminate.
  - destruct (Prim2SF x) as [sx|sx| |sx mx ex']; cbn; try reflexivity;
      destruct sx, s; reflexivity.
  - destruct s; discriminate.
  - destruct s; discriminate.
Qed.

(** X18.  Nothing guards the division by Fe . T . V.  On binary64, when the
    product is zero and both heat currents are present, the call completes
    like any other and every value it stores under 'k_in' and 'k_out' is
    infinite or NaN; the arrays keep the sizes of 'J_in' and 'J_out'. *)
Theorem hnemd_spectral_kappa_zero_divisor (Fe T V : float)
    (shc : gmap string (ndarray float)) (a b : ndarray float) :
  shc !! "J_in" = Some a -> shc !! "J_out" = Some b ->
  (Fe *! T *! V ==! zero) = true ->
  exists ka kb,
    hnemd_spectral_kappa Fe T V shc =
      (Ok None, <["k_out" := kb]> (<["k_in" := ka]> shc)) /\
    nd_size ka = nd_size a /\ nd_size kb = nd_size b /\
    Forall (fun v => PrimFloat.is_finite v = false) (nd_flat ka) /\
    Forall (fun v => PrimFloat.is_finite v = false) (nd_flat kb).
Proof.
  intros Ha Hb Hz. rewrite hnemd_run, Ha, Hb.
  eexists _, _. split; [reflexivity|].
  rewrite !nd_size_map, !nd_flat_map.
  split_and!; [done|done| |];
    apply Forall_fmap, Forall_forall; intros v _; by apply div_by_zero_binary64.
Qed.

Lemma hnemd_spectral_kappa_zero_divisor_witness :
  exists ka kb,
    hnemd_spectral_kappa 0%float 300%float 1000%float shc_scenario =
      (Ok None, <["k_out" := kb]> (<["k_in" := ka]> shc_scenario)) /\
    Forall (fun v => PrimFloat.is_finite v = false) (nd_flat ka).
Proof.
  destruct (hnemd_spectral_kappa_zero_divisor 0%float 300%float 1000%float shc_scenario
              (A1 [lit 10]) (A1 [lit (-10)]))
    as (ka & kb & Hrun & _ & _ & Hka & _).
  - vm_compute. reflexivity.
  - vm_compute. reflexivity.
  - vm_compute. reflexivity.
  - by exists ka, kb.
Defined.

End HnemdBinary64.

(** ** The unit scaler: signs *)

Section UnitScalerSigns.
Local Open Scope float_scope.

(** X19.  On binary64 the signs of the arguments are not checked and pass
    through the factor exactly: it is the same for T and -T, and the
    opposite volume gives the opposite factor (or the same
    ZeroDivisionError). *)
Theorem scale_gpumd_tc_signs (vol T : float) :
  __scale_gpumd_tc vol (- T) = __scale_gpumd_tc vol T /\
  __scale_gpumd_tc (- vol) T =
    match __scale_gpumd_tc vol T with
    | Ok s => Ok (- s)
    | Raise e => Raise e
    end.
Proof.
  rewrite !scale_run_binary64. split.
  - by rewrite mul_opp_opp_binary64.
  - rewrite mul_opp_r_binary64, eqb_opp_zero_binary64.
    destruct (T * T * vol =? 0); [done|]. by rewrite div_opp_r_binary64.
Qed.

End UnitScalerSigns.

(** ** Failures before the direction blocks *)

Section EngineRejected.
Context {F : Type} `{PyFloat F}.
Variable corr : ndarray F -> ndarray F -> Z -> exc (ndarray F).
Variable __get_direction : string -> exc (list string).

(** X20.  The selector of directions is parsed at line 112, after the lag
    axis has been stored: when [__get_direction] rejects it, the call raises
    that exception, and the dictionary differs from what it was only in
    'tau', which holds the new axis, still in femtoseconds.  A failure of
    the lines before (the scale factor, the maximum lag, the axis) leaves
    the dictionary as it was. *)
Theorem get_gkma_kappa_rejected_directions nbins nsamples dt sample_interval T vol max_tau
    directions return_data (data : gmap string (ndarray F)) :
  (forall e scale srate max_lag tau,
     gkma_lags nsamples dt sample_interval T vol max_tau = Ok (scale, srate, max_lag, tau) ->
     __get_direction directions = Raise e ->
     get_gkma_kappa corr __get_direction nbins nsamples dt sample_interval T vol
       max_tau directions return_data data = (Raise e, <["tau" := tau]> data)) /\
  (forall e,
     gkma_lags nsamples dt sample_interval T vol max_tau = Raise e ->
     get_gkma_kappa corr __get_direction nbins nsamples dt sample_interval T vol
       max_tau directions return_data data = (Raise e, data)).
Proof.
  split.
  - intros e scale srate max_lag tau Hl Hd. by rewrite get_gkma_kappa_run, Hl, Hd.
  - intros e Hl. by rewrite get_gkma_kappa_run, Hl.
Qed.

End EngineRejected.

Section EngineRejectedScenarios.

Lemma get_gkma_kappa_rejected_directions_witness :
  get_gkma_kappa corr_spec get_direction_spec 2 5 (ex 1) 1 (ex 300) (ex 1)
    None "w" true data_z =
  (Raise (ValueError "Invalid directions requested."),
   <["tau" := A1 [ex 0; ex 1; ex 2; ex 3; ex 4]]> data_z).
Proof.
  destruct run_z_lags as (scale & srate & tau & Hlags).
  rewrite (proj1 (get_gkma_kappa_rejected_directions corr_spec get_direction_spec
                    2 5 (ex 1) 1 (ex 300) (ex 1) None "w" true data_z)
             (ValueError "Invalid directions requested.") scale srate 4%Z tau Hlags eq_refl).
  vm_compute in Hlags. injection Hlags as _ _ <-. reflexivity.
Defined.

End EngineRejectedScenarios.
